(** * SIR cellular automaton on a torus: the simulation core of
    [ModifiedApp.jsx] (and of the older [App.jsx])

    The grid is a JavaScript array of arrays of numbers (0 susceptible,
    1 infected, 2 recovered).  The development embeds the functions
    [makeInitialGrid], [initializeGrid], [getNeighbors], [step],
    [countStates], [runOnceNoAnimate], [exportNexpJSON], [drawGrid],
    [generateGif] and the timer callback of the visible run, and proves the
    properties the specification states about them, and further ones.

    JavaScript numbers that hold array sizes and loop bounds (M, N, T, I0,
    Nexp) are naturals; coordinates and the radius are integers; the numbers
    that the two generators return and the two rates are rationals.  Products
    and quotients of such numbers are taken exact, the rounding of doubles is
    not modelled.  Most properties below hold for every stream of draws and
    do not depend on which way a comparison [u < p] or a [Math.floor] goes.
    Those that name the outcome of one (the rule for a single cell, the
    cells that a placement draws) speak of the exact product, which can
    differ from the double at a draw on the boundary. *)

From Stdlib Require Import ZArith QArith Qround Lia Permutation.
From stdpp Require Import gmap list strings.

(** ** JavaScript values, arrays and exceptions *)

(** What a grid cell read can produce: a number, or [undefined] when the
    index is outside the array (or a hole of it). *)
Inductive value : Type :=
  | Num (n : Z)
  | Undefined.

Abbreviation Row := (list value).
Abbreviation Grid := (list (list value)).

(** [a === b] on such values. *)
Definition strict_eq (a b : value) : bool :=
  match a, b with
  | Num x, Num y => (x =? y)%Z
  | Undefined, Undefined => true
  | _, _ => false
  end.

(** The result of [%]: an integer, or [NaN] when the divisor is 0. *)
Inductive number : Type :=
  | Int (z : Z)
  | NaN.

(** [a % b] on integers: the remainder has the sign of the dividend. *)
Definition js_rem (a b : Z) : number :=
  if (b =? 0)%Z then NaN else Int (Z.rem a b).

(** [arr[k]] for a computed index: [undefined] ([None]) outside [0, length). *)
Definition index {A} (arr : list A) (k : number) : option A :=
  match k with
  | Int z => if (z <? 0)%Z then None else arr !! Z.to_nat z
  | NaN => None
  end.

(** The only exception this code can raise: indexing [undefined]. *)
Inductive exn : Type :=
  | TypeError.

(** Outcome of a call: a value, an exception, or a loop that is still
    running when the fuel of the model is used up. *)
Inductive result (A : Type) : Type :=
  | Ok (a : A)
  | Throw (e : exn)
  | OutOfFuel.
Arguments Ok {A} a.
Arguments Throw {A} e.
Arguments OutOfFuel {A}.

(** Sequencing: an exception or a loop that does not end stops the caller. *)
Definition bind {A B} (m : result A) (k : A -> result B) : result B :=
  match m with
  | Ok a => k a
  | Throw e => Throw e
  | OutOfFuel => OutOfFuel
  end.

Notation "x <- m ;; k" := (bind m (fun x => k))
  (at level 100, m at next level, right associativity).

(** Code that calls [Math.random()] threads the number of draws made so far. *)
Definition Rand (A : Type) : Type := nat -> result (A * nat).

(** Sequencing of such code. *)
Definition rbind {A B} (m : Rand A) (k : A -> Rand B) : Rand B :=
  fun pos => match m pos with
             | Ok (a, pos') => k a pos'
             | Throw e => Throw e
             | OutOfFuel => OutOfFuel
             end.

(** Code that does not draw. *)
Definition lift {A} (m : result A) : Rand A :=
  fun pos => a <- m ;; Ok (a, pos).

Notation "x <~ m ;; k" := (rbind m (fun x => k))
  (at level 100, m at next level, right associativity).

(** [g[x]] used as the base of a further index: a [TypeError] when the row
    is [undefined]. *)
Definition row_at (g : Grid) (x : number) : result Row :=
  match index g x with
  | Some row => Ok row
  | None => Throw TypeError
  end.

(** [row[y]]. *)
Definition cell_at (row : Row) (y : number) : value :=
  match index row y with
  | Some v => v
  | None => Undefined
  end.

(** [row[y] = v]: in range the element is replaced; past the end the array
    grows, the gap being holes; a negative [y] only adds a property and
    leaves the elements alone (reading that property back is not modelled:
    the only writes at a drawn index use [Math.floor] of a number that the
    generators keep non-negative). *)
Definition array_set (row : Row) (y : Z) (v : value) : Row :=
  if (y <? 0)%Z then row
  else
    let j := Z.to_nat y in
    if j <? length row then <[j:=v]> row
    else row ++ replicate (j - length row) Undefined ++ [v].

(** [g[x][y] = v]. *)
Definition set_cell (g : Grid) (x y : Z) (v : value) : result Grid :=
  row <- row_at g (Int x) ;;
  Ok (<[Z.to_nat x := array_set row y v]> g).

(** [Array(m).fill(0).map(() => Array(n).fill(0))]. *)
Definition zeros (m n : nat) : Grid := replicate m (replicate n (Num 0)).

(** [for (let k = start; k < start + n; k++) acc = body(k, acc)]. *)
Fixpoint for_from {A} (n start : nat) (body : nat -> A -> result A) (acc : A)
  : result A :=
  match n with
  | 0 => Ok acc
  | S n' => acc' <- body start acc ;; for_from n' (S start) body acc'
  end.

(** [for (let i = lo; i <= hi; i++) acc = body(i, acc)] on integers. *)
Definition for_Z {A} (lo hi : Z) (body : Z -> A -> result A) (acc : A)
  : result A :=
  for_from (Z.to_nat (hi - lo + 1)) 0
           (fun k => body (lo + Z.of_nat k)%Z) acc.

(** The same loop around code that draws. *)
Fixpoint for_rand {A} (n start : nat) (body : nat -> A -> Rand A) (acc : A)
  : Rand A :=
  match n with
  | 0 => fun pos => Ok (acc, pos)
  | S n' => acc' <~ body start acc ;; for_rand n' (S start) body acc'
  end.

(** [x < y]. *)
Definition Qltb (x y : Q) : bool :=
  match (x ?= y)%Q with
  | Lt => true
  | _ => false
  end.

(** ** Vocabulary of the statements *)

(** [wp E m Q]: the call [m] returns a value that satisfies [Q]; an exception
    or a loop that does not finish counts as [E].  With [E := False] this is
    total correctness, with [E := True] it says nothing about failed calls. *)
Definition wp {A} (E : Prop) (m : result A) (Q : A -> Prop) : Prop :=
  match m with
  | Ok a => Q a
  | Throw _ => E
  | OutOfFuel => E
  end.

(** The same for code that draws, started after [pos] draws. *)
Definition rwp {A} (E : Prop) (m : Rand A) (pos : nat)
           (Q : A -> nat -> Prop) : Prop :=
  wp E (m pos) (fun ap => Q (fst ap) (snd ap)).

(** An [m] by [n] grid: [m] rows of [n] cells each. *)
Definition wfg (m n : nat) (g : Grid) : Prop :=
  length g = m /\ Forall (fun row : Row => length row = n) g.

(** The cell in row [i], column [j]. *)
Definition cell (g : Grid) (i j : nat) : value :=
  match g !! i with
  | Some row => match row !! j with
                | Some v => v
                | None => Undefined
                end
  | None => Undefined
  end.

(** How many cells satisfy [p]. *)
Fixpoint count_row (p : value -> bool) (row : Row) : nat :=
  match row with
  | [] => 0
  | c :: row' => (if p c then 1 else 0) + count_row p row'
  end.

(** The same over a grid. *)
Fixpoint count_grid (p : value -> bool) (g : Grid) : nat :=
  match g with
  | [] => 0
  | row :: g' => count_row p row + count_grid p g'
  end.

(** The three branches of [countStates], and the first test of [step]. *)
Definition isS (c : value) : bool := strict_eq c (Num 0).
Definition isI (c : value) : bool := strict_eq c (Num 1).
Definition isR (c : value) : bool := negb (isS c) && negb (isI c).
Definition is2 (c : value) : bool := strict_eq c (Num 2).

(** Every cell holds one of the three states. *)
Definition valid_cell (c : value) : Prop :=
  c = Num 0 \/ c = Num 1 \/ c = Num 2.

(** An [m] by [n] grid of such cells. *)
Definition valid_grid (m n : nat) (g : Grid) : Prop :=
  wfg m n g /\ Forall (Forall valid_cell) g.

(** What [step] may turn a cell into. *)
Definition transition (c c' : value) : Prop :=
  if is2 c then c' = Num 2
  else if isI c then c' = Num 1 \/ c' = Num 2
  else c' = Num 0 \/ c' = Num 1.

(** ** Parameters and records *)

Module Params.
Record record : Type := mk {
  M : nat;
  N : nat;
  I0 : nat;
  T : nat;
  r : Z;
  beta : Q;
  alpha : Q
}.
End Params.

(** One entry [{ t, s, i, r }] of a run's history. *)
Module StepRecord.
Record record : Type := mk {
  t : nat;
  s : nat;
  i : nat;
  r : nat
}.
End StepRecord.

(** One entry of [runs] in the exported payload. *)
Module RunResult.
Record record : Type := mk {
  run_id : nat;
  t : list nat;
  s : list nat;
  i : list nat;
  r : list nat
}.
End RunResult.

(** [v / n] on non-negative integers, as a JavaScript number: [Quot q] is the
    double that the division returns for the exact quotient [q]. *)
Inductive quotient : Type :=
  | Quot (q : Q)
  | Infinity
  | NotANumber.

Definition js_div (v n : nat) : quotient :=
  match n, v with
  | 0, 0 => NotANumber
  | 0, S _ => Infinity
  | S _, _ => Quot (inject_Z (Z.of_nat v) / inject_Z (Z.of_nat n))
  end.

Module Mean.
Record record : Type := mk {
  t : list nat;
  s : list quotient;
  i : list quotient;
  r : list quotient
}.
End Mean.

Module Meta.
Record record : Type := mk {
  model : string;
  params : Params.record;
  Nexp : nat;
  seed_init : string;
  note : string
}.
End Meta.

Module Payload.
Record record : Type := mk {
  meta : Meta.record;
  runs : list RunResult.record;
  mean : Mean.record
}.
End Payload.

(** The React state and refs of the component that the simulation uses. *)
Module App.
Record record : Type := mk {
  isRunning : bool;
  grid : option Grid;
  history : list StepRecord.record;
  time : nat;
  animationRef : list Grid;
  initGridRef : option Grid
}.
End App.

Definition initSeed : string := "grid-init-12345".

(** ** Decidable forms of the grid predicates *)

Definition wfgb (m n : nat) (g : Grid) : bool :=
  (length g =? m) && forallb (fun row : Row => length row =? n) g.

Definition valid_cellb (c : value) : bool := isS c || isI c || is2 c.

Definition valid_gridb (m n : nat) (g : Grid) : bool :=
  wfgb m n g && forallb (forallb valid_cellb) g.

(** ** Sample inputs *)

(** The initial parameters of [App.jsx], and small ones. *)
Definition sample_App_defaults : Params.record :=
  Params.mk 50 50 5 200 1 (4 # 10) (1 # 10).

Definition sample_small : Params.record :=
  Params.mk 2 2 2 2 1 (1 # 2) (1 # 2).

(** Two rows and a radius of three. *)
Definition sample_wide : Params.record :=
  Params.mk 2 2 1 2 3 (1 # 2) (1 # 2).

(** Three rows and a radius of four. *)
Definition sample_wider : Params.record :=
  Params.mk 3 3 1 2 4 (1 # 2) (1 # 2).

(** More infected cells than cells. *)
Definition sample_overfull : Params.record :=
  Params.mk 1 1 2 0 1 (1 # 2) (1 # 2).

Definition sample_grid : Grid := [[Num 1; Num 0]; [Num 0; Num 2]].

Definition sample_grid3 : Grid :=
  [[Num 0; Num 1; Num 0]; [Num 0; Num 0; Num 0]; [Num 0; Num 0; Num 0]].

(** Streams of draws: all zero; 0, 1/4, 2/4, 3/4 in turn; and ten draws of
    which the first four name the same cell of a 50 by 50 grid. *)
Definition sample_zero (k : nat) : Q := 0.

Definition sample_quarters (seed : string) (k : nat) : Q :=
  Z.of_nat (k mod 4) # 4.

Definition sample_colliding (k : nat) : Q :=
  match k with
  | 0 | 1 | 2 | 3 => 1 # 10
  | 4 | 5 => 3 # 10
  | 6 | 7 => 5 # 10
  | 8 | 9 => 7 # 10
  | _ => 0
  end.

Definition sample_app : App.record := App.mk false None [] 0 [] None.

(** A grid without an infected cell. *)
Definition sample_clean : Grid := [[Num 0; Num 2]; [Num 2; Num 0]].

(** A grid that has lost its second row. *)
Definition sample_short : Grid := [[Num 0; Num 1]].

(** Rates at the ends of their ranges, and a grid without rows. *)
Definition sample_no_recovery : Params.record :=
  Params.mk 2 2 2 2 1 (1 # 2) 0.

Definition sample_no_infection : Params.record :=
  Params.mk 2 2 2 2 1 0 (1 # 2).

Definition sample_sure_recovery : Params.record :=
  Params.mk 2 2 2 2 1 (1 # 2) 1.

Definition sample_no_rows : Params.record :=
  Params.mk 0 2 1 2 1 (1 # 2) (1 # 2).

(** ** The canvas *)

(** A canvas element: its [width] and [height] attributes. *)
Module Canvas.
Record record : Type := mk {
  width : nat;
  height : nat
}.
End Canvas.

(** What the drawing code sends to the 2D context of its canvas and to the
    GIF encoder, in order: [ctx.fillStyle = colour],
    [ctx.fillRect(x, y, w, h)], [gif.addFrame(canvas, { delay })] and
    [gif.render()]. *)
Inductive call : Type :=
  | fillStyle (colour : string)
  | fillRect (x y w h : quotient)
  | addFrame (delay : nat)
  | render.

(** [Math.min(a, b)]. *)
Definition js_min (a b : quotient) : quotient :=
  match a, b with
  | NotANumber, _ | _, NotANumber => NotANumber
  | Infinity, _ => b
  | _, Infinity => a
  | Quot x, Quot y => if Qle_bool x y then Quot x else Quot y
  end.

(** [k * c] for a loop counter [k]. *)
Definition js_mul (k : nat) (c : quotient) : quotient :=
  match c with
  | Quot q => Quot (inject_Z (Z.of_nat k) * q)
  | Infinity => if k =? 0 then NotANumber else Infinity
  | NotANumber => NotANumber
  end.

(** A whole number as a JavaScript number. *)
Definition js_nat (k : nat) : quotient := Quot (inject_Z (Z.of_nat k)).

(** The colour of a cell: blue for 0, red for 1, green for anything else. *)
Definition colour_of (v : value) : string :=
  if strict_eq v (Num 0) then "#3b82f6"
  else if strict_eq v (Num 1) then "#ef4444"
  else "#10b981".

(** [arr.forEach(body)] around code that can throw. *)
Fixpoint forEach {A S} (arr : list A) (body : A -> S -> result S) (acc : S)
  : result S :=
  match arr with
  | [] => Ok acc
  | a :: arr' => acc' <- body a acc ;; forEach arr' body acc'
  end.

(** What [generateGif] ends with: the alert, or the calls made. *)
Inductive gif_outcome : Type :=
  | alert (message : string)
  | rendered (calls : list call).

(** How many of the calls set the fill style to [colour]. *)
Fixpoint count_style (colour : string) (calls : list call) : nat :=
  match calls with
  | [] => 0
  | fillStyle c :: calls' =>
      (if String.eqb c colour then 1 else 0) + count_style colour calls'
  | _ :: calls' => count_style colour calls'
  end.

(** A grid with cells outside the three states. *)
Definition sample_odd : Grid := [[Num 5; Undefined]; [Num 1; Num 2]].

(** The canvas of the component. *)
Definition sample_canvas : Canvas.record := Canvas.mk 400 400.

(** A grid of two rows of one cell. *)
Definition sample_narrow : Grid := [[Num 0]; [Num 1]].

Section Simulation.

(** [Math_random k] is what the k-th call of [Math.random()] returns;
    [seedrandom seed k] is what the k-th call of the generator
    [seedrandom(seed)] returns. *)
Variable Math_random : nat -> Q.
Variable seedrandom : string -> nat -> Q.
Variable params : Params.record.

Local Abbreviation M := (Params.M params).
Local Abbreviation N := (Params.N params).
Local Abbreviation I0 := (Params.I0 params).
Local Abbreviation T := (Params.T params).

(** [Math.random()]. *)
Definition random : Rand Q := fun pos => Ok (Math_random pos, S pos).

(** *** [makeInitialGrid] ([ModifiedApp.jsx], lines 31-47) *)

(** [Math.floor(u * n)]. *)
Definition floor_scaled (u : Q) (n : nat) : Z :=
  Qfloor (u * inject_Z (Z.of_nat n)).

(** The [while (placed < params.I0)] loop; [pos] counts the calls of [rng]
    made so far, the keys of [used] are the pairs behind the strings
    [`${x},${y}`]. *)
Fixpoint place (fuel : nat) (rng : nat -> Q) (pos : nat) (g : Grid)
         (used : gset (Z * Z)) (placed : nat) : result Grid :=
  if placed <? I0 then
    match fuel with
    | 0 => OutOfFuel
    | S fuel' =>
        let x := floor_scaled (rng pos) M in
        let y := floor_scaled (rng (S pos)) N in
        if decide ((x, y) ∈ used) then
          place fuel' rng (S (S pos)) g used placed
        else
          g' <- set_cell g x y (Num 1) ;;
          place fuel' rng (S (S pos)) g' ({[ (x, y) ]} ∪ used) (S placed)
    end
  else Ok g.

(** [fuel] bounds the passes of the loop. *)
Definition makeInitialGrid (fuel : nat) : result Grid :=
  let rng := seedrandom initSeed in
  place fuel rng 0 (zeros M N) ∅ 0.

(** *** [getNeighbors] (lines 67-81; the same in [App.jsx], lines 42-56) *)

(** The body of the two loops: what the cell (i, j) adds to the census. *)
Definition census_cell (grid : Grid) (x y i j : Z) (acc : nat * nat)
  : result (nat * nat) :=
  let '(infected, total) := acc in
  if negb (i =? x)%Z || negb (j =? y)%Z then
    let ii := js_rem (i + Z.of_nat M) (Z.of_nat M) in
    let jj := js_rem (j + Z.of_nat N) (Z.of_nat N) in
    let total := S total in
    row <- row_at grid ii ;;
    if strict_eq (cell_at row jj) (Num 1)
    then Ok (S infected, total)
    else Ok (infected, total)
  else Ok (infected, total).

(** The census [{ infected, total }] of the square of side 2 * radius + 1
    around (x, y), the centre left out. *)
Definition getNeighbors (grid : Grid) (x y radius : Z) : result (nat * nat) :=
  for_Z (x - radius) (x + radius) (fun i acc =>
    for_Z (y - radius) (y + radius) (fun j acc =>
      census_cell grid x y i j acc) acc) (0, 0).

(** *** [step] (lines 83-99; the same in [App.jsx], lines 58-83) *)

(** [infected > 0 ? params.beta * (infected / total) : 0]. *)
Definition infectionProb (infected total : nat) : Q :=
  if 0 <? infected
  then Params.beta params *
       (inject_Z (Z.of_nat infected) / inject_Z (Z.of_nat total))
  else 0.

(** The body of the two loops: the three branches on [currentGrid[i][j]]. *)
Definition step_cell (currentGrid newGrid : Grid) (i j : nat) : Rand Grid :=
  row <~ lift (row_at currentGrid (Int (Z.of_nat i))) ;;
  let c := cell_at row (Int (Z.of_nat j)) in
  if strict_eq c (Num 2) then
    lift (set_cell newGrid (Z.of_nat i) (Z.of_nat j) (Num 2))
  else if strict_eq c (Num 1) then
    u <~ random ;;
    lift (set_cell newGrid (Z.of_nat i) (Z.of_nat j)
                   (if Qltb u (Params.alpha params) then Num 2 else Num 1))
  else
    nb <~ lift (getNeighbors currentGrid (Z.of_nat i) (Z.of_nat j)
                              (Params.r params)) ;;
    let '(infected, total) := nb in
    let p := infectionProb infected total in
    u <~ random ;;
    lift (set_cell newGrid (Z.of_nat i) (Z.of_nat j)
                   (if Qltb u p then Num 1 else Num 0)).

(** Every cell of the new grid is computed from [currentGrid]. *)
Definition step (currentGrid : Grid) : Rand Grid :=
  for_rand M 0 (fun i newGrid =>
    for_rand N 0 (fun j newGrid => step_cell currentGrid newGrid i j)
             newGrid) (zeros M N).

(** *** [countStates] (lines 101-111) *)

(** The counts [{ s, i, r }]: a cell that is neither 0 nor 1 counts as r. *)
Definition countStates (g : Grid) : result (nat * nat * nat) :=
  for_from M 0 (fun x acc =>
    for_from N 0 (fun y '(s, i, r) =>
      row <- row_at g (Int (Z.of_nat x)) ;;
      let c := cell_at row (Int (Z.of_nat y)) in
      if strict_eq c (Num 0) then Ok (S s, i, r)
      else if strict_eq c (Num 1) then Ok (s, S i, r)
      else Ok (s, i, S r)) acc) (0, 0, 0).

(** *** [runOnceNoAnimate] (lines 188-197) *)

(** [initGridRef.current.map(row => [...row])]. *)
Definition clone (g : Grid) : Grid := map (fun row => row) g.

(** The history of one headless run from a copy of the initial grid. *)
Definition runOnceNoAnimate (initGridRef : option Grid)
  : Rand (list StepRecord.record) :=
  match initGridRef with
  | None => lift (Throw TypeError)
  | Some init =>
      st <~ for_rand (S T) 0 (fun t '(g, hist) =>
              c <~ lift (countStates g) ;;
              let '(s, i, r) := c in
              let hist := hist ++ [StepRecord.mk t s i r] in
              if t <? T
              then g' <~ step g ;; lift (Ok (g', hist))
              else lift (Ok (g, hist)))
            (clone init, []) ;;
      lift (Ok (snd st))
  end.

(** *** [exportNexpJSON] (lines 199-247) *)

Variable Nexp : nat.

(** [acc[t] += v], for an index inside [acc]. *)
Definition add_at (acc : list nat) (t v : nat) : list nat :=
  alter (fun a => a + v) t acc.

(** [hist[t]] used as the base of a field access. *)
Definition record_at (hist : list StepRecord.record) (t : nat)
  : result StepRecord.record :=
  match hist !! t with
  | Some x => Ok x
  | None => Throw TypeError
  end.

(** The loop [for (let t = 0; t <= params.T; t++)] over the three
    accumulators. *)
Definition accumulate (hist : list StepRecord.record)
           (acc : list nat * list nat * list nat)
  : result (list nat * list nat * list nat) :=
  for_from (S T) 0 (fun t '(accS, accI, accR) =>
    x <- record_at hist t ;;
    Ok (add_at accS t (StepRecord.s x),
        add_at accI t (StepRecord.i x),
        add_at accR t (StepRecord.r x))) acc.

(** The payload, and the component with its [initGridRef] filled. *)
Definition exportNexpJSON (fuel : nat) (app : App.record)
  : Rand (App.record * Payload.record) :=
  init <~ lift (match App.initGridRef app with
                | Some g => Ok g
                | None => makeInitialGrid fuel
                end) ;;
  let app := App.mk (App.isRunning app) (App.grid app) (App.history app)
                    (App.time app) (App.animationRef app) (Some init) in
  let acc0 := replicate (S T) 0 in
  st <~ for_rand Nexp 0 (fun k '(runs, acc) =>
          hist <~ runOnceNoAnimate (App.initGridRef app) ;;
          let runs := runs ++ [RunResult.mk k
                                 (map StepRecord.t hist)
                                 (map StepRecord.s hist)
                                 (map StepRecord.i hist)
                                 (map StepRecord.r hist)] in
          acc' <~ lift (accumulate hist acc) ;;
          lift (Ok (runs, acc')))
        ([], (acc0, acc0, acc0)) ;;
  let '(runs, (accS, accI, accR)) := st in
  let mean := Mean.mk (seq 0 (S T))
                      (map (fun v => js_div v Nexp) accS)
                      (map (fun v => js_div v Nexp) accI)
                      (map (fun v => js_div v Nexp) accR) in
  let payload :=
    Payload.mk (Meta.mk "grid" params Nexp initSeed
                  "Fixed-seed initial infected; headless Nexp averaging")
               runs mean in
  lift (Ok (app, payload)).

(** *** The visible run (lines 49-57 and 130-145) *)

(** [initializeGrid] of [ModifiedApp.jsx]: the initial grid is built once
    and kept in [initGridRef]; the grid shown is a copy of it. *)
Definition initializeGrid (fuel : nat) (app : App.record) : result App.record :=
  init <- match App.initGridRef app with
          | Some g => Ok g
          | None => makeInitialGrid fuel
          end ;;
  Ok (App.mk (App.isRunning app) (Some (clone init)) [] 0 [] (Some init)).

(** The effect on [isRunning, grid, time] with its timer callback: one
    firing of the effect. *)
Definition tick (app : App.record) : Rand App.record :=
  match App.isRunning app, App.grid app with
  | true, Some grid =>
      if T <=? App.time app then
        lift (Ok (App.mk false (App.grid app) (App.history app)
                         (App.time app) (App.animationRef app)
                         (App.initGridRef app)))
      else
        newGrid <~ step grid ;;
        counts <~ lift (countStates newGrid) ;;
        let '(s, i, r) := counts in
        lift (Ok (App.mk true (Some newGrid)
                         (App.history app ++
                            [StepRecord.mk (App.time app) s i r])
                         (S (App.time app))
                         (App.animationRef app ++ [newGrid])
                         (App.initGridRef app)))
  | _, _ =>
      lift (Ok (App.mk false (App.grid app) (App.history app)
                       (App.time app) (App.animationRef app)
                       (App.initGridRef app)))
  end.

(** [firings] firings of the effect, one after the other. *)
Fixpoint fire (firings : nat) (app : App.record) : Rand App.record :=
  match firings with
  | 0 => lift (Ok app)
  | S k => app' <~ tick app ;; fire k app'
  end.

(** The visible run: [isRunning] set, then the effect fires. *)
Definition visibleRun (firings : nat) (app : App.record) : Rand App.record :=
  fire firings (App.mk true (App.grid app) (App.history app) (App.time app)
                       (App.animationRef app) (App.initGridRef app)).

(** *** [initializeGrid] of the older [App.jsx] (lines 25-36) *)

(** The grid that [initializeGrid] of [App.jsx] hands to [setGrid]: I0 passes,
    each writing the drawn cell. *)
Definition App_initializeGrid : Rand Grid :=
  for_rand I0 0 (fun _ newGrid =>
    u <~ random ;;
    let x := floor_scaled u M in
    v <~ random ;;
    let y := floor_scaled v N in
    lift (set_cell newGrid x y (Num 1))) (zeros M N).

(** ** Vocabulary of the proofs *)

(** s + i + r of a result of [countStates]. *)
Definition sum3 (c : nat * nat * nat) : nat :=
  let '(s, i, r) := c in s + i + r.

(** The susceptible, infected and other cells of a grid. *)
Definition counts (g : Grid) : nat * nat * nat :=
  (count_grid isS g, count_grid isI g, count_grid isR g).

(** The cells for which [step] calls [Math.random()]. *)
Definition draws (c : value) : bool := negb (is2 c).

(** [{ t, s, i, r }]. *)
Definition record_of (t : nat) (c : nat * nat * nat) : StepRecord.record :=
  let '(s, i, r) := c in StepRecord.mk t s i r.

(** What a history of a headless run satisfies. *)
Definition history_ok (init : Grid) (hist : list StepRecord.record) : Prop :=
  (forall k x, hist !! k = Some x ->
     StepRecord.t x = k /\
     StepRecord.s x + StepRecord.i x + StepRecord.r x = M * N) /\
  (0 < length hist -> hist !! 0 = Some (record_of 0 (counts init))) /\
  (Forall (Forall valid_cell) init ->
   forall k k' a b, k <= k' -> hist !! k = Some a -> hist !! k' = Some b ->
     StepRecord.r a <= StepRecord.r b /\ StepRecord.s b <= StepRecord.s a).

(** The cell that the k-th pass of the placement loop draws. *)
Definition drawn_cell (rng : nat -> Q) (k : nat) : Z * Z :=
  (floor_scaled (rng (2 * k)) M, floor_scaled (rng (S (2 * k))) N).

(** The different cells among the first [k] drawn ones. *)
Definition cells_drawn (rng : nat -> Q) (k : nat) : gset (Z * Z) :=
  list_to_set (map (drawn_cell rng) (seq 0 k)).

(** The generator returns numbers in [0, 1). *)
Definition unit_range (rng : nat -> Q) : Prop :=
  forall k, (0 <= rng k)%Q /\ (rng k < 1)%Q.

(** State of the placement loop after [k] passes. *)
Definition placing (rng : nat -> Q) (k : nat) (g : Grid)
           (used : gset (Z * Z)) (placed : nat) : Prop :=
  wfg M N g /\
  (forall i j, i < M -> j < N ->
     (Z.of_nat i, Z.of_nat j) ∉ used -> cell g i j = Num 0) /\
  used = cells_drawn rng k /\
  placed = size used /\
  count_grid isI g = placed /\
  count_grid isR g = 0 /\
  placed <= I0.

(** [acc'] is [acc] with the first [t] values of [vs] added elementwise. *)
Definition added (t : nat) (vs acc acc' : list nat) : Prop :=
  length acc' = length acc /\
  forall k, acc' !! k
            = if decide (k < t) then (fun a => a + nth k vs 0) <$> acc !! k
              else acc !! k.

(** The sum over the runs of the value at time [t]. *)
Definition total_at (f : RunResult.record -> list nat) (t : nat)
           (runs : list RunResult.record) : nat :=
  sum_list_with (fun run => nth t (f run) 0) runs.

(** [acc] holds, for every time up to T, the sum over [runs]. *)
Definition accumulated (f : RunResult.record -> list nat)
           (runs : list RunResult.record) (acc : list nat) : Prop :=
  length acc = S T /\
  forall t, t <= T -> acc !! t = Some (total_at f t runs).

(** The entry of [runs] made from the history of run [k]. *)
Definition run_of (k : nat) (hist : list StepRecord.record) : RunResult.record :=
  RunResult.mk k (map StepRecord.t hist) (map StepRecord.s hist)
               (map StepRecord.i hist) (map StepRecord.r hist).

(** The runs of a batch started from [init]. *)
Definition runs_ok (init : Grid) (runs : list RunResult.record) : Prop :=
  forall k run, runs !! k = Some run ->
    exists hist, run = run_of k hist /\ length hist = S T /\
                 history_ok init hist.

(** The means of a payload are the sums over its runs divided by Nexp. *)
Definition mean_ok (payload : Payload.record) : Prop :=
  let runs := Payload.runs payload in
  let mean := Payload.mean payload in
  Mean.t mean = seq 0 (S T) /\
  forall t, t <= T ->
    Mean.s mean !! t = Some (js_div (total_at RunResult.s t runs) Nexp) /\
    Mean.i mean !! t = Some (js_div (total_at RunResult.i t runs) Nexp) /\
    Mean.r mean !! t = Some (js_div (total_at RunResult.r t runs) Nexp).

(** The grid a batch or a reset starts from. *)
Definition initial_grid (fuel : nat) (app : App.record) : result Grid :=
  match App.initGridRef app with
  | Some g => Ok g
  | None => makeInitialGrid fuel
  end.

(** The census of every cell of every M by N grid returns (or [E]). *)
Definition census_ok (E : Prop) : Prop :=
  forall (g : Grid) i j, wfg M N g -> i < M -> j < N ->
    wp E (getNeighbors g (Z.of_nat i) (Z.of_nat j) (Params.r params))
       (fun _ => True).

(** ** Vocabulary of the further properties *)

(** The draws that [Math.random()] has made when [step], started after [pos]
    draws, reaches the cell (i, j): one for every cell before it, in row
    order, that is not recovered. *)
Definition draw_index (cur : Grid) (pos i j : nat) : nat :=
  pos + count_grid draws (take i cur)
  + count_row draws (take j (default [] (cur !! i))).

(** The state that [step] gives the cell (i, j) of [cur] when its draw is the
    one of index [k]. *)
Definition next_state (cur : Grid) (i j k : nat) (c' : value) : Prop :=
  let c := cell cur i j in
  if is2 c then c' = Num 2
  else if isI c then
    c' = (if Qltb (Math_random k) (Params.alpha params) then Num 2 else Num 1)
  else
    exists infected total,
      getNeighbors cur (Z.of_nat i) (Z.of_nat j) (Params.r params)
      = Ok (infected, total) /\
      c' = (if Qltb (Math_random k) (infectionProb infected total)
            then Num 1 else Num 0).

(** [Math.random()] never returns a negative number, and stays below 1. *)
Definition draws_nonneg : Prop := forall k, (0 <= Math_random k)%Q.
Definition draws_below_1 : Prop := forall k, (Math_random k < 1)%Q.

(** [k] applications of [step], one after the other. *)
Fixpoint steps (k : nat) (g : Grid) : Rand Grid :=
  match k with
  | 0 => lift (Ok g)
  | S k' => g' <~ step g ;; steps k' g'
  end.

(** The cell at row [i], column [j] of the plane that the grid tiles: the
    grid wrapped around in both directions. *)
Definition torus_cell (g : Grid) (i j : Z) : value :=
  cell g (Z.to_nat (i mod Z.of_nat M)) (Z.to_nat (j mod Z.of_nat N)).

(** 1 when the place (i, j) of that plane is not the centre (x, y) and holds
    an infected cell. *)
Definition infected_at (g : Grid) (x y i j : Z) : nat :=
  if (negb (i =? x)%Z || negb (j =? y)%Z) && isI (torus_cell g i j)
  then 1 else 0.

(** The infected places of the square of side 2 * radius + 1 around (x, y),
    each place of the plane counted once. *)
Definition infected_around (g : Grid) (x y radius : Z) : nat :=
  sum_list_with (fun i =>
    sum_list_with (fun j => infected_at g x y i j)
                  (seqZ (y - radius) (2 * radius + 1)))
    (seqZ (x - radius) (2 * radius + 1)).


(** [a <= b] on quotients that are numbers. *)
Definition quot_le (a b : quotient) : Prop :=
  match a, b with
  | Quot x, Quot y => (x <= y)%Q
  | _, _ => False
  end.

(** *** The re-initialisation effect and the counters shown
    ([ModifiedApp.jsx], lines 60-64 and 249) *)

(** The effect on [params.M, params.N, params.I0]: the kept initial grid is
    dropped, then [initializeGrid] runs. *)
Definition reinitialize (fuel : nat) (app : App.record) : result App.record :=
  initializeGrid fuel
    (App.mk (App.isRunning app) (App.grid app) (App.history app)
            (App.time app) (App.animationRef app) None).

(** [grid ? countStates(grid) : { s: params.M * params.N, i: 0, r: 0 }]. *)
Definition shown_counts (app : App.record) : result (nat * nat * nat) :=
  match App.grid app with
  | Some g => countStates g
  | None => Ok (M * N, 0, 0)
  end.

(** The draws of [Math.random()] from the draw numbered [pos] on. *)
Definition draws_from (pos : nat) : nat -> Q := fun k => Math_random (pos + k).

(** *** [drawGrid] and [generateGif] (lines 114-128 and 151-185; [drawGrid]
    the same in [App.jsx], lines 97-120) *)

(** The background: [ctx.fillStyle = '#f0f0f0'] and the rectangle over the
    whole canvas. *)
Definition background (canvas : Canvas.record) : list call :=
  [fillStyle "#f0f0f0";
   fillRect (js_nat 0) (js_nat 0) (js_nat (Canvas.width canvas))
            (js_nat (Canvas.height canvas))].

(** [Math.min(canvas.width / params.N, canvas.height / params.M)]. *)
Definition cell_size (canvas : Canvas.record) : quotient :=
  js_min (js_div (Canvas.width canvas) N) (js_div (Canvas.height canvas) M).

(** The two loops over the cells, which [drawGrid] and the body of
    [frames.forEach] in [generateGif] both contain; [ctx] holds the calls
    made so far.  A call that throws is modelled by the exception alone. *)
Definition paint_cells (g : Grid) (cellSize : quotient) (ctx : list call)
  : result (list call) :=
  for_from M 0 (fun i ctx =>
    for_from N 0 (fun j ctx =>
      let x := js_mul j cellSize in
      let y := js_mul i cellSize in
      row <- row_at g (Int (Z.of_nat i)) ;;
      let style := colour_of (cell_at row (Int (Z.of_nat j))) in
      Ok (ctx ++ [fillStyle style; fillRect x y cellSize cellSize])) ctx) ctx.

(** The calls that [drawGrid(g, canvas)] makes; none for a missing canvas. *)
Definition drawGrid (g : Grid) (canvas : option Canvas.record)
  : result (list call) :=
  match canvas with
  | None => Ok []
  | Some canvas =>
      let cellSize := cell_size canvas in
      paint_cells g cellSize (background canvas)
  end.

(** [generateGif], up to [gif.render()]; what the encoder does with the
    frames it was given is not part of this code. *)
Definition generateGif (animationRef : list Grid) : result gif_outcome :=
  if length animationRef =? 0 then Ok (alert "Ejecuta la simulación primero")
  else
    let canvas := Canvas.mk 400 400 in
    let frames :=
      take (Nat.min 150 (length animationRef)) animationRef in
    let cellSize := cell_size canvas in
    calls <- forEach frames (fun frame calls =>
               calls' <- paint_cells frame cellSize
                           (calls ++ background canvas) ;;
               Ok (calls' ++ [addFrame 60])) [] ;;
    Ok (rendered (calls ++ [render])).

(** The sum over the runs of their value at time [t]; there is one only
    when every run holds a value at [t]. *)
Fixpoint sum_at (f : RunResult.record -> list nat) (t : nat)
         (runs : list RunResult.record) : option nat :=
  match runs with
  | [] => Some 0
  | run :: runs' =>
      match f run !! t, sum_at f t runs' with
      | Some v, Some w => Some (v + w)
      | _, _ => None
      end
  end.

(** The runs of a batch that started at the draw [pos] and stopped at the
    draw [pos']: run k is made from the history of a headless run from
    [init] that starts at the draw where run k - 1 stopped. *)
Definition batch_of (init : Grid) (pos : nat) (runs : list RunResult.record)
           (pos' : nat) : Prop :=
  exists ps : list nat,
    length ps = S (length runs) /\
    ps !! 0 = Some pos /\ ps !! length runs = Some pos' /\
    forall k run, runs !! k = Some run ->
      exists hist p p',
        ps !! k = Some p /\ ps !! S k = Some p' /\
        runOnceNoAnimate (Some init) p = Ok (hist, p') /\
        run = run_of k hist.

(** ** Weakest preconditions of the monads and loops *)

Lemma wp_bind {A B} E (m : result A) (k : A -> result B) Q :
  wp E m (fun a => wp E (k a) Q) -> wp E (bind m k) Q.
Proof. destruct m; simpl; auto. Qed.

Lemma wp_mono {A} E (m : result A) (Q Q' : A -> Prop) :
  (forall a, Q a -> Q' a) -> wp E m Q -> wp E m Q'.
Proof. destruct m; simpl; auto. Qed.

Lemma wp_total {A} (m : result A) Q :
  wp False m Q -> exists a, m = Ok a /\ Q a.
Proof. destruct m; simpl; intros H; try contradiction. eauto. Qed.

Lemma wp_partial {A} (m : result A) Q :
  wp True m Q <-> (forall a, m = Ok a -> Q a).
Proof.
  destruct m; simpl; split; intros H; auto; congruence.
Qed.

Lemma wp_weaken {A} E (m : result A) Q : wp False m Q -> wp E m Q.
Proof. destruct m; simpl; intros H; auto; contradiction. Qed.

Lemma rwp_bind {A B} E (m : Rand A) (k : A -> Rand B) pos Q :
  rwp E m pos (fun a p => rwp E (k a) p Q) -> rwp E (rbind m k) pos Q.
Proof.
  unfold rwp, rbind. destruct (m pos) as [[a p]| |]; simpl; auto.
Qed.

Lemma rwp_lift {A} E (m : result A) pos (Q : A -> nat -> Prop) :
  wp E m (fun a => Q a pos) -> rwp E (lift m) pos Q.
Proof. unfold rwp, lift. destruct m; simpl; auto. Qed.

Lemma rwp_random E pos (Q : Q -> nat -> Prop) :
  Q (Math_random pos) (S pos) -> rwp E random pos Q.
Proof. unfold rwp, random. simpl. auto. Qed.

Lemma rwp_mono {A} E (m : Rand A) pos (Q Q' : A -> nat -> Prop) :
  (forall a p, Q a p -> Q' a p) -> rwp E m pos Q -> rwp E m pos Q'.
Proof. unfold rwp. intros H. apply wp_mono. intros [a p]. apply H. Qed.

Lemma for_from_wp {A} E (Inv : nat -> A -> Prop) body n :
  forall start acc,
    Inv start acc ->
    (forall k a, start <= k < start + n -> Inv k a ->
                 wp E (body k a) (Inv (S k))) ->
    wp E (for_from n start body acc) (Inv (start + n)).
Proof.
  induction n as [|n IH]; intros start acc H0 Hbody; simpl.
  - replace (start + 0) with start by lia. exact H0.
  - apply wp_bind.
    eapply wp_mono; [|apply (Hbody start acc); [lia|exact H0]].
    intros a Ha. replace (start + S n) with (S start + n) by lia.
    apply IH; [exact Ha|].
    intros k b Hk. apply Hbody. lia.
Qed.

Lemma for_rand_wp {A} E (Inv : nat -> A -> nat -> Prop) body n :
  forall start acc pos,
    Inv start acc pos ->
    (forall k a p, start <= k < start + n -> Inv k a p ->
                   rwp E (body k a) p (Inv (S k))) ->
    rwp E (for_rand n start body acc) pos (Inv (start + n)).
Proof.
  induction n as [|n IH]; intros start acc pos H0 Hbody; simpl.
  - unfold rwp. simpl. replace (start + 0) with start by lia. exact H0.
  - apply rwp_bind.
    eapply rwp_mono; [|apply (Hbody start acc pos); [lia|exact H0]].
    intros a p Ha. replace (start + S n) with (S start + n) by lia.
    apply IH; [exact Ha|].
    intros k b q Hk. apply Hbody. lia.
Qed.

(** ** Arrays and grids *)

Lemma index_nat {A} (l : list A) (i : nat) :
  index l (Int (Z.of_nat i)) = l !! i.
Proof.
  unfold index. destruct (Z.ltb_spec (Z.of_nat i) 0); [lia|].
  by rewrite Nat2Z.id.
Qed.

Lemma row_at_nat (g : Grid) i row :
  g !! i = Some row -> row_at g (Int (Z.of_nat i)) = Ok row.
Proof. intros H. unfold row_at. by rewrite index_nat, H. Qed.

Lemma cell_at_nat (g : Grid) i j row :
  g !! i = Some row -> cell_at row (Int (Z.of_nat j)) = cell g i j.
Proof. intros H. unfold cell_at, cell. by rewrite index_nat, H. Qed.

Lemma wfg_lookup m n (g : Grid) i :
  wfg m n g -> i < m -> exists row, g !! i = Some row /\ length row = n.
Proof.
  intros [Hlen Hrows] Hi.
  destruct (lookup_lt_is_Some_2 g i) as [row Hrow]; [lia|].
  exists row. split; [done|].
  by apply (proj1 (Forall_lookup _ _) Hrows i row).
Qed.

Lemma wfg_zeros m n : wfg m n (zeros m n).
Proof.
  split; [apply length_replicate|].
  apply Forall_replicate, length_replicate.
Qed.

Lemma cell_zeros m n i j : i < m -> j < n -> cell (zeros m n) i j = Num 0.
Proof.
  intros Hi Hj. unfold cell, zeros.
  rewrite (lookup_replicate_2 m (replicate n (Num 0)) i Hi).
  by rewrite (lookup_replicate_2 n (Num 0) j Hj).
Qed.

Lemma count_row_app p (l1 l2 : Row) :
  count_row p (l1 ++ l2) = count_row p l1 + count_row p l2.
Proof. induction l1 as [|c l1 IH]; simpl; [done|]. rewrite IH. lia. Qed.

Lemma count_grid_app p (g1 g2 : Grid) :
  count_grid p (g1 ++ g2) = count_grid p g1 + count_grid p g2.
Proof. induction g1 as [|row g1 IH]; simpl; [done|]. rewrite IH. lia. Qed.

Lemma count_row_insert p (row : Row) j v c :
  row !! j = Some c ->
  count_row p (<[j:=v]> row) + (if p c then 1 else 0)
  = count_row p row + (if p v then 1 else 0).
Proof.
  intros Hj.
  rewrite insert_take_drop by (by eapply lookup_lt_Some).
  rewrite <- (take_drop_middle row j c Hj) at 3.
  rewrite !count_row_app. simpl. lia.
Qed.

Lemma count_grid_insert p (g : Grid) i row row' :
  g !! i = Some row ->
  count_grid p (<[i:=row']> g) + count_row p row
  = count_grid p g + count_row p row'.
Proof.
  intros Hi.
  rewrite insert_take_drop by (by eapply lookup_lt_Some).
  rewrite <- (take_drop_middle g i row Hi) at 3.
  rewrite !count_grid_app. simpl. lia.
Qed.

Lemma count_row_total (row : Row) :
  count_row isS row + count_row isI row + count_row isR row = length row.
Proof.
  induction row as [|c row IH]; simpl; [done|].
  assert (Hc : (if isS c then 1 else 0) + (if isI c then 1 else 0)
               + (if isR c then 1 else 0) = 1).
  { unfold isR, isS, isI. destruct c as [z|]; simpl; [|done].
    destruct (Z.eqb_spec z 0), (Z.eqb_spec z 1); simpl; lia. }
  lia.
Qed.

Lemma count_grid_total m n (g : Grid) :
  wfg m n g ->
  count_grid isS g + count_grid isI g + count_grid isR g = m * n.
Proof.
  intros [Hlen Hrows]. subst m.
  induction Hrows as [|row g Hrow _ IH]; simpl; [done|].
  pose proof (count_row_total row). lia.
Qed.

Lemma set_cell_spec m n (g : Grid) i j v :
  wfg m n g -> i < m -> j < n ->
  exists g',
    set_cell g (Z.of_nat i) (Z.of_nat j) v = Ok g' /\
    wfg m n g' /\
    (forall i' j', cell g' i' j'
                   = if decide (i' = i /\ j' = j) then v else cell g i' j') /\
    (forall p, count_grid p g' + (if p (cell g i j) then 1 else 0)
               = count_grid p g + (if p v then 1 else 0)).
Proof.
  intros Hwf Hi Hj.
  destruct (wfg_lookup m n g i Hwf Hi) as (row & Hrow & Hlen).
  destruct (lookup_lt_is_Some_2 row j) as [c Hc]; [lia|].
  exists (<[i := <[j := v]> row]> g).
  assert (Hset : array_set row (Z.of_nat j) v = <[j := v]> row).
  { unfold array_set. destruct (Z.ltb_spec (Z.of_nat j) 0); [lia|].
    rewrite Nat2Z.id. destruct (Nat.ltb_spec j (length row)); [done|lia]. }
  split; [|split; [|split]].
  - unfold set_cell. rewrite (row_at_nat g i row Hrow). simpl.
    by rewrite Nat2Z.id, Hset.
  - destruct Hwf as [Hl Hrows]. split.
    + by rewrite length_insert.
    + apply Forall_insert; [done|]. by rewrite length_insert.
  - intros i' j'. unfold cell.
    destruct (decide (i' = i)) as [->|Hne].
    + rewrite list_lookup_insert_eq by (destruct Hwf; lia).
      rewrite Hrow.
      destruct (decide (j' = j)) as [->|Hne'].
      * rewrite list_lookup_insert_eq by lia.
        destruct (decide _) as [|n0]; [done|]. destruct n0; done.
      * rewrite list_lookup_insert_ne by done.
        destruct (decide _) as [[_ ?]|]; done.
    + rewrite list_lookup_insert_ne by done.
      destruct (decide _) as [[? _]|]; done.
  - intros p.
    pose proof (count_grid_insert p g i row (<[j := v]> row) Hrow) as H1.
    pose proof (count_row_insert p row j v c Hc) as H2.
    unfold cell. rewrite Hrow, Hc. lia.
Qed.

(** ** [countStates] *)

(** Each pass of the inner loop increments exactly one counter. *)
Lemma countStates_sum E (g : Grid) :
  (forall x, x < M -> wp E (row_at g (Int (Z.of_nat x))) (fun _ => True)) ->
  wp E (countStates g) (fun c => sum3 c = M * N).
Proof.
  intros Hrows. unfold countStates.
  apply (for_from_wp E (fun x c => sum3 c = x * N)); [done|].
  intros x c Hx Hc.
  eapply wp_mono;
    [|apply (for_from_wp E (fun y c => sum3 c = x * N + y))].
  - simpl. intros a Ha. lia.
  - lia.
  - intros y [[s i] r] Hy Hsum. simpl in Hsum.
    apply wp_bind. eapply wp_mono; [|apply Hrows; lia].
    intros row _.
    destruct (strict_eq _ (Num 0)); [simpl; lia|].
    destruct (strict_eq _ (Num 1)); simpl; lia.
Qed.

Lemma count_row_take_S p (row : Row) y c :
  row !! y = Some c ->
  count_row p (take (S y) row)
  = count_row p (take y row) + (if p c then 1 else 0).
Proof.
  intros H. rewrite (take_S_r row y c H), count_row_app. simpl. lia.
Qed.

Lemma count_grid_take_S p (g : Grid) x row :
  g !! x = Some row ->
  count_grid p (take (S x) g) = count_grid p (take x g) + count_row p row.
Proof.
  intros H. rewrite (take_S_r g x row H), count_grid_app. simpl. lia.
Qed.

(** On an M by N grid [countStates] returns the three cell counts. *)
Lemma countStates_counts (g : Grid) :
  wfg M N g -> countStates g = Ok (counts g).
Proof.
  intros Hwf.
  assert (H : wp False (countStates g) (fun c => c = counts g)).
  { unfold countStates.
    replace (counts g) with (counts (take (0 + M) g))
      by (simpl; rewrite take_ge; [done|destruct Hwf; lia]).
    apply (for_from_wp False (fun x c => c = counts (take x g))); [done|].
    intros x c Hx ->.
    destruct (wfg_lookup M N g x Hwf) as (row & Hrow & Hlen); [lia|].
    eapply wp_mono;
      [|apply (for_from_wp False (fun y c =>
           c = (count_grid isS (take x g) + count_row isS (take y row),
                count_grid isI (take x g) + count_row isI (take y row),
                count_grid isR (take x g) + count_row isR (take y row))))].
    - simpl. intros a ->. unfold counts.
      rewrite !(count_grid_take_S _ g x row Hrow).
      rewrite (take_ge row N) by lia. done.
    - unfold counts. simpl. by rewrite !Nat.add_0_r.
    - intros y c Hy ->.
      destruct (lookup_lt_is_Some_2 row y) as [v Hv]; [lia|].
      rewrite (row_at_nat g x row Hrow). simpl.
      rewrite (cell_at_nat g x y row Hrow).
      unfold cell. rewrite Hrow, Hv.
      rewrite !(count_row_take_S _ row y v Hv).
      unfold isR, isS, isI.
      destruct (strict_eq v (Num 0)) eqn:H0; simpl.
      + assert (strict_eq v (Num 1) = false) as ->.
        { destruct v as [z|]; simpl in *; [|done].
          apply Z.eqb_eq in H0. subst z. done. }
        simpl. f_equal; [f_equal|]; lia.
      + destruct (strict_eq v (Num 1)); simpl; f_equal; try f_equal; lia. }
  destruct (wp_total _ _ H) as (c & Hc & ->). exact Hc.
Qed.

Lemma counts_sum (g : Grid) : wfg M N g -> sum3 (counts g) = M * N.
Proof. intros Hwf. apply (count_grid_total M N g Hwf). Qed.

(** ** [getNeighbors] *)

(** The census of a neighbourhood: every pass of the inner loop but the one
    at the centre adds one to [total] and at most one to [infected]. *)
Lemma getNeighbors_wp E (grid : Grid) (x y radius : Z) :
  (0 <= radius)%Z ->
  (forall i, (x - radius <= i <= x + radius)%Z ->
     wp E (row_at grid (js_rem (i + Z.of_nat M) (Z.of_nat M)))
          (fun _ => True)) ->
  wp E (getNeighbors grid x y radius)
     (fun c => fst c <= snd c /\
               Z.of_nat (snd c) = ((2 * radius + 1) ^ 2 - 1)%Z).
Proof.
  intros Hr Hrows. unfold getNeighbors, for_Z.
  set (R := Z.to_nat radius).
  replace (Z.to_nat (x + radius - (x - radius) + 1)) with (0 + (2 * R + 1))
    by lia.
  replace (Z.to_nat (y + radius - (y - radius) + 1)) with (0 + (2 * R + 1))
    by lia.
  eapply wp_mono;
    [|apply (for_from_wp E (fun ki c =>
         fst c <= snd c /\
         snd c + (if R <? ki then 1 else 0) = ki * (2 * R + 1)))].
  - intros [inf tot] [Hle Htot]. cbn [fst snd] in *. split; [done|].
    rewrite !Nat.add_0_l in Htot.
    destruct (Nat.ltb_spec R (2 * R + 1)); [|lia].
    assert (Z.of_nat tot + 1 = Z.of_nat ((2 * R + 1) * (2 * R + 1)))%Z
      as Hz by lia.
    rewrite Nat2Z.inj_mul in Hz.
    replace (Z.of_nat (2 * R + 1)) with (2 * radius + 1)%Z in Hz by lia.
    lia.
  - cbn [fst snd]. destruct (Nat.ltb_spec R 0); lia.
  - intros ki [inf0 tot0] Hki [Hle0 Htot0]. cbn [fst snd] in Hle0, Htot0.
    eapply wp_mono;
      [|apply (for_from_wp E (fun kj c =>
           fst c <= snd c /\
           snd c + (if (ki =? R) && (R <? kj) then 1 else 0)
           = tot0 + kj))].
    + intros [inf tot] [Hle Htot]. cbn [fst snd] in *. split; [done|].
      rewrite !Nat.add_0_l in Htot.
      destruct (Nat.ltb_spec R (2 * R + 1)); [|lia].
      destruct (Nat.eqb_spec ki R); cbn [andb] in Htot;
        destruct (Nat.ltb_spec R ki), (Nat.ltb_spec R (S ki)); lia.
    + cbn [fst snd]. destruct (Nat.ltb_spec R 0); [lia|].
      rewrite andb_false_r. lia.
    + intros kj [inf tot] Hkj [Hle Htot]. cbn [fst snd] in Hle, Htot.
      unfold census_cell.
      destruct (Z.eqb_spec (x - radius + Z.of_nat ki) x) as [Hi|Hi];
        destruct (Z.eqb_spec (y - radius + Z.of_nat kj) y) as [Hj|Hj];
        simpl negb; simpl orb; cbv iota.
      * cbn [wp fst snd]. split; [done|].
        destruct (Nat.eqb_spec ki R); [|lia].
        destruct (Nat.ltb_spec R kj); [lia|].
        destruct (Nat.ltb_spec R (S kj)); [|lia].
        cbn [andb] in *. lia.
      * apply wp_bind. eapply wp_mono; [|apply Hrows; lia].
        intros row _.
        assert (Hb : (ki =? R) && (R <? S kj) = (ki =? R) && (R <? kj)).
        { destruct (Nat.eqb_spec ki R); simpl; [|done].
          destruct (Nat.ltb_spec R (S kj)), (Nat.ltb_spec R kj);
            try done; lia. }
        destruct (strict_eq _ _); cbn [wp fst snd]; rewrite Hb; lia.
      * apply wp_bind. eapply wp_mono; [|apply Hrows; lia].
        intros row _.
        assert (Hb : (ki =? R) && (R <? S kj) = false).
        { destruct (Nat.eqb_spec ki R); simpl; [lia|done]. }
        assert (Hb' : (ki =? R) && (R <? kj) = false).
        { destruct (Nat.eqb_spec ki R); simpl; [lia|done]. }
        rewrite Hb' in Htot.
        destruct (strict_eq _ _); cbn [wp fst snd]; rewrite Hb; lia.
      * apply wp_bind. eapply wp_mono; [|apply Hrows; lia].
        intros row _.
        assert (Hb : (ki =? R) && (R <? S kj) = false).
        { destruct (Nat.eqb_spec ki R); simpl; [lia|done]. }
        assert (Hb' : (ki =? R) && (R <? kj) = false).
        { destruct (Nat.eqb_spec ki R); simpl; [lia|done]. }
        rewrite Hb' in Htot.
        destruct (strict_eq _ _); cbn [wp fst snd]; rewrite Hb; lia.
Qed.

(** A wrapped row index is a row of the grid as long as [i + M] is not
    negative. *)
Lemma row_at_wrap (g : Grid) (i : Z) :
  length g = M -> 1 <= M -> (0 <= i + Z.of_nat M)%Z ->
  exists row, row_at g (js_rem (i + Z.of_nat M) (Z.of_nat M)) = Ok row.
Proof.
  intros Hlen HM Hi. unfold js_rem.
  destruct (Z.eqb_spec (Z.of_nat M) 0); [lia|].
  pose proof (Z.rem_bound_pos (i + Z.of_nat M) (Z.of_nat M)) as Hb.
  unfold row_at, index.
  destruct (Z.ltb_spec (Z.rem (i + Z.of_nat M) (Z.of_nat M)) 0); [lia|].
  destruct (lookup_lt_is_Some_2 g
              (Z.to_nat (Z.rem (i + Z.of_nat M) (Z.of_nat M))))
    as [row Hrow]; [lia|].
  rewrite Hrow. eauto.
Qed.

Lemma getNeighbors_total (g : Grid) (x y radius : Z) :
  length g = M -> 1 <= M ->
  (0 <= radius <= x + Z.of_nat M)%Z ->
  exists infected total,
    getNeighbors g x y radius = Ok (infected, total) /\
    infected <= total /\
    Z.of_nat total = ((2 * radius + 1) ^ 2 - 1)%Z.
Proof.
  intros Hlen HM Hr.
  destruct (wp_total _ _ (getNeighbors_wp False g x y radius
                            ltac:(lia)
                            ltac:(intros i Hi;
                                  destruct (row_at_wrap g i Hlen HM ltac:(lia))
                                    as [row ->]; exact I)))
    as ([inf tot] & Heq & Hle & Htot).
  eauto.
Qed.

Lemma getNeighbors_partial (g : Grid) (x y radius : Z) infected total :
  (0 <= radius)%Z ->
  getNeighbors g x y radius = Ok (infected, total) ->
  infected <= total /\ Z.of_nat total = ((2 * radius + 1) ^ 2 - 1)%Z.
Proof.
  intros Hr Heq.
  pose proof (getNeighbors_wp True g x y radius Hr) as H.
  rewrite wp_partial in H.
  apply (H ltac:(intros; by apply wp_partial) (infected, total) Heq).
Qed.

(** Beyond that radius the wrapped row index is negative at one of the first
    two rows of the square, and indexing [undefined] throws. *)
Lemma census_cell_throws (g : Grid) (x y i j : Z) acc :
  i <> x -> (Z.rem (i + Z.of_nat M) (Z.of_nat M) < 0)%Z ->
  census_cell g x y i j acc = Throw TypeError.
Proof.
  intros Hi Hneg. unfold census_cell. destruct acc as [infected total].
  destruct (Z.eqb_spec i x); [done|]. cbn [negb orb].
  unfold js_rem. destruct (Z.eqb_spec (Z.of_nat M) 0) as [H0|H0].
  - by rewrite H0, Z.rem_0_r_ext in Hneg by done; unfold row_at, index.
  - unfold row_at, index.
    by destruct (Z.ltb_spec (Z.rem (i + Z.of_nat M) (Z.of_nat M)) 0); [|lia].
Qed.

Lemma census_row_returns (g : Grid) (x y i lo : Z) n acc :
  (exists row, row_at g (js_rem (i + Z.of_nat M) (Z.of_nat M)) = Ok row) ->
  exists acc',
    for_from n 0 (fun k acc => census_cell g x y i (lo + Z.of_nat k) acc) acc
    = Ok acc'.
Proof.
  intros [row Hrow].
  assert (H : wp False
                (for_from n 0
                   (fun k acc => census_cell g x y i (lo + Z.of_nat k) acc) acc)
                (fun _ => True)).
  { eapply wp_mono; [|apply (for_from_wp False (fun _ _ => True))]; [done|done|].
    intros k [infected total] _ _. unfold census_cell.
    destruct (negb _ || negb _); [|done].
    cbv zeta. rewrite Hrow. cbn [bind]. by destruct (strict_eq _ _). }
  apply wp_total in H as (acc' & Heq & _). eauto.
Qed.

Lemma getNeighbors_throws_beyond (g : Grid) (x y radius : Z) :
  length g = M -> 2 <= M -> (0 <= x)%Z -> (x + Z.of_nat M < radius)%Z ->
  getNeighbors g x y radius = Throw TypeError.
Proof.
  intros Hlen HM Hx Hr. unfold getNeighbors, for_Z.
  set (R := Z.to_nat radius).
  replace (Z.to_nat (x + radius - (x - radius) + 1)) with (S (S (2 * R - 1)))
    by lia.
  replace (Z.to_nat (y + radius - (y - radius) + 1)) with (S (2 * R))
    by lia.
  set (a := (x - radius + Z.of_nat M)%Z).
  assert (Ha : (a < 0)%Z) by lia.
  pose proof (Z.rem_nonpos a (Z.of_nat M) ltac:(lia) ltac:(lia)) as Hnp.
  destruct (Z.eq_dec (Z.rem a (Z.of_nat M)) 0%Z) as [Hz|Hnz].
  - (* the first row of the square wraps onto row 0, the second does not *)
    cbn [for_from].
    replace (x - radius + Z.of_nat 0)%Z with (x - radius)%Z by lia.
    destruct (census_row_returns g x y (x - radius) (y - radius) (S (2 * R))
                (0, 0)) as [acc1 Hacc1].
    { unfold js_rem. destruct (Z.eqb_spec (Z.of_nat M) 0); [lia|].
      fold a. rewrite Hz. unfold row_at, index.
      destruct g as [|row g']; [simpl in Hlen; lia|]. simpl. eauto. }
    cbn [for_from] in Hacc1. rewrite Hacc1. cbn [bind].
    rewrite census_cell_throws; [done|lia|].
    replace (x - radius + Z.of_nat 1 + Z.of_nat M)%Z with (a + 1)%Z by lia.
    apply Z.rem_divide in Hz; [|lia].
    assert (Ha1 : (a + 1 < 0)%Z).
    { destruct Hz as [k Hk].
      assert (k < 0)%Z by nia.
      assert (k * Z.of_nat M <= - Z.of_nat M)%Z by nia. lia. }
    pose proof (Z.rem_nonpos (a + 1) (Z.of_nat M) ltac:(lia) ltac:(lia)) as H1.
    destruct (Z.eq_dec (Z.rem (a + 1) (Z.of_nat M)) 0%Z) as [Hz1|]; [|lia].
    apply Z.rem_divide in Hz1; [|lia].
    pose proof (Z.divide_add_cancel_r _ _ _ Hz Hz1) as Hd.
    apply Z.divide_1_r_nonneg in Hd; lia.
  - cbn [for_from].
    replace (x - radius + Z.of_nat 0)%Z with (x - radius)%Z by lia.
    rewrite census_cell_throws; [done|lia|fold a; lia].
Qed.

(** ** [step] *)

Lemma step_cell_wp E (cur new : Grid) i j p :
  wfg M N cur -> wfg M N new -> i < M -> j < N ->
  wp E (getNeighbors cur (Z.of_nat i) (Z.of_nat j) (Params.r params))
     (fun _ => True) ->
  rwp E (step_cell cur new i j) p (fun new' p' =>
    wfg M N new' /\
    (forall i' j', cell new' i' j'
                   = if decide (i' = i /\ j' = j) then cell new' i j
                     else cell new i' j') /\
    transition (cell cur i j) (cell new' i j) /\
    p' = p + (if draws (cell cur i j) then 1 else 0)).
Proof.
  intros Hcur Hnew Hi Hj Hnb. unfold step_cell.
  destruct (wfg_lookup M N cur i Hcur Hi) as (row & Hrow & Hlen).
  apply rwp_bind, rwp_lift. rewrite (row_at_nat cur i row Hrow).
  cbn [wp]. rewrite (cell_at_nat cur i j row Hrow).
  assert (Hset : forall v q,
    transition (cell cur i j) v ->
    q = p + (if draws (cell cur i j) then 1 else 0) ->
    rwp E (lift (set_cell new (Z.of_nat i) (Z.of_nat j) v)) q
        (fun new' p' =>
           wfg M N new' /\
           (forall i' j', cell new' i' j'
                          = if decide (i' = i /\ j' = j) then cell new' i j
                            else cell new i' j') /\
           transition (cell cur i j) (cell new' i j) /\
           p' = p + (if draws (cell cur i j) then 1 else 0))).
  { intros v q Hv Hq. apply rwp_lift.
    destruct (set_cell_spec M N new i j v Hnew Hi Hj)
      as (new' & -> & Hwf' & Hcell & _).
    cbn [wp].
    assert (Hij : cell new' i j = v).
    { rewrite Hcell. destruct (decide _) as [|n0]; [done|].
      destruct n0; done. }
    rewrite Hij. split; [done|]. split; [|split; [done|done]].
    intros i' j'. rewrite Hcell. by destruct (decide _). }
  unfold transition, draws, is2, isI in *.
  destruct (strict_eq (cell cur i j) (Num 2)) eqn:H2.
  - apply Hset; [done|simpl; lia].
  - destruct (strict_eq (cell cur i j) (Num 1)) eqn:H1.
    + apply rwp_bind, rwp_random.
      apply Hset; [|simpl; lia].
      destruct (Qltb _ _); auto.
    + apply rwp_bind, rwp_lift.
      eapply wp_mono; [|exact Hnb].
      intros [infected total] _.
      apply rwp_bind, rwp_random.
      apply Hset; [|simpl; lia].
      destruct (Qltb _ _); auto.
Qed.

(** One application of [step] to an M by N grid: the new grid is M by N,
    every cell changes as [transition] allows, and [Math.random()] is
    called once for every cell that is not recovered. *)
Lemma step_wp E (cur : Grid) pos :
  wfg M N cur ->
  (forall i j, i < M -> j < N ->
     wp E (getNeighbors cur (Z.of_nat i) (Z.of_nat j) (Params.r params))
        (fun _ => True)) ->
  rwp E (step cur) pos (fun new pos' =>
    wfg M N new /\
    (forall i j, i < M -> j < N ->
                 transition (cell cur i j) (cell new i j)) /\
    pos' = pos + count_grid draws cur).
Proof.
  intros Hcur Hnb. unfold step.
  eapply rwp_mono;
    [|apply (for_rand_wp E (fun i new p =>
         wfg M N new /\
         (forall i' j', i' < i -> j' < N ->
                        transition (cell cur i' j') (cell new i' j')) /\
         p = pos + count_grid draws (take i cur)))].
  - intros new p (Hwf & Htr & ->). cbn [Nat.add] in *.
    rewrite take_ge by (destruct Hcur; lia). auto.
  - split; [apply wfg_zeros|]. split; [intros; lia|]. simpl. lia.
  - intros i new p Hi (Hnew & Htr & ->).
    destruct (wfg_lookup M N cur i Hcur) as (row & Hrow & Hlen); [lia|].
    eapply rwp_mono;
      [|apply (for_rand_wp E (fun j new' p' =>
           wfg M N new' /\
           (forall i' j', i' < i -> j' < N ->
                          transition (cell cur i' j') (cell new' i' j')) /\
           (forall j', j' < j ->
                       transition (cell cur i j') (cell new' i j')) /\
           p' = pos + count_grid draws (take i cur)
                + count_row draws (take j row)))].
    + intros new' p' (Hwf' & Htr' & Hrow' & ->). cbn [Nat.add] in *.
      split; [done|]. split.
      * intros i' j' Hi' Hj'.
        destruct (decide (i' = i)) as [->|]; [by apply Hrow'|].
        apply Htr'; lia.
      * rewrite (count_grid_take_S _ cur i row Hrow).
        rewrite (take_ge row N) by lia. lia.
    + split; [done|]. split; [done|]. split; [intros; lia|]. simpl. lia.
    + intros j new' p' Hj (Hwf' & Htr' & Hrow' & ->).
      eapply rwp_mono;
        [|apply (step_cell_wp E cur new' i j); try done; try lia;
          apply Hnb; lia].
      intros new'' p'' (Hwf'' & Hcell & Hij & ->).
      split; [done|]. split; [|split].
      * intros i' j' Hi' Hj'. rewrite Hcell.
        destruct (decide _) as [[? _]|]; [lia|]. by apply Htr'.
      * intros j' Hj'. destruct (decide (j' = j)) as [->|]; [done|].
        rewrite Hcell. destruct (decide _) as [[_ ?]|]; [lia|].
        apply Hrow'. lia.
      * destruct (lookup_lt_is_Some_2 row j) as [c Hc]; [lia|].
        rewrite (count_row_take_S _ row j c Hc).
        unfold cell. rewrite Hrow, Hc. lia.
Qed.

Lemma count_row_le p q (row row' : Row) :
  length row = length row' ->
  (forall j c c', row !! j = Some c -> row' !! j = Some c' ->
                  p c = true -> q c' = true) ->
  count_row p row <= count_row q row'.
Proof.
  revert row'. induction row as [|c row IH]; intros [|c' row'] Hlen H;
    simpl in *; try lia.
  assert (count_row p row <= count_row q row') as Hle.
  { apply IH; [lia|]. intros j d d' Hd Hd'. apply (H (S j)); done. }
  specialize (H 0 c c' eq_refl eq_refl).
  destruct (p c); [rewrite H by done|destruct (q c')]; lia.
Qed.

Lemma count_grid_le p q m n (g g' : Grid) :
  wfg m n g -> wfg m n g' ->
  (forall i j, i < m -> j < n ->
               p (cell g i j) = true -> q (cell g' i j) = true) ->
  count_grid p g <= count_grid q g'.
Proof.
  revert m g'. induction g as [|row g IH]; intros m [|row' g'] [Hl Hr] [Hl' Hr'] H;
    simpl in *; try lia.
  apply Forall_cons in Hr as [Hrow Hr]. apply Forall_cons in Hr' as [Hrow' Hr'].
  assert (count_grid p g <= count_grid q g') as Hle.
  { apply (IH (length g)); [by split|split; [lia|done]|].
    intros i j Hi Hj. apply (H (S i) j); lia. }
  assert (count_row p row <= count_row q row') as Hle'.
  { apply count_row_le; [lia|]. intros j c c' Hc Hc'.
    assert (j < n) as Hj by (apply lookup_lt_Some in Hc; lia).
    specialize (H 0 j ltac:(lia) Hj). unfold cell in H. simpl in H.
    rewrite Hc, Hc' in H. exact H. }
  lia.
Qed.

Lemma valid_grid_cell m n (g : Grid) i j :
  valid_grid m n g -> i < m -> j < n -> valid_cell (cell g i j).
Proof.
  intros [Hwf Hval] Hi Hj.
  destruct (wfg_lookup m n g i Hwf Hi) as (row & Hrow & Hlen).
  destruct (lookup_lt_is_Some_2 row j) as [c Hc]; [lia|].
  unfold cell. rewrite Hrow, Hc.
  apply (proj1 (Forall_lookup _ _)
           (proj1 (Forall_lookup _ _) Hval i row Hrow) j c Hc).
Qed.

Lemma valid_grid_intro m n (g : Grid) :
  wfg m n g ->
  (forall i j, i < m -> j < n -> valid_cell (cell g i j)) ->
  valid_grid m n g.
Proof.
  intros Hwf H. split; [done|].
  apply Forall_lookup. intros i row Hrow.
  apply Forall_lookup. intros j c Hc.
  assert (i < m) as Hi by (apply lookup_lt_Some in Hrow; destruct Hwf; lia).
  destruct (wfg_lookup m n g i Hwf Hi) as (row' & Hrow' & Hlen).
  assert (j < n) as Hj by (apply lookup_lt_Some in Hc; congruence).
  specialize (H i j Hi Hj). unfold cell in H. by rewrite Hrow, Hc in H.
Qed.

Lemma transition_valid c c' : transition c c' -> valid_cell c'.
Proof.
  unfold transition, valid_cell.
  destruct (is2 c); [auto|]. destruct (isI c); intros [->| ->]; auto.
Qed.

Lemma count_draws_valid (g : Grid) :
  Forall (Forall valid_cell) g ->
  count_grid draws g = count_grid isS g + count_grid isI g.
Proof.
  induction 1 as [|row g Hrow _ IH]; simpl; [done|].
  rewrite IH.
  assert (count_row draws row = count_row isS row + count_row isI row).
  { clear -Hrow. induction Hrow as [|c row Hc _ IH']; simpl; [done|].
    rewrite IH'. destruct Hc as [->|[->| ->]]; simpl; lia. }
  lia.
Qed.

(** What one step does to the three counts of a grid of valid cells. *)
Lemma transition_counts (cur new : Grid) :
  valid_grid M N cur -> wfg M N new ->
  (forall i j, i < M -> j < N ->
               transition (cell cur i j) (cell new i j)) ->
  valid_grid M N new /\
  count_grid isR cur <= count_grid isR new /\
  count_grid isS new <= count_grid isS cur.
Proof.
  intros Hcur Hnew Htr. split; [|split].
  - apply valid_grid_intro; [done|].
    intros i j Hi Hj. eapply transition_valid, Htr; done.
  - apply (count_grid_le isR isR M N); [by destruct Hcur|done|].
    intros i j Hi Hj. specialize (Htr i j Hi Hj).
    pose proof (valid_grid_cell M N cur i j Hcur Hi Hj) as Hv.
    unfold transition in Htr.
    destruct Hv as [Hv|[Hv|Hv]]; rewrite Hv in *; simpl in *; try done.
    intros _. by rewrite Htr.
  - apply (count_grid_le isS isS M N); [done|by destruct Hcur|].
    intros i j Hi Hj. specialize (Htr i j Hi Hj).
    pose proof (valid_grid_cell M N cur i j Hcur Hi Hj) as Hv.
    unfold transition in Htr.
    destruct Hv as [Hv|[Hv|Hv]]; rewrite Hv in *; simpl in *; try done.
    + destruct Htr as [-> | ->]; done.
    + by rewrite Htr.
Qed.

(** With a radius between 0 and M the census of every cell returns. *)
Lemma census_returns (cur : Grid) :
  length cur = M -> (0 <= Params.r params <= Z.of_nat M)%Z ->
  forall i j, i < M -> j < N ->
    wp False (getNeighbors cur (Z.of_nat i) (Z.of_nat j) (Params.r params))
       (fun _ => True).
Proof.
  intros Hlen Hr i j Hi Hj.
  destruct (getNeighbors_total cur (Z.of_nat i) (Z.of_nat j)
              (Params.r params) Hlen ltac:(lia) ltac:(lia))
    as (inf & tot & -> & _). exact I.
Qed.

(** ** [runOnceNoAnimate] *)

Lemma clone_id (g : Grid) : clone g = g.
Proof. unfold clone. induction g as [|row g IH]; simpl; congruence. Qed.

Lemma runOnceNoAnimate_wp E (init : Grid) pos :
  wfg M N init ->
  (forall g i j, wfg M N g -> i < M -> j < N ->
     wp E (getNeighbors g (Z.of_nat i) (Z.of_nat j) (Params.r params))
        (fun _ => True)) ->
  rwp E (runOnceNoAnimate (Some init)) pos (fun hist _ =>
    length hist = S T /\ history_ok init hist).
Proof.
  intros Hinit Hnb. unfold runOnceNoAnimate.
  apply rwp_bind. rewrite clone_id.
  eapply rwp_mono;
    [|apply (for_rand_wp E (fun t st _ =>
         wfg M N (fst st) /\
         length (snd st) = t /\
         (t = 0 -> fst st = init) /\
         history_ok init (snd st) /\
         (Forall (Forall valid_cell) init ->
          valid_grid M N (fst st) /\
          forall k x, snd st !! k = Some x ->
            StepRecord.r x <= count_grid isR (fst st) /\
            count_grid isS (fst st) <= StepRecord.s x)))].
  - intros [g hist] p (_ & Hlen & _ & Hok & _). cbn [fst snd] in *.
    apply rwp_lift. cbn [wp snd]. split; [lia|done].
  - cbn [fst snd]. split; [done|]. split; [done|]. split; [done|].
    split.
    + split; [intros k x Hk; by rewrite lookup_nil in Hk|].
      split; [simpl; lia|].
      intros _ k k' a b _ Hk. by rewrite lookup_nil in Hk.
    + intros Hval. split; [by split|].
      intros k x Hk. by rewrite lookup_nil in Hk.
  - intros t [g hist] p Ht (Hwf & Hlen & Hfirst & (Hrec & H0 & Hmono) & Hval).
    cbn [fst snd] in *.
    apply rwp_bind, rwp_lift. rewrite (countStates_counts g Hwf). cbn [wp].
    pose proof (counts_sum g Hwf) as Hsum. unfold counts in *.
    cbn [sum3] in Hsum.
    set (x := StepRecord.mk t (count_grid isS g) (count_grid isI g)
                            (count_grid isR g)).
    assert (Hok' : history_ok init (hist ++ [x])).
    { split; [|split].
      - intros k y Hy. apply lookup_app_Some in Hy as [Hy|[Hk Hy]].
        + by apply Hrec.
        + apply list_lookup_singleton_Some in Hy as [Hk' <-].
          simpl. split; [lia|done].
      - intros _. destruct hist as [|y hist].
        + simpl in Hlen. subst t. unfold x. rewrite (Hfirst eq_refl). done.
        + simpl. apply H0. simpl. lia.
      - intros Hv k k' a b Hkk Ha Hb.
        destruct (Hval Hv) as [Hvg Hbound].
        apply lookup_app_Some in Hb as [Hb|[Hk' Hb]].
        + assert (hist !! k = Some a) as Ha'.
          { apply lookup_lt_Some in Hb.
            rewrite lookup_app_l in Ha by lia. done. }
          by apply (Hmono Hv k k' a b).
        + apply list_lookup_singleton_Some in Hb as [_ <-]. simpl.
          apply lookup_app_Some in Ha as [Ha|[Hk Ha]].
          * by apply (Hbound k a).
          * apply list_lookup_singleton_Some in Ha as [_ <-]. simpl. lia. }
    assert (Hlen' : length (hist ++ [x]) = S t)
      by (rewrite length_app; simpl; lia).
    destruct (Nat.ltb_spec t T) as [HtT|HtT].
    + apply rwp_bind.
      eapply rwp_mono; [|apply (step_wp E g p Hwf); intros; by apply Hnb].
      intros g' p' (Hwf' & Htr & _). apply rwp_lift. cbn [wp fst snd].
      split; [done|]. split; [done|]. split; [lia|]. split; [done|].
      intros Hv. destruct (Hval Hv) as [Hvg Hbound].
      destruct (transition_counts g g' Hvg Hwf' Htr) as (Hvg' & HR & HS).
      split; [done|].
      intros k y Hy. apply lookup_app_Some in Hy as [Hy|[Hk Hy]].
      * specialize (Hbound k y Hy). lia.
      * apply list_lookup_singleton_Some in Hy as [_ <-]. simpl. lia.
    + apply rwp_lift. cbn [wp fst snd].
      split; [done|]. split; [done|]. split; [lia|]. split; [done|].
      intros Hv. destruct (Hval Hv) as [Hvg Hbound].
      split; [done|].
      intros k y Hy. apply lookup_app_Some in Hy as [Hy|[Hk Hy]].
      * by apply (Hbound k y).
      * apply list_lookup_singleton_Some in Hy as [_ <-]. simpl. lia.
Qed.

(** ** [makeInitialGrid] *)

Lemma floor_scaled_range (u : Q) (n : nat) :
  (0 <= u)%Q -> (u < 1)%Q -> 1 <= n ->
  (0 <= floor_scaled u n < Z.of_nat n)%Z.
Proof.
  intros H0 H1 Hn. unfold floor_scaled.
  assert (Hn' : (0 < inject_Z (Z.of_nat n))%Q).
  { rewrite <- (Zlt_Qlt 0). lia. }
  split.
  - change 0%Z with (Qfloor 0). apply Qfloor_resp_le.
    apply Qmult_le_0_compat; [done|]. by apply Qlt_le_weak.
  - rewrite Zlt_Qlt.
    eapply Qle_lt_trans; [apply Qfloor_le|].
    rewrite <- (Qmult_1_l (inject_Z (Z.of_nat n))) at 2.
    by apply Qmult_lt_compat_r.
Qed.

Lemma cells_drawn_S rng k :
  cells_drawn rng (S k) = {[ drawn_cell rng k ]} ∪ cells_drawn rng k.
Proof.
  unfold cells_drawn. rewrite seq_S, map_app, list_to_set_app_L. simpl.
  rewrite union_empty_r_L. apply union_comm_L.
Qed.

Lemma place_unfold fuel rng pos (g : Grid) used placed :
  place fuel rng pos g used placed =
  if placed <? I0 then
    match fuel with
    | 0 => OutOfFuel
    | S fuel' =>
        let x := floor_scaled (rng pos) M in
        let y := floor_scaled (rng (S pos)) N in
        if decide ((x, y) ∈ used) then
          place fuel' rng (S (S pos)) g used placed
        else
          g' <- set_cell g x y (Num 1) ;;
          place fuel' rng (S (S pos)) g' ({[ (x, y) ]} ∪ used) (S placed)
    end
  else Ok g.
Proof. destruct fuel; reflexivity. Qed.

Lemma count_grid_zeros p m n :
  p (Num 0) = false -> count_grid p (zeros m n) = 0.
Proof.
  intros Hp. unfold zeros.
  assert (count_row p (replicate n (Num 0)) = 0) as Hrow.
  { induction n as [|n IH]; simpl; [done|]. by rewrite Hp, IH. }
  induction m as [|m IH]; simpl; [done|]. by rewrite Hrow, IH.
Qed.

Lemma place_spec rng :
  1 <= M -> 1 <= N -> unit_range rng ->
  forall fuel k (g : Grid) used placed,
    placing rng k g used placed ->
    match place fuel rng (2 * k) g used placed with
    | Ok g' => wfg M N g' /\ count_grid isI g' = I0 /\ count_grid isR g' = 0
    | Throw _ => False
    | OutOfFuel => size (cells_drawn rng (k + fuel)) < I0
    end.
Proof.
  intros HM HN Hrng fuel.
  induction fuel as [|fuel IH];
    intros k g used placed (Hwf & Hzero & Hused & Hplaced & HI & HR & Hle);
    rewrite place_unfold.
  - destruct (Nat.ltb_spec placed I0) as [Hlt|Hge].
    + rewrite Nat.add_0_r, <- Hused. lia.
    + split; [done|]. split; [lia|done].
  - destruct (Nat.ltb_spec placed I0) as [Hlt|Hge];
      [|split; [done|]; split; [lia|done]].
    cbv zeta. fold (drawn_cell rng k).
    replace (k + S fuel) with (S k + fuel) by lia.
    replace (S (S (2 * k))) with (2 * S k) by lia.
    destruct (decide (drawn_cell rng k ∈ used)) as [Hin|Hnotin].
    + apply IH. split; [done|]. split; [done|].
      split; [|done]. rewrite cells_drawn_S, <- Hused.
      symmetry. apply subseteq_union_1_L, singleton_subseteq_l. done.
    + destruct (floor_scaled_range (rng (2 * k)) M) as [Hx0 Hx1];
        [apply Hrng|apply Hrng|done|].
      destruct (floor_scaled_range (rng (S (2 * k))) N) as [Hy0 Hy1];
        [apply Hrng|apply Hrng|done|].
      set (i := Z.to_nat (floor_scaled (rng (2 * k)) M)).
      set (j := Z.to_nat (floor_scaled (rng (S (2 * k))) N)).
      assert (Hci : floor_scaled (rng (2 * k)) M = Z.of_nat i)
        by (unfold i; lia).
      assert (Hcj : floor_scaled (rng (S (2 * k))) N = Z.of_nat j)
        by (unfold j; lia).
      assert (Hc : drawn_cell rng k = (Z.of_nat i, Z.of_nat j)).
      { unfold drawn_cell. by rewrite Hci, Hcj. }
      destruct (set_cell_spec M N g i j (Num 1) Hwf)
        as (g' & Hset & Hwf' & Hcell & Hcount); [lia|lia|].
      rewrite Hc in Hnotin |- *.
      rewrite Hci, Hcj, Hset. cbn [bind].
      assert (Hij : cell g i j = Num 0) by (apply Hzero; [lia|lia|done]).
      pose proof (Hcount isI) as HcI. pose proof (Hcount isR) as HcR.
      rewrite Hij in HcI, HcR. simpl in HcI, HcR.
      apply IH. split; [done|]. split; [|split; [|split; [|split]]].
      * intros i' j' Hi' Hj' Hnot. rewrite Hcell.
        apply not_elem_of_union in Hnot as [Hn1 Hn2].
        destruct (decide _) as [[-> ->]|].
        -- destruct Hn1. by apply elem_of_singleton.
        -- by apply Hzero.
      * rewrite cells_drawn_S, Hc, Hused. done.
      * rewrite size_union by (by apply disjoint_singleton_l).
        rewrite size_singleton. lia.
      * lia.
      * split; lia.
Qed.

(** More fuel does not change a result. *)
Lemma place_fuel_mono rng d :
  forall fuel pos (g : Grid) used placed g',
    place fuel rng pos g used placed = Ok g' ->
    place (fuel + d) rng pos g used placed = Ok g'.
Proof.
  induction fuel as [|fuel IH]; intros pos g used placed g' H.
  - rewrite (place_unfold 0) in H. rewrite place_unfold.
    by destruct (placed <? I0).
  - rewrite (place_unfold (S fuel)) in H.
    rewrite (place_unfold (S fuel + d)).
    destruct (placed <? I0); [|done].
    simpl Nat.add. cbv zeta in *.
    destruct (decide _); [by apply IH|].
    destruct (set_cell _ _ _ _); simpl in *; [by apply IH|done|done].
Qed.

(** ** [exportNexpJSON] *)

Lemma added_0 vs acc : added 0 vs acc acc.
Proof. split; [done|]. intros k. destruct (decide _); [lia|done]. Qed.

Lemma added_S t vs acc acc' v :
  added t vs acc acc' -> vs !! t = Some v ->
  added (S t) vs acc (add_at acc' t v).
Proof.
  intros [Hlen H] Hv. unfold add_at. split; [by rewrite length_alter|].
  intros k. rewrite list_lookup_alter.
  destruct (decide (t = k)) as [<-|Hne].
  - rewrite H. destruct (decide (t < t)); [lia|].
    destruct (decide (t < S t)); [|lia].
    by rewrite (nth_lookup_Some vs t 0 v Hv).
  - rewrite H. destruct (decide (k < t)), (decide (k < S t)); try done; lia.
Qed.

Lemma accumulate_spec (hist : list StepRecord.record) (accS accI accR : list nat) :
  length hist = S T ->
  exists accS' accI' accR',
    accumulate hist (accS, accI, accR) = Ok (accS', accI', accR') /\
    added (S T) (map StepRecord.s hist) accS accS' /\
    added (S T) (map StepRecord.i hist) accI accI' /\
    added (S T) (map StepRecord.r hist) accR accR'.
Proof.
  intros Hlen.
  assert (H : wp False (accumulate hist (accS, accI, accR)) (fun acc' =>
    added (0 + S T) (map StepRecord.s hist) accS (fst (fst acc')) /\
    added (0 + S T) (map StepRecord.i hist) accI (snd (fst acc')) /\
    added (0 + S T) (map StepRecord.r hist) accR (snd acc'))).
  { unfold accumulate.
    apply (for_from_wp False (fun t acc' =>
      added t (map StepRecord.s hist) accS (fst (fst acc')) /\
      added t (map StepRecord.i hist) accI (snd (fst acc')) /\
      added t (map StepRecord.r hist) accR (snd acc'))).
    - cbn [fst snd]. split; [|split]; apply added_0.
    - intros t [[aS aI] aR] Ht (HS & HI & HR). cbn [fst snd] in *.
      destruct (lookup_lt_is_Some_2 hist t) as [x Hx]; [lia|].
      unfold record_at. rewrite Hx. cbn [bind wp fst snd].
      split; [|split]; (eapply added_S; [done|]);
        by rewrite list_lookup_fmap, Hx. }
  destruct (wp_total _ _ H) as ([[aS aI] aR] & Heq & HS & HI & HR).
  exists aS, aI, aR. cbn [fst snd Nat.add] in *. done.
Qed.

Lemma accumulated_nil f : accumulated f [] (replicate (S T) 0).
Proof.
  split; [apply length_replicate|].
  intros t Ht. apply lookup_replicate_2. lia.
Qed.

Lemma accumulated_snoc f runs acc acc' run :
  accumulated f runs acc -> added (S T) (f run) acc acc' ->
  accumulated f (runs ++ [run]) acc'.
Proof.
  intros [Hlen H] [Hlen' H']. split; [lia|].
  intros t Ht. rewrite H'. destruct (decide (t < S T)); [|lia].
  rewrite (H t Ht). simpl. unfold total_at.
  rewrite sum_list_with_app. simpl. f_equal. lia.
Qed.

Lemma exportNexpJSON_wp E fuel app pos :
  wp E (initial_grid fuel app) (wfg M N) ->
  census_ok E ->
  rwp E (exportNexpJSON fuel app) pos (fun out _ =>
    exists init,
      initial_grid fuel app = Ok init /\
      App.initGridRef (fst out) = Some init /\
      length (Payload.runs (snd out)) = Nexp /\
      runs_ok init (Payload.runs (snd out)) /\
      mean_ok (snd out)).
Proof.
  intros Hinit Hnb. unfold exportNexpJSON.
  apply rwp_bind, rwp_lift. fold (initial_grid fuel app).
  destruct (initial_grid fuel app) as [init| |]; cbn [wp] in *; try done.
  apply rwp_bind. cbn [App.initGridRef].
  eapply rwp_mono;
    [|apply (for_rand_wp E (fun k st _ =>
         length (fst st) = k /\
         runs_ok init (fst st) /\
         accumulated RunResult.s (fst st) (fst (fst (snd st))) /\
         accumulated RunResult.i (fst st) (snd (fst (snd st))) /\
         accumulated RunResult.r (fst st) (snd (snd st))))].
  - intros [runs [[aS aI] aR]] p (Hlen & Hruns & (HlS & HS) & (HlI & HI) & (HlR & HR)).
    cbn [fst snd] in *. apply rwp_lift. cbn [wp fst snd].
    exists init. split; [done|]. split; [done|]. split; [exact Hlen|].
    split; [done|]. split; [done|].
    intros t Ht. cbn [Payload.mean Payload.runs Mean.s Mean.i Mean.r].
    rewrite !list_lookup_fmap, (HS t Ht), (HI t Ht), (HR t Ht). done.
  - cbn [fst snd]. split; [done|]. split.
    + intros k run Hk. by rewrite lookup_nil in Hk.
    + split; [|split]; apply accumulated_nil.
  - intros k [runs [[aS aI] aR]] p Hk (Hlen & Hruns & HS & HI & HR).
    cbn [fst snd] in *.
    apply rwp_bind.
    eapply rwp_mono; [|apply (runOnceNoAnimate_wp E init p Hinit Hnb)].
    intros hist p' [Hlh Hok].
    destruct (accumulate_spec hist aS aI aR Hlh)
      as (aS' & aI' & aR' & Hacc & HaS & HaI & HaR).
    apply rwp_bind, rwp_lift. rewrite Hacc. cbn [wp].
    apply rwp_lift. cbn [wp fst snd].
    split; [rewrite length_app; simpl; lia|]. split.
    + intros j run Hj. apply lookup_app_Some in Hj as [Hj|[Hj1 Hj2]].
      * by apply Hruns.
      * apply list_lookup_singleton_Some in Hj2 as [Hj2 <-].
        exists hist. split; [|done]. unfold run_of. f_equal. lia.
    + split; [|split]; eapply accumulated_snoc; done.
Qed.

(** ** The visible run *)

Lemma wp_True {A} (m : result A) : wp True m (fun _ => True).
Proof. by destruct m. Qed.

Lemma step_wfg (g : Grid) pos g' pos' :
  wfg M N g -> step g pos = Ok (g', pos') ->
  wfg M N g' /\
  (forall i j, i < M -> j < N -> transition (cell g i j) (cell g' i j)) /\
  pos' = pos + count_grid draws g.
Proof.
  intros Hwf Hs.
  pose proof (step_wp True g pos Hwf ltac:(intros; apply wp_True)) as H.
  unfold rwp in H. rewrite Hs in H. exact H.
Qed.

Lemma tick_spec app (g : Grid) pos app1 p1 :
  App.grid app = Some g -> wfg M N g ->
  tick app pos = Ok (app1, p1) ->
  if App.isRunning app && (App.time app <? T) then
    exists g1,
      step g pos = Ok (g1, p1) /\ wfg M N g1 /\
      app1 = App.mk true (Some g1)
               (App.history app ++
                  [record_of (App.time app) (counts g1)])
               (S (App.time app)) (App.animationRef app ++ [g1])
               (App.initGridRef app)
  else
    app1 = App.mk false (App.grid app) (App.history app) (App.time app)
             (App.animationRef app) (App.initGridRef app) /\
    p1 = pos.
Proof.
  intros Hg Hwf. unfold tick. rewrite Hg.
  destruct (App.isRunning app); simpl andb.
  - destruct (Nat.leb_spec T (App.time app)) as [Hle|Hlt];
      destruct (Nat.ltb_spec (App.time app) T); try lia.
    + unfold lift. simpl. by intros [= <- <-].
    + unfold rbind at 1.
      destruct (step g pos) as [[g1 q]| |] eqn:Hs; try done.
      destruct (step_wfg g pos g1 q Hwf Hs) as (Hwf1 & _).
      unfold rbind, lift. rewrite (countStates_counts g1 Hwf1). simpl.
      intros [= <- <-]. exists g1. done.
  - unfold lift. simpl. by intros [= <- <-].
Qed.

Lemma fire_spec firings :
  forall app (g : Grid) pos app' pos',
    App.grid app = Some g -> wfg M N g -> App.time app <= T ->
    fire firings app pos = Ok (app', pos') ->
    (exists g', App.grid app' = Some g' /\ wfg M N g') /\
    App.time app'
    = (if App.isRunning app then Nat.min (App.time app + firings) T
       else App.time app) /\
    exists suffix,
      App.history app' = App.history app ++ suffix /\
      length suffix = App.time app' - App.time app /\
      (forall k x, suffix !! k = Some x ->
         StepRecord.t x = App.time app + k /\
         StepRecord.s x + StepRecord.i x + StepRecord.r x = M * N) /\
      forall x, suffix !! 0 = Some x ->
        exists g1 p1, step g pos = Ok (g1, p1) /\
                      x = record_of (App.time app) (counts g1).
Proof.
  induction firings as [|k IH]; intros app g pos app' pos' Hg Hwf Ht.
  - simpl. unfold lift. simpl. intros [= <- <-].
    split; [eauto|]. split; [destruct (App.isRunning app); lia|].
    exists []. rewrite app_nil_r. split; [done|]. split; [simpl; lia|].
    split; intros; by rewrite lookup_nil in *.
  - simpl. unfold rbind at 1.
    destruct (tick app pos) as [[app1 p1]| |] eqn:Htick; try done.
    intros Hfire.
    pose proof (tick_spec app g pos app1 p1 Hg Hwf Htick) as H1.
    destruct (App.isRunning app) eqn:Hrun; simpl andb in H1;
      [destruct (Nat.ltb_spec (App.time app) T) as [Hlt|Hge]|].
    + destruct H1 as (g1 & Hs & Hwf1 & ->).
      apply (IH _ g1) in Hfire
        as (Hg' & Htime & suffix & Hh & Hlen & Hrec & _);
        [|reflexivity|done|simpl; lia].
      cbn [App.isRunning App.time App.history] in *.
      split; [done|]. split; [lia|].
      exists (record_of (App.time app) (counts g1) :: suffix).
      split; [by rewrite Hh, <- app_assoc|]. split; [simpl; lia|].
      split; [|intros x [= <-]; eauto].
      intros [|j] x Hx.
      * injection Hx as <-. pose proof (counts_sum g1 Hwf1) as Hsum.
        unfold counts in *. cbn [record_of sum3] in *. simpl. lia.
      * destruct (Hrec j x Hx) as [Hj Hsum]. split; [lia|done].
    + destruct H1 as [-> ->].
      apply (IH _ g) in Hfire
        as (Hg' & Htime & suffix & Hh & Hlen & Hrec & _);
        [|done|done|done].
      cbn [App.isRunning App.time App.history] in *.
      split; [done|]. split; [lia|].
      exists suffix. split; [done|]. split; [done|]. split; [done|].
      intros x Hx. destruct suffix; [by rewrite lookup_nil in Hx|].
      simpl in Hlen. lia.
    + destruct H1 as [-> ->].
      apply (IH _ g) in Hfire
        as (Hg' & Htime & suffix & Hh & Hlen & Hrec & _);
        [|done|done|done].
      cbn [App.isRunning App.time App.history] in *.
      split; [done|]. split; [lia|].
      exists suffix. split; [done|]. split; [done|]. split; [done|].
      intros x Hx. destruct suffix; [by rewrite lookup_nil in Hx|].
      simpl in Hlen. lia.
Qed.

(** ** Consequences used by several statements *)

Lemma census_ok_True : census_ok True.
Proof. intros g i j _ _ _. apply wp_True. Qed.

Lemma census_ok_radius :
  (0 <= Params.r params <= Z.of_nat M)%Z -> census_ok False.
Proof.
  intros Hr g i j [Hlen _] Hi Hj. by apply census_returns.
Qed.

Lemma step_returns (g : Grid) pos :
  wfg M N g -> (0 <= Params.r params <= Z.of_nat M)%Z ->
  exists g' pos', step g pos = Ok (g', pos').
Proof.
  intros Hwf Hr.
  pose proof (step_wp False g pos Hwf
                ltac:(intros; by apply census_ok_radius)) as H.
  apply wp_total in H as ([g' pos'] & Heq & _). eauto.
Qed.

Lemma runOnceNoAnimate_returns (init : Grid) pos :
  wfg M N init -> (0 <= Params.r params <= Z.of_nat M)%Z ->
  exists hist pos', runOnceNoAnimate (Some init) pos = Ok (hist, pos').
Proof.
  intros Hwf Hr.
  pose proof (runOnceNoAnimate_wp False init pos Hwf
                (census_ok_radius Hr)) as H.
  apply wp_total in H as ([hist pos'] & Heq & _). eauto.
Qed.

Lemma runOnceNoAnimate_history (init : Grid) pos hist pos' :
  wfg M N init ->
  runOnceNoAnimate (Some init) pos = Ok (hist, pos') ->
  length hist = S T /\ history_ok init hist.
Proof.
  intros Hwf Heq.
  pose proof (runOnceNoAnimate_wp True init pos Hwf census_ok_True) as H.
  unfold rwp in H. rewrite Heq in H. exact H.
Qed.

Lemma makeInitialGrid_spec fuel :
  1 <= M -> 1 <= N -> unit_range (seedrandom initSeed) ->
  match makeInitialGrid fuel with
  | Ok g => wfg M N g /\ count_grid isI g = I0 /\ count_grid isR g = 0
  | Throw _ => False
  | OutOfFuel => size (cells_drawn (seedrandom initSeed) fuel) < I0
  end.
Proof.
  intros HM HN Hrng. unfold makeInitialGrid.
  apply (place_spec (seedrandom initSeed) HM HN Hrng fuel 0).
  split; [apply wfg_zeros|].
  split; [intros i j Hi Hj _; by apply cell_zeros|].
  split; [done|]. split; [done|].
  split; [by apply count_grid_zeros|].
  split; [by apply count_grid_zeros|lia].
Qed.

Lemma counts_of_initial (g : Grid) :
  wfg M N g -> count_grid isI g = I0 -> count_grid isR g = 0 ->
  countStates g = Ok (M * N - I0, I0, 0) /\ I0 <= M * N.
Proof.
  intros Hwf HI HR. rewrite (countStates_counts g Hwf).
  pose proof (count_grid_total M N g Hwf) as Htot.
  unfold counts. rewrite HI, HR. split; [|lia].
  do 3 f_equal. lia.
Qed.

(** The seeded initializer places exactly I0 infected cells once the
    generator has produced I0 different cells. *)
Lemma makeInitialGrid_exact fuel :
  1 <= M -> 1 <= N -> unit_range (seedrandom initSeed) ->
  I0 <= size (cells_drawn (seedrandom initSeed) fuel) ->
  exists g, makeInitialGrid fuel = Ok g /\ wfg M N g /\
            countStates g = Ok (M * N - I0, I0, 0).
Proof.
  intros HM HN Hrng Hcov.
  pose proof (makeInitialGrid_spec fuel HM HN Hrng) as H.
  destruct (makeInitialGrid fuel) as [g| |]; [|done|lia].
  destruct H as (Hwf & HI & HR). exists g. split; [done|]. split; [done|].
  by apply counts_of_initial.
Qed.

Lemma makeInitialGrid_fuel fuel fuel' (g g' : Grid) :
  makeInitialGrid fuel = Ok g -> makeInitialGrid fuel' = Ok g' -> g = g'.
Proof.
  unfold makeInitialGrid. intros H H'.
  apply (place_fuel_mono _ fuel') in H.
  apply (place_fuel_mono _ fuel) in H'.
  rewrite (Nat.add_comm fuel' fuel) in H'. congruence.
Qed.


(** ** The properties of the specification *)

(** C1 (conservation).  [step] maps an M by N grid to an M by N grid,
    [countStates] puts every cell in exactly one of its three counters, so
    every record of a headless run and of a visible run started from an
    M by N grid satisfies s + i + r = M * N, whatever the draws; the headless
    run returns its T + 1 records whenever the radius lies between 0
    and M. *)
Theorem conservation (init : Grid) (pos : nat) :
  wfg M N init ->
  (forall (g : Grid) p g' p',
     wfg M N g -> step g p = Ok (g', p') -> wfg M N g') /\
  (forall (g : Grid) s i r, countStates g = Ok (s, i, r) -> s + i + r = M * N) /\
  (forall hist pos',
     runOnceNoAnimate (Some init) pos = Ok (hist, pos') ->
     length hist = S T /\
     forall t x, hist !! t = Some x ->
       StepRecord.s x + StepRecord.i x + StepRecord.r x = M * N) /\
  (forall firings running frames ref app' pos',
     visibleRun firings (App.mk running (Some init) [] 0 frames ref) pos
     = Ok (app', pos') ->
     forall t x, App.history app' !! t = Some x ->
       StepRecord.s x + StepRecord.i x + StepRecord.r x = M * N) /\
  ((0 <= Params.r params <= Z.of_nat M)%Z ->
   exists hist pos', runOnceNoAnimate (Some init) pos = Ok (hist, pos')).
Proof.
  intros Hinit. split; [|split; [|split; [|split]]].
  - intros g p g' p' Hwf Hs. by destruct (step_wfg g p g' p' Hwf Hs).
  - intros g s i r Hc.
    pose proof (countStates_sum True g ltac:(intros; apply wp_True)) as H.
    rewrite Hc in H. exact H.
  - intros hist pos' Hrun.
    destruct (runOnceNoAnimate_history init pos hist pos' Hinit Hrun)
      as (Hlen & Hrec & _).
    split; [done|]. intros t x Hx. by destruct (Hrec t x Hx).
  - intros firings running frames ref app' pos' Hrun t x Hx.
    unfold visibleRun in Hrun.
    cbn [App.grid App.history App.time App.animationRef App.initGridRef]
      in Hrun.
    apply (fire_spec firings _ init) in Hrun
      as (_ & _ & suffix & Hh & _ & Hrec & _); [|done|done|simpl; lia].
    cbn [App.history] in Hh. rewrite Hh in Hx. simpl in Hx.
    by destruct (Hrec t x Hx).
  - intros Hr. by apply runOnceNoAnimate_returns.
Qed.

(** C6 (monotonicity).  On a grid of valid cells one step never lowers the
    number of recovered cells nor the number of infected or recovered
    cells: a recovered cell stays recovered and an infected cell does not
    become susceptible.  Both orders hold between any two records of a
    headless run. *)
Theorem step_monotone (g : Grid) :
  valid_grid M N g ->
  (forall pos g' pos',
     step g pos = Ok (g', pos') ->
     valid_grid M N g' /\
     (forall x y, x < M -> y < N ->
        (cell g x y = Num 2 -> cell g' x y = Num 2) /\
        (cell g x y = Num 1 -> cell g' x y <> Num 0)) /\
     exists s i r s' i' r',
       countStates g = Ok (s, i, r) /\ countStates g' = Ok (s', i', r') /\
       r <= r' /\ i + r <= i' + r') /\
  ((0 <= Params.r params <= Z.of_nat M)%Z ->
   forall pos, exists g' pos', step g pos = Ok (g', pos')) /\
  (forall pos hist pos',
     runOnceNoAnimate (Some g) pos = Ok (hist, pos') ->
     forall k k' a b, k <= k' -> hist !! k = Some a -> hist !! k' = Some b ->
       StepRecord.r a <= StepRecord.r b /\
       StepRecord.i a + StepRecord.r a <= StepRecord.i b + StepRecord.r b).
Proof.
  intros Hval. pose proof Hval as [Hwf Hcells]. split; [|split].
  - intros pos g' pos' Hs.
    destruct (step_wfg g pos g' pos' Hwf Hs) as (Hwf' & Htr & _).
    destruct (transition_counts g g' Hval Hwf' Htr) as (Hval' & HR & HS).
    split; [done|]. split.
    + intros x y Hx Hy. specialize (Htr x y Hx Hy). unfold transition in Htr.
      split; intros Hc; rewrite Hc in Htr; simpl in Htr; [done|].
      destruct Htr as [-> | ->]; done.
    + exists (count_grid isS g), (count_grid isI g), (count_grid isR g),
             (count_grid isS g'), (count_grid isI g'), (count_grid isR g').
      rewrite (countStates_counts g Hwf), (countStates_counts g' Hwf').
      pose proof (count_grid_total M N g Hwf).
      pose proof (count_grid_total M N g' Hwf').
      repeat split; lia.
  - intros Hr pos. by apply step_returns.
  - intros pos hist pos' Hrun k k' a b Hk Ha Hb.
    destruct (runOnceNoAnimate_history g pos hist pos' Hwf Hrun)
      as (_ & Hrec & _ & Hmono).
    destruct (Hmono Hcells k k' a b Hk Ha Hb) as [HR HS].
    destruct (Hrec k a Ha) as [_ Hsa]. destruct (Hrec k' b Hb) as [_ Hsb].
    lia.
Qed.

(** C9 (draws of one step, as the code has it).  [step] calls
    [Math.random()] once for every susceptible and every infected cell and
    not at all for a recovered cell: on a grid of valid cells it consumes
    s + i = M * N - r draws. *)
Theorem step_draw_count (g : Grid) :
  valid_grid M N g ->
  (forall pos g' pos',
     step g pos = Ok (g', pos') ->
     exists s i r, countStates g = Ok (s, i, r) /\
                   pos' = pos + s + i /\ pos' + r = pos + M * N) /\
  ((0 <= Params.r params <= Z.of_nat M)%Z ->
   forall pos, exists g' pos', step g pos = Ok (g', pos')).
Proof.
  intros [Hwf Hcells]. split.
  - intros pos g' pos' Hs.
    destruct (step_wfg g pos g' pos' Hwf Hs) as (_ & _ & ->).
    exists (count_grid isS g), (count_grid isI g), (count_grid isR g).
    rewrite (countStates_counts g Hwf), (count_draws_valid g Hcells).
    pose proof (count_grid_total M N g Hwf).
    repeat split; lia.
  - intros Hr pos. by apply step_returns.
Qed.

(** C7 (size of the neighbourhood, as the code has it).  For an M by N
    grid, a centre in row x and a radius r with 1 <= r <= x + M (so for every
    r up to M at every cell) the census returns total = (2r+1)^2 - 1. *)
Theorem getNeighbors_total_count (g : Grid) (x y radius : Z) :
  wfg M N g -> (0 <= x < Z.of_nat M)%Z ->
  (1 <= radius <= x + Z.of_nat M)%Z ->
  exists infected total,
    getNeighbors g x y radius = Ok (infected, total) /\
    Z.of_nat total = ((2 * radius + 1) ^ 2 - 1)%Z.
Proof.
  intros [Hlen _] Hx Hr.
  destruct (getNeighbors_total g x y radius Hlen ltac:(lia) ltac:(lia))
    as (infected & total & Heq & _ & Htot).
  eauto.
Qed.


Lemma initial_grid_wfg fuel app (init : Grid) :
  (forall g : Grid, App.initGridRef app = Some g -> wfg M N g) ->
  1 <= M -> 1 <= N -> unit_range (seedrandom initSeed) ->
  initial_grid fuel app = Ok init -> wfg M N init.
Proof.
  intros Href HM HN Hrng. unfold initial_grid.
  destruct (App.initGridRef app) as [g|].
  - intros [= <-]. by apply Href.
  - intros Heq. pose proof (makeInitialGrid_spec fuel HM HN Hrng) as H.
    rewrite Heq in H. by destruct H.
Qed.

Lemma exportNexpJSON_spec fuel app pos app' payload pos' :
  (forall g : Grid, App.initGridRef app = Some g -> wfg M N g) ->
  1 <= M -> 1 <= N -> unit_range (seedrandom initSeed) ->
  exportNexpJSON fuel app pos = Ok (app', payload, pos') ->
  exists init,
    initial_grid fuel app = Ok init /\ wfg M N init /\
    App.initGridRef app' = Some init /\
    length (Payload.runs payload) = Nexp /\
    runs_ok init (Payload.runs payload) /\
    mean_ok payload.
Proof.
  intros Href HM HN Hrng Heq.
  assert (Hinit : wp True (initial_grid fuel app) (wfg M N)).
  { apply wp_partial. intros init. by apply initial_grid_wfg. }
  pose proof (exportNexpJSON_wp True fuel app pos Hinit census_ok_True) as H.
  unfold rwp in H. rewrite Heq in H. cbn [wp fst snd] in H.
  destruct H as (init & Hi & Href' & Hlen & Hruns & Hmean).
  exists init. split; [done|].
  split; [by apply (initial_grid_wfg fuel app)|].
  split; [done|]. split; [done|]. split; done.
Qed.

(** With more infected cells asked for than the grid has cells the placement
    loop cannot finish, whatever the generator returns. *)
Lemma makeInitialGrid_overfull :
  1 <= M -> 1 <= N -> unit_range (seedrandom initSeed) -> M * N < I0 ->
  forall fuel, makeInitialGrid fuel = OutOfFuel.
Proof.
  intros HM HN Hrng Hbig fuel.
  pose proof (makeInitialGrid_spec fuel HM HN Hrng) as H.
  destruct (makeInitialGrid fuel) as [g| |]; [|done|done].
  destruct H as (Hwf & HI & HR).
  destruct (counts_of_initial g Hwf HI HR) as [_ Hle]. lia.
Qed.

(** C8 (no validation, as the code has it).  [makeInitialGrid] checks
    nothing and raises no error; when I0 is at most M * N it returns a grid
    with exactly I0 infected cells as soon as the generator has produced I0
    different cells (which needs I0 <= M * N). *)
Theorem makeInitialGrid_without_validation :
  1 <= M -> 1 <= N -> unit_range (seedrandom initSeed) ->
  (forall fuel e, makeInitialGrid fuel <> Throw e) /\
  (forall fuel,
     I0 <= size (cells_drawn (seedrandom initSeed) fuel) ->
     I0 <= M * N /\
     exists g, makeInitialGrid fuel = Ok g /\
               countStates g = Ok (M * N - I0, I0, 0)).
Proof.
  intros HM HN Hrng. split.
  - intros fuel e Heq.
    pose proof (makeInitialGrid_spec fuel HM HN Hrng) as H.
    by rewrite Heq in H.
  - intros fuel Hcov.
    pose proof (makeInitialGrid_spec fuel HM HN Hrng) as H.
    destruct (makeInitialGrid fuel) as [g| |]; [|done|lia].
    destruct H as (Hwf & HI & HR).
    destruct (counts_of_initial g Hwf HI HR) as [Hc Hle].
    split; [done|]. by exists g.
Qed.

(** The seeded initializer of [ModifiedApp.jsx].  [makeInitialGrid] draws
    from a generator it creates from the fixed seed, so its grid does not
    depend on [Math.random()], on the state of the component or on how
    long the loop is given: two calls that return, return the same grid;
    a reset shows that grid again; and every run of an exported batch
    starts from it, its record at t = 0 being the count of that grid. *)
Theorem makeInitialGrid_deterministic :
  (forall fuel fuel' (g g' : Grid),
     makeInitialGrid fuel = Ok g -> makeInitialGrid fuel' = Ok g' ->
     g = g') /\
  (forall fuel fuel' app app1 later app2,
     App.initGridRef app = None ->
     initializeGrid fuel app = Ok app1 ->
     App.initGridRef later = App.initGridRef app1 \/
     App.initGridRef later = None ->
     initializeGrid fuel' later = Ok app2 ->
     App.grid app2 = App.grid app1 /\
     App.initGridRef app2 = App.initGridRef app1) /\
  (forall fuel app pos app' payload pos',
     (forall g : Grid, App.initGridRef app = Some g -> wfg M N g) ->
     1 <= M -> 1 <= N -> unit_range (seedrandom initSeed) ->
     exportNexpJSON fuel app pos = Ok (app', payload, pos') ->
     exists (init : Grid) s i r,
       initial_grid fuel app = Ok init /\
       countStates init = Ok (s, i, r) /\
       length (Payload.runs payload) = Nexp /\
       forall k run, Payload.runs payload !! k = Some run ->
         RunResult.t run !! 0 = Some 0 /\
         RunResult.s run !! 0 = Some s /\
         RunResult.i run !! 0 = Some i /\
         RunResult.r run !! 0 = Some r).
Proof.
  split; [|split].
  - apply makeInitialGrid_fuel.
  - intros fuel fuel' app app1 later app2 Hnone H1 Hlater H2.
    unfold initializeGrid in H1, H2. rewrite Hnone in H1.
    destruct (makeInitialGrid fuel) as [g| |] eqn:Hg; try done.
    simpl in H1. injection H1 as <-. cbn [App.initGridRef App.grid] in *.
    destruct Hlater as [Hl | Hl]; rewrite Hl in H2.
    + simpl in H2. by injection H2 as <-.
    + destruct (makeInitialGrid fuel') as [g'| |] eqn:Hg'; try done.
      simpl in H2. injection H2 as <-.
      by rewrite (makeInitialGrid_fuel fuel fuel' g g' Hg Hg').
  - intros fuel app pos app' payload pos' Href HM HN Hrng Heq.
    destruct (exportNexpJSON_spec fuel app pos app' payload pos'
                Href HM HN Hrng Heq)
      as (init & Hi & Hwf & _ & Hlen & Hruns & _).
    exists init, (count_grid isS init), (count_grid isI init),
           (count_grid isR init).
    split; [done|]. split; [by apply countStates_counts|].
    split; [done|].
    intros k run Hk.
    destruct (Hruns k run Hk) as (hist & -> & Hlh & _ & H0 & _).
    specialize (H0 ltac:(lia)).
    cbn [run_of RunResult.t RunResult.s RunResult.i RunResult.r].
    rewrite !list_lookup_fmap, H0. done.
Qed.

Lemma exportNexpJSON_batch fuel app pos app' payload pos' :
  exportNexpJSON fuel app pos = Ok (app', payload, pos') ->
  exists init,
    initial_grid fuel app = Ok init /\
    batch_of init pos (Payload.runs payload) pos'.
Proof.
  intros Heq.
  assert (H : rwp True (exportNexpJSON fuel app) pos (fun out p =>
    exists init,
      initial_grid fuel app = Ok init /\
      batch_of init pos (Payload.runs (snd out)) p)).
  { unfold exportNexpJSON. apply rwp_bind, rwp_lift.
    fold (initial_grid fuel app).
    destruct (initial_grid fuel app) as [init| |]; cbn [wp]; try done.
    apply rwp_bind. cbn [App.initGridRef].
    eapply rwp_mono;
      [|apply (for_rand_wp True (fun k st p =>
           length (fst st) = k /\
           exists ps : list nat,
             length ps = S k /\ ps !! 0 = Some pos /\ ps !! k = Some p /\
             forall j run, fst st !! j = Some run ->
               exists hist q q',
                 ps !! j = Some q /\ ps !! S j = Some q' /\
                 runOnceNoAnimate (Some init) q = Ok (hist, q') /\
                 run = run_of j hist))].
    - intros [runs [[aS aI] aR]] p (Hlen & ps & Hps & H0 & Hlast & Hruns).
      cbn [fst snd] in *. apply rwp_lift. cbn [wp fst snd Payload.runs].
      exists init. split; [done|]. exists ps.
      rewrite Nat.add_0_l in *. rewrite Hlen. done.
    - cbn [fst snd]. split; [done|]. exists [pos].
      split; [done|]. split; [done|]. split; [done|].
      intros j run Hj. by rewrite lookup_nil in Hj.
    - intros k [runs [[aS aI] aR]] p _ (Hlen & ps & Hps & H0 & Hlast & Hruns).
      cbn [fst snd] in *. apply rwp_bind. unfold rwp at 1.
      destruct (runOnceNoAnimate (Some init) p) as [[hist p']| |] eqn:Hrun;
        cbn [wp]; try done.
      cbn [fst snd]. apply rwp_bind, rwp_lift.
      destruct (accumulate hist (aS, aI, aR)) as [acc'| |]; cbn [wp];
        try done.
      apply rwp_lift. cbn [wp fst snd].
      split; [rewrite length_app; simpl; lia|].
      exists (ps ++ [p']).
      split; [rewrite length_app; simpl; lia|].
      split; [by rewrite lookup_app_l by lia|].
      split.
      { rewrite lookup_app_r by lia.
        by replace (S k - length ps) with 0 by lia. }
      intros j run Hj. apply lookup_app_Some in Hj as [Hj|[Hj1 Hj2]].
      + destruct (Hruns j run Hj) as (h & q & q' & Hq & Hq' & Hr & ->).
        apply lookup_lt_Some in Hj as Hlt.
        exists h, q, q'. rewrite !lookup_app_l by lia. done.
      + apply list_lookup_singleton_Some in Hj2 as [Hj2 <-].
        assert (j = k) as -> by lia.
        exists hist, p, p'. rewrite lookup_app_l by lia.
        rewrite lookup_app_r by lia.
        replace (S k - length ps) with 0 by lia. done. }
  unfold rwp in H. rewrite Heq in H. exact H.
Qed.

Lemma sum_at_total f t (runs : list RunResult.record) :
  (forall run, run ∈ runs -> exists v, f run !! t = Some v) ->
  sum_at f t runs = Some (total_at f t runs).
Proof.
  induction runs as [|run runs IH]; intros H; [done|].
  destruct (H run ltac:(by left)) as [v Hv].
  cbn [sum_at]. rewrite Hv, IH by (intros r Hr; apply H; by right).
  unfold total_at. simpl. by rewrite (nth_lookup_Some _ _ 0 v Hv).
Qed.

Lemma runs_ok_value (init : Grid) runs run t :
  runs_ok init runs -> run ∈ runs -> t <= T ->
  (exists v, RunResult.s run !! t = Some v) /\
  (exists v, RunResult.i run !! t = Some v) /\
  (exists v, RunResult.r run !! t = Some v).
Proof.
  intros Hruns Hin Ht. apply list_elem_of_lookup_1 in Hin as [k Hk].
  destruct (Hruns k run Hk) as (hist & -> & Hlen & _).
  destruct (lookup_lt_is_Some_2 hist t ltac:(lia)) as [x Hx].
  unfold run_of. cbn [RunResult.s RunResult.i RunResult.r].
  rewrite !list_lookup_fmap, Hx. simpl.
  split; [by eexists|]. split; by eexists.
Qed.

(** C4 (aggregation).  In the exported payload the Nexp runs are the
    histories of Nexp headless runs from the initial grid, each started at
    the draw where the one before stopped; every run holds a value at every
    time t <= T, and the mean at t is the sum over the runs of those values
    divided once by Nexp, whatever the order in which the runs are summed.
    The export returns whenever the radius lies between 0 and M and the
    initial grid is there. *)
Theorem exportNexpJSON_mean fuel app pos :
  1 <= Nexp ->
  (forall g : Grid, App.initGridRef app = Some g -> wfg M N g) ->
  1 <= M -> 1 <= N -> unit_range (seedrandom initSeed) ->
  (forall app' payload pos',
     exportNexpJSON fuel app pos = Ok (app', payload, pos') ->
     length (Payload.runs payload) = Nexp /\
     (exists init,
        initial_grid fuel app = Ok init /\
        batch_of init pos (Payload.runs payload) pos') /\
     forall t runs', t <= T -> runs' ≡ₚ Payload.runs payload ->
       exists ss si sr,
         sum_at RunResult.s t runs' = Some ss /\
         sum_at RunResult.i t runs' = Some si /\
         sum_at RunResult.r t runs' = Some sr /\
         let mean v := Quot (inject_Z (Z.of_nat v)
                             / inject_Z (Z.of_nat Nexp)) in
         Mean.s (Payload.mean payload) !! t = Some (mean ss) /\
         Mean.i (Payload.mean payload) !! t = Some (mean si) /\
         Mean.r (Payload.mean payload) !! t = Some (mean sr)) /\
  ((0 <= Params.r params <= Z.of_nat M)%Z ->
   (exists init, initial_grid fuel app = Ok init) ->
   exists out pos', exportNexpJSON fuel app pos = Ok (out, pos')).
Proof.
  intros HNexp Href HM HN Hrng. split.
  - intros app' payload pos' Heq.
    destruct (exportNexpJSON_spec fuel app pos app' payload pos'
                Href HM HN Hrng Heq)
      as (init & _ & _ & _ & Hlen & Hruns & _ & Hmean).
    split; [done|].
    split; [by apply (exportNexpJSON_batch fuel app pos app')|].
    intros t runs' Ht Hperm.
    destruct (Hmean t Ht) as (HS & HI & HR).
    assert (Hval : forall run, run ∈ runs' ->
              (exists v, RunResult.s run !! t = Some v) /\
              (exists v, RunResult.i run !! t = Some v) /\
              (exists v, RunResult.r run !! t = Some v)).
    { intros run Hin. apply (runs_ok_value init (Payload.runs payload));
        [done| |done]. by rewrite <- Hperm. }
    exists (total_at RunResult.s t runs'), (total_at RunResult.i t runs'),
           (total_at RunResult.r t runs').
    split; [apply sum_at_total; intros run Hin; apply (Hval run Hin)|].
    split; [apply sum_at_total; intros run Hin; apply (Hval run Hin)|].
    split; [apply sum_at_total; intros run Hin; apply (Hval run Hin)|].
    unfold total_at in *. cbv zeta.
    rewrite !(sum_list_with_Permutation_proper _ _ _ Hperm).
    rewrite HS, HI, HR. unfold js_div.
    destruct Nexp as [|n]; [lia|done].
  - intros Hr [init Hi].
    assert (Hinit : wp False (initial_grid fuel app) (wfg M N)).
    { rewrite Hi. cbn [wp]. by apply (initial_grid_wfg fuel app). }
    pose proof (exportNexpJSON_wp False fuel app pos Hinit
                  (census_ok_radius Hr)) as H.
    apply wp_total in H as ([out pos'] & Heq & _). eauto.
Qed.

(** C5 (the visible run).  The timer callback records the count of the
    grid after the step under the time before it: started from an M by N
    grid with an empty history, the visible run leaves at most T records,
    never T + 1, and its record for t = 0 is the count of the grid after
    one step, not of the initial grid. *)
Theorem visibleRun_history (init : Grid) firings running frames ref pos
        app' pos' :
  wfg M N init ->
  visibleRun firings (App.mk running (Some init) [] 0 frames ref) pos
  = Ok (app', pos') ->
  length (App.history app') = Nat.min firings T /\
  length (App.history app') < S T /\
  forall x, App.history app' !! 0 = Some x ->
    exists (g1 : Grid) p1,
      step init pos = Ok (g1, p1) /\
      StepRecord.t x = 0 /\
      countStates g1
      = Ok (StepRecord.s x, StepRecord.i x, StepRecord.r x).
Proof.
  intros Hwf Hrun. unfold visibleRun in Hrun.
  cbn [App.grid App.history App.time App.animationRef App.initGridRef]
    in Hrun.
  apply (fire_spec firings _ init) in Hrun
    as (_ & Htime & suffix & Hh & Hlen & _ & Hfirst);
    [|done|done|simpl; lia].
  cbn [App.isRunning App.time App.history] in *.
  rewrite Hh. simpl. rewrite Hlen, Htime.
  split; [lia|]. split; [lia|].
  intros x Hx. destruct (Hfirst x Hx) as (g1 & p1 & Hs & ->).
  exists g1, p1. split; [done|].
  destruct (step_wfg init pos g1 p1 Hwf Hs) as [Hwf1 _].
  rewrite (countStates_counts g1 Hwf1). done.
Qed.

(** The headless run, for comparison: T + 1 records, the first one the
    count of the initial grid. *)
Lemma runOnceNoAnimate_records (init : Grid) pos hist pos' :
  wfg M N init ->
  runOnceNoAnimate (Some init) pos = Ok (hist, pos') ->
  length hist = S T /\
  (forall t x, hist !! t = Some x -> StepRecord.t x = t) /\
  exists s i r, countStates init = Ok (s, i, r) /\
                hist !! 0 = Some (StepRecord.mk 0 s i r).
Proof.
  intros Hwf Hrun.
  destruct (runOnceNoAnimate_history init pos hist pos' Hwf Hrun)
    as (Hlen & Hrec & H0 & _).
  split; [done|]. split; [intros t x Hx; by destruct (Hrec t x Hx)|].
  exists (count_grid isS init), (count_grid isI init), (count_grid isR init).
  split; [by apply countStates_counts|]. apply H0. lia.
Qed.

(** ** The rule of one step, cell by cell *)

Lemma wp_eq {A} E (m : result A) Q :
  wp E m Q -> wp E m (fun a => m = Ok a /\ Q a).
Proof. destruct m; simpl; auto. Qed.

Lemma step_cell_rule E (cur new : Grid) i j p :
  wfg M N cur -> wfg M N new -> i < M -> j < N ->
  wp E (getNeighbors cur (Z.of_nat i) (Z.of_nat j) (Params.r params))
     (fun _ => True) ->
  rwp E (step_cell cur new i j) p (fun new' p' =>
    wfg M N new' /\
    (forall i' j', cell new' i' j'
                   = if decide (i' = i /\ j' = j) then cell new' i j
                     else cell new i' j') /\
    next_state cur i j p (cell new' i j) /\
    p' = p + (if draws (cell cur i j) then 1 else 0)).
Proof.
  intros Hcur Hnew Hi Hj Hnb. unfold step_cell.
  destruct (wfg_lookup M N cur i Hcur Hi) as (row & Hrow & Hlen).
  apply rwp_bind, rwp_lift. rewrite (row_at_nat cur i row Hrow).
  cbn [wp]. rewrite (cell_at_nat cur i j row Hrow).
  assert (Hset : forall v q,
    next_state cur i j p v ->
    q = p + (if draws (cell cur i j) then 1 else 0) ->
    rwp E (lift (set_cell new (Z.of_nat i) (Z.of_nat j) v)) q
        (fun new' p' =>
           wfg M N new' /\
           (forall i' j', cell new' i' j'
                          = if decide (i' = i /\ j' = j) then cell new' i j
                            else cell new i' j') /\
           next_state cur i j p (cell new' i j) /\
           p' = p + (if draws (cell cur i j) then 1 else 0))).
  { intros v q Hv Hq. apply rwp_lift.
    destruct (set_cell_spec M N new i j v Hnew Hi Hj)
      as (new' & -> & Hwf' & Hcell & _).
    cbn [wp].
    assert (Hij : cell new' i j = v).
    { rewrite Hcell. destruct (decide _) as [|n0]; [done|].
      destruct n0; done. }
    rewrite Hij. split; [done|]. split; [|split; [done|done]].
    intros i' j'. rewrite Hcell. by destruct (decide _). }
  unfold next_state, draws, is2, isI in *.
  destruct (strict_eq (cell cur i j) (Num 2)) eqn:H2.
  - apply Hset; [done|simpl; lia].
  - destruct (strict_eq (cell cur i j) (Num 1)) eqn:H1.
    + apply rwp_bind, rwp_random.
      apply Hset; [done|simpl; lia].
    + apply rwp_bind, rwp_lift.
      eapply wp_mono; [|apply wp_eq, Hnb].
      intros [infected total] [Heq _].
      apply rwp_bind, rwp_random.
      apply Hset; [|simpl; lia].
      exists infected, total. done.
Qed.

Lemma step_rule E (cur : Grid) pos :
  wfg M N cur ->
  (forall i j, i < M -> j < N ->
     wp E (getNeighbors cur (Z.of_nat i) (Z.of_nat j) (Params.r params))
        (fun _ => True)) ->
  rwp E (step cur) pos (fun new pos' =>
    wfg M N new /\
    (forall i j, i < M -> j < N ->
       next_state cur i j (draw_index cur pos i j) (cell new i j)) /\
    pos' = pos + count_grid draws cur).
Proof.
  intros Hcur Hnb. unfold step.
  eapply rwp_mono;
    [|apply (for_rand_wp E (fun i new p =>
         wfg M N new /\
         (forall i' j', i' < i -> j' < N ->
            next_state cur i' j' (draw_index cur pos i' j') (cell new i' j')) /\
         p = pos + count_grid draws (take i cur)))].
  - intros new p (Hwf & Htr & ->). cbn [Nat.add] in *.
    rewrite take_ge by (destruct Hcur; lia). auto.
  - split; [apply wfg_zeros|]. split; [intros; lia|]. simpl. lia.
  - intros i new p Hi (Hnew & Htr & ->).
    destruct (wfg_lookup M N cur i Hcur) as (row & Hrow & Hlen); [lia|].
    eapply rwp_mono;
      [|apply (for_rand_wp E (fun j new' p' =>
           wfg M N new' /\
           (forall i' j', i' < i -> j' < N ->
              next_state cur i' j' (draw_index cur pos i' j')
                         (cell new' i' j')) /\
           (forall j', j' < j ->
              next_state cur i j' (draw_index cur pos i j') (cell new' i j')) /\
           p' = pos + count_grid draws (take i cur)
                + count_row draws (take j row)))].
    + intros new' p' (Hwf' & Htr' & Hrow' & ->). cbn [Nat.add] in *.
      split; [done|]. split.
      * intros i' j' Hi' Hj'.
        destruct (decide (i' = i)) as [->|]; [by apply Hrow'|].
        apply Htr'; lia.
      * rewrite (count_grid_take_S _ cur i row Hrow).
        rewrite (take_ge row N) by lia. lia.
    + split; [done|]. split; [done|]. split; [intros; lia|]. simpl. lia.
    + intros j new' p' Hj (Hwf' & Htr' & Hrow' & ->).
      eapply rwp_mono;
        [|apply (step_cell_rule E cur new' i j); try done; try lia;
          apply Hnb; lia].
      intros new'' p'' (Hwf'' & Hcell & Hij & ->).
      split; [done|]. split; [|split].
      * intros i' j' Hi' Hj'. rewrite Hcell.
        destruct (decide _) as [[? _]|]; [lia|]. by apply Htr'.
      * intros j' Hj'. destruct (decide (j' = j)) as [->|].
        -- unfold draw_index. rewrite Hrow. exact Hij.
        -- rewrite Hcell. destruct (decide _) as [[_ ?]|]; [lia|].
           apply Hrow'. lia.
      * destruct (lookup_lt_is_Some_2 row j) as [c Hc]; [lia|].
        rewrite (count_row_take_S _ row j c Hc).
        unfold cell. rewrite Hrow, Hc. lia.
Qed.

Lemma step_next (g : Grid) pos g' pos' :
  wfg M N g -> step g pos = Ok (g', pos') ->
  wfg M N g' /\
  (forall i j, i < M -> j < N ->
     next_state g i j (draw_index g pos i j) (cell g' i j)) /\
  pos' = pos + count_grid draws g.
Proof.
  intros Hwf Hs.
  pose proof (step_rule True g pos Hwf ltac:(intros; apply wp_True)) as H.
  unfold rwp in H. rewrite Hs in H. exact H.
Qed.

(** ** Runs as repeated steps *)

Lemma steps_snoc k :
  forall (g : Grid) pos g1 p1 g2 p2,
    steps k g pos = Ok (g1, p1) -> step g1 p1 = Ok (g2, p2) ->
    steps (S k) g pos = Ok (g2, p2).
Proof.
  induction k as [|k IH]; intros g pos g1 p1 g2 p2 H1 H2.
  - simpl in H1. unfold lift in H1. simpl in H1. injection H1 as <- <-.
    simpl. unfold rbind. rewrite H2. reflexivity.
  - change (steps (S k) g pos) with (rbind (step g) (steps k) pos) in H1.
    change (steps (S (S k)) g pos) with (rbind (step g) (steps (S k)) pos).
    unfold rbind in *. destruct (step g pos) as [[g' p']| |]; try done.
    by apply (IH g' p' g1 p1).
Qed.

Lemma steps_wfg k :
  forall (g : Grid) pos g' pos',
    wfg M N g -> steps k g pos = Ok (g', pos') -> wfg M N g'.
Proof.
  induction k as [|k IH]; intros g pos g' pos' Hwf H.
  - simpl in H. unfold lift in H. simpl in H. by injection H as <- <-.
  - change (steps (S k) g pos) with (rbind (step g) (steps k) pos) in H.
    unfold rbind in H. destruct (step g pos) as [[g1 p1]| |] eqn:Hs; try done.
    destruct (step_wfg g pos g1 p1 Hwf Hs) as [Hwf1 _].
    by apply (IH g1 p1 g' pos').
Qed.

Lemma steps_prefix k :
  forall (g : Grid) pos g' pos' j,
    steps k g pos = Ok (g', pos') -> j <= k ->
    exists gj pj, steps j g pos = Ok (gj, pj).
Proof.
  induction k as [|k IH]; intros g pos g' pos' j H Hj.
  - assert (j = 0) as -> by lia. eauto.
  - destruct j as [|j]; [simpl; unfold lift; simpl; eauto|].
    change (steps (S k) g pos) with (rbind (step g) (steps k) pos) in H.
    change (steps (S j) g pos) with (rbind (step g) (steps j) pos).
    unfold rbind in *. destruct (step g pos) as [[g1 p1]| |]; try done.
    apply (IH g1 p1 g' pos' j H). lia.
Qed.

(** The headless run: its record at time t is the count of the grid after
    t steps, and it stops after T steps. *)
Lemma runOnceNoAnimate_steps (init : Grid) pos hist pos' :
  wfg M N init ->
  runOnceNoAnimate (Some init) pos = Ok (hist, pos') ->
  length hist = S T /\
  (exists gT, steps T init pos = Ok (gT, pos')) /\
  forall t, t <= T ->
    exists gt pt, steps t init pos = Ok (gt, pt) /\
                  hist !! t = Some (record_of t (counts gt)).
Proof.
  intros Hinit Hrun.
  assert (H : rwp True (runOnceNoAnimate (Some init)) pos (fun hist pos' =>
    length hist = S T /\
    (exists gT, steps T init pos = Ok (gT, pos')) /\
    forall t, t <= T ->
      exists gt pt, steps t init pos = Ok (gt, pt) /\
                    hist !! t = Some (record_of t (counts gt)))).
  { unfold runOnceNoAnimate. apply rwp_bind. rewrite clone_id.
    eapply rwp_mono;
      [|apply (for_rand_wp True (fun t st p =>
           wfg M N (fst st) /\
           steps (Nat.min t T) init pos = Ok (fst st, p) /\
           length (snd st) = t /\
           forall k, k < t ->
             exists gk pk, steps k init pos = Ok (gk, pk) /\
                           snd st !! k = Some (record_of k (counts gk))))].
    - intros [g hist'] p (_ & Hst & Hlen & Hrec). cbn [fst snd] in *.
      apply rwp_lift. cbn [wp snd].
      replace (Nat.min (0 + S T) T) with T in Hst by lia.
      split; [lia|]. split; [eauto|].
      intros t Ht. apply Hrec. lia.
    - cbn [fst snd]. split; [done|]. split; [done|]. split; [done|].
      intros k Hk. lia.
    - intros t [g hist'] p Ht (Hwf & Hst & Hlen & Hrec). cbn [fst snd] in *.
      apply rwp_bind, rwp_lift. rewrite (countStates_counts g Hwf). cbn [wp].
      replace (Nat.min t T) with t in Hst by lia.
      assert (Hrec' : forall k, k < S t ->
                exists gk pk, steps k init pos = Ok (gk, pk) /\
                  (hist' ++ [record_of t (counts g)]) !! k
                  = Some (record_of k (counts gk))).
      { intros k Hk. destruct (decide (k = t)) as [->|Hne].
        - exists g, p. split; [done|].
          rewrite lookup_app_r by lia.
          by replace (t - length hist') with 0 by lia.
        - destruct (Hrec k ltac:(lia)) as (gk & pk & H1 & H2).
          exists gk, pk. split; [done|].
          rewrite lookup_app_l by lia. done. }
      assert (Hlen' : length (hist' ++ [record_of t (counts g)]) = S t)
        by (rewrite length_app; simpl; lia).
      unfold counts in *. cbn [record_of] in *.
      destruct (Nat.ltb_spec t T) as [HtT|HtT].
      + apply rwp_bind. unfold rwp at 1.
        destruct (step g p) as [[g' p']| |] eqn:Hs; cbn [wp]; try done.
        cbn [fst snd]. apply rwp_lift. cbn [wp fst snd].
        destruct (step_wfg g p g' p' Hwf Hs) as [Hwf' _].
        split; [done|]. split; [|split; [done|done]].
        replace (Nat.min (S t) T) with (S t) by lia.
        by apply (steps_snoc t init pos g p).
      + apply rwp_lift. cbn [wp fst snd].
        split; [done|]. split; [|split; [done|done]].
        replace (Nat.min (S t) T) with t by lia. done. }
  unfold rwp in H. rewrite Hrun in H. exact H.
Qed.

(** The visible run: every firing that runs appends the count of the next
    grid, under the time before the step, and keeps the grid as a frame. *)
Lemma fire_steps firings :
  forall app (g : Grid) pos app' pos',
    App.isRunning app = true -> App.grid app = Some g -> wfg M N g ->
    App.time app <= T ->
    fire firings app pos = Ok (app', pos') ->
    let n := Nat.min firings (T - App.time app) in
    (exists gn, steps n g pos = Ok (gn, pos') /\ App.grid app' = Some gn) /\
    App.time app' = App.time app + n /\
    length (App.history app') = length (App.history app) + n /\
    length (App.animationRef app') = length (App.animationRef app) + n /\
    App.initGridRef app' = App.initGridRef app /\
    (forall m, m < length (App.history app) ->
       App.history app' !! m = App.history app !! m) /\
    (forall m, m < length (App.animationRef app) ->
       App.animationRef app' !! m = App.animationRef app !! m) /\
    forall m, m < n ->
      exists gm pm,
        steps (S m) g pos = Ok (gm, pm) /\
        App.history app' !! (length (App.history app) + m)
        = Some (record_of (App.time app + m) (counts gm)) /\
        App.animationRef app' !! (length (App.animationRef app) + m)
        = Some gm.
Proof.
  induction firings as [|k IH]; intros app g pos app' pos' Hrun Hg Hwf Ht.
  - simpl. unfold lift. simpl. intros [= <- <-].
    split; [exists g; by rewrite Hg|].
    repeat (split; [done || lia|]). intros m Hm. lia.
  - simpl fire. unfold rbind at 1.
    destruct (tick app pos) as [[app1 p1]| |] eqn:Htick; try done.
    intros Hfire.
    pose proof (tick_spec app g pos app1 p1 Hg Hwf Htick) as H1.
    rewrite Hrun in H1. simpl andb in H1.
    destruct (Nat.ltb_spec (App.time app) T) as [Hlt|Hge].
    + destruct H1 as (g1 & Hs & Hwf1 & ->).
      apply (IH _ g1) in Hfire; [|reflexivity|reflexivity|done|simpl; lia].
      cbn [App.isRunning App.time App.history App.animationRef
           App.initGridRef App.grid] in Hfire.
      destruct Hfire as ((gn & Hgn & Hgrid) & Htime & Hlh & Hla & Href
                         & Hold & Hoa & Hnew).
      rewrite length_app in Hlh, Hla. simpl in Hlh, Hla.
      replace (Nat.min (S k) (T - App.time app))
        with (S (Nat.min k (T - S (App.time app)))) by lia.
      cbv zeta. split.
      { exists gn. split; [|done].
        change (steps (S (Nat.min k (T - S (App.time app)))) g pos)
          with (rbind (step g) (steps (Nat.min k (T - S (App.time app)))) pos).
        unfold rbind. by rewrite Hs. }
      split; [lia|]. split; [lia|]. split; [lia|]. split; [done|].
      split; [|split].
      * intros m Hm. rewrite Hold by (rewrite length_app; simpl; lia).
        by rewrite lookup_app_l by lia.
      * intros m Hm. rewrite Hoa by (rewrite length_app; simpl; lia).
        by rewrite lookup_app_l by lia.
      * intros [|m] Hm.
        -- exists g1, p1. split; [simpl; unfold rbind, lift; by rewrite Hs|].
           rewrite !Nat.add_0_r.
           rewrite Hold, Hoa by (rewrite length_app; simpl; lia).
           rewrite !lookup_app_r by lia.
           by rewrite !Nat.sub_diag.
        -- destruct (Hnew m ltac:(lia)) as (gm & pm & Hsm & Hh & Ha).
           exists gm, pm. split.
           { change (steps (S (S m)) g pos)
               with (rbind (step g) (steps (S m)) pos).
             unfold rbind. by rewrite Hs. }
           rewrite length_app in Hh, Ha. simpl in Hh, Ha.
           replace (length (App.history app) + S m)
             with (length (App.history app) + 1 + m) by lia.
           replace (length (App.animationRef app) + S m)
             with (length (App.animationRef app) + 1 + m) by lia.
           replace (App.time app + S m) with (S (App.time app) + m) by lia.
           rewrite Hh, Ha. done.
    + destruct H1 as [-> ->].
      replace (Nat.min (S k) (T - App.time app)) with 0 by lia.
      cbv zeta.
      assert (Hstop : forall j a p a' p',
                App.isRunning a = false ->
                fire j a p = Ok (a', p') ->
                p' = p /\ App.grid a' = App.grid a /\
                App.history a' = App.history a /\
                App.time a' = App.time a /\
                App.animationRef a' = App.animationRef a /\
                App.initGridRef a' = App.initGridRef a).
      { clear. induction j as [|j IHj]; intros a p a' p' Hoff Hf.
        - simpl in Hf. unfold lift in Hf. simpl in Hf. by injection Hf as <- <-.
        - simpl in Hf. unfold rbind at 1 in Hf. unfold tick in Hf.
          rewrite Hoff in Hf. unfold lift at 1 in Hf. simpl in Hf.
          by apply IHj in Hf. }
      apply Hstop in Hfire; [|reflexivity].
      destruct Hfire as (Hp & Hg' & Hh' & Ht' & Ha' & Hr'). subst pos'.
      cbn [App.isRunning App.time App.history App.animationRef
           App.initGridRef App.grid] in *.
      split; [exists g; by rewrite Hg'|].
      rewrite Hh', Ht', Ha', Hr'.
      repeat (split; [done || lia|]). intros m Hm. lia.
Qed.

(** ** What one step does to the population *)

Lemma Qltb_ge (u p : Q) : (p <= u)%Q -> Qltb u p = false.
Proof.
  intros H. unfold Qltb. destruct (u ?= p)%Q eqn:E; try done.
  apply Qlt_alt in E. by apply Qlt_not_le in E.
Qed.

Lemma Qltb_lt (u p : Q) : (u < p)%Q -> Qltb u p = true.
Proof.
  intros H. unfold Qltb. apply Qlt_alt in H.
  change ((u ?= p)%Q = Lt) in H. by rewrite H.
Qed.

Lemma count_grid_eq p q m n (g g' : Grid) :
  wfg m n g -> wfg m n g' ->
  (forall i j, i < m -> j < n -> p (cell g i j) = q (cell g' i j)) ->
  count_grid p g = count_grid q g'.
Proof.
  intros Hg Hg' H. apply Nat.le_antisymm.
  - apply (count_grid_le p q m n); [done|done|].
    intros i j Hi Hj. by rewrite H.
  - apply (count_grid_le q p m n); [done|done|].
    intros i j Hi Hj. by rewrite H.
Qed.

Lemma grid_ext m n (g g' : Grid) :
  wfg m n g -> wfg m n g' ->
  (forall i j, i < m -> j < n -> cell g i j = cell g' i j) ->
  g = g'.
Proof.
  intros Hg Hg' H. apply list_eq. intros i.
  destruct (decide (i < m)) as [Hi|Hi].
  - destruct (wfg_lookup m n g i Hg Hi) as (row & Hrow & Hlen).
    destruct (wfg_lookup m n g' i Hg' Hi) as (row' & Hrow' & Hlen').
    rewrite Hrow, Hrow'. f_equal. apply list_eq. intros j.
    destruct (decide (j < n)) as [Hj|Hj].
    + specialize (H i j Hi Hj). unfold cell in H. rewrite Hrow, Hrow' in H.
      destruct (lookup_lt_is_Some_2 row j ltac:(lia)) as [c Hc].
      destruct (lookup_lt_is_Some_2 row' j ltac:(lia)) as [c' Hc'].
      rewrite Hc, Hc' in *. by subst.
    + rewrite !lookup_ge_None_2 by lia. done.
  - destruct Hg as [Hl _], Hg' as [Hl' _].
    rewrite !lookup_ge_None_2 by lia. done.
Qed.

Lemma count_row_0 p (row : Row) c :
  count_row p row = 0 -> c ∈ row -> p c = false.
Proof.
  induction row as [|c' row IH]; intros H Hin; [by apply elem_of_nil in Hin|].
  simpl in H. apply elem_of_cons in Hin as [->|Hin].
  - destruct (p c'); [lia|done].
  - apply IH; [lia|done].
Qed.

Lemma count_grid_0 p (g : Grid) row c :
  count_grid p g = 0 -> row ∈ g -> c ∈ row -> p c = false.
Proof.
  induction g as [|row' g IH]; intros H Hrow Hc;
    [by apply elem_of_nil in Hrow|].
  simpl in H. apply elem_of_cons in Hrow as [->|Hrow].
  - apply (count_row_0 p row'); [lia|done].
  - apply IH; [lia|done|done].
Qed.

Lemma cell_elem m n (g : Grid) i j :
  wfg m n g -> i < m -> j < n ->
  exists row, row ∈ g /\ cell g i j ∈ row.
Proof.
  intros Hg Hi Hj. destruct (wfg_lookup m n g i Hg Hi) as (row & Hrow & Hlen).
  destruct (lookup_lt_is_Some_2 row j ltac:(lia)) as [c Hc].
  exists row. split; [by eapply list_elem_of_lookup_2|].
  unfold cell. rewrite Hrow, Hc. by eapply list_elem_of_lookup_2.
Qed.

(** Without an infected cell in the grid the census finds none. *)
Lemma getNeighbors_clean (g : Grid) (x y radius : Z) :
  count_grid isI g = 0 ->
  wp True (getNeighbors g x y radius) (fun c => fst c = 0).
Proof.
  intros Hclean. unfold getNeighbors, for_Z.
  set (n1 := Z.to_nat _). set (n2 := Z.to_nat _).
  apply (for_from_wp True (fun _ c => fst c = 0) _ n1 0 (0, 0)); [done|].
  intros ki acc _ Hacc.
  apply (for_from_wp True (fun _ c => fst c = 0) _ n2 0 acc); [done|].
  intros kj [inf tot] _ Hinf. cbn [fst] in Hinf. subst inf.
  unfold census_cell.
  destruct (negb _ || negb _); [|done].
  apply wp_bind. unfold row_at.
  destruct (index g _) as [row|] eqn:Hrow; [|done]. cbn [wp].
  assert (Hin : row ∈ g).
  { unfold index in Hrow. destruct (js_rem _ _) as [z|]; [|done].
    destruct (z <? 0)%Z; [done|]. by eapply list_elem_of_lookup_2. }
  assert (Hc : strict_eq (cell_at row (js_rem (y - radius + Z.of_nat kj
                 + Z.of_nat N) (Z.of_nat N))) (Num 1) = false).
  { unfold cell_at, index.
    destruct (js_rem (y - radius + Z.of_nat kj + Z.of_nat N) (Z.of_nat N))
      as [z|]; [|done].
    destruct (z <? 0)%Z; [done|].
    destruct (row !! Z.to_nat z) as [c|] eqn:Hc; [|done].
    apply (count_grid_0 isI g row c Hclean Hin).
    by eapply list_elem_of_lookup_2. }
  rewrite Hc. done.
Qed.

(** X1. [step] is a synchronous update: on an M x N grid every cell of the
    returned grid is computed from the grid that was passed in (its own
    state and, for a susceptible cell, the census of that grid), never from
    a cell already rewritten, and the draw it uses is the one numbered by
    the cells before it, in row order, that are not recovered. *)
Theorem step_cell_by_cell (g : Grid) pos g' pos' i j :
  wfg M N g -> step g pos = Ok (g', pos') -> i < M -> j < N ->
  next_state g i j (draw_index g pos i j) (cell g' i j).
Proof.
  intros Hwf Hstep Hi Hj.
  destruct (step_next g pos g' pos' Hwf Hstep) as (_ & Hnext & _).
  by apply Hnext.
Qed.

Lemma step_clean (g : Grid) pos g' pos' :
  valid_grid M N g -> count_grid isI g = 0 -> draws_nonneg ->
  step g pos = Ok (g', pos') ->
  g' = g /\ pos' = pos + count_grid isS g.
Proof.
  intros [Hwf Hval] Hclean Hdraws Hstep.
  destruct (step_next g pos g' pos' Hwf Hstep) as (Hwf' & Hnext & Hpos).
  split.
  - apply (grid_ext M N); [done|done|].
    intros i j Hi Hj. specialize (Hnext i j Hi Hj). unfold next_state in Hnext.
    cbv zeta in Hnext.
    destruct (cell_elem M N g i j Hwf Hi Hj) as (row & Hrow & Hc).
    pose proof (count_grid_0 isI g row _ Hclean Hrow Hc) as HnotI.
    destruct (valid_grid_cell M N g i j (conj Hwf Hval) Hi Hj)
      as [H0|[H1|H2]].
    + rewrite H0 in Hnext |- *. simpl in Hnext.
      destruct Hnext as (inf & tot & Hnb & ->).
      pose proof (getNeighbors_clean g (Z.of_nat i) (Z.of_nat j)
                    (Params.r params) Hclean) as Hzero.
      rewrite Hnb in Hzero. cbn [wp fst] in Hzero. subst inf.
      unfold infectionProb. simpl. by rewrite Qltb_ge by apply Hdraws.
    + rewrite H1 in HnotI. done.
    + rewrite H2 in Hnext |- *. done.
  - rewrite Hpos, (count_draws_valid g Hval), Hclean. lia.
Qed.

Lemma steps_split t :
  forall d (g : Grid) pos g2 p2,
    steps (t + d) g pos = Ok (g2, p2) ->
    exists g1 p1, steps t g pos = Ok (g1, p1) /\
                  steps d g1 p1 = Ok (g2, p2).
Proof.
  induction t as [|t IH]; intros d g pos g2 p2 H.
  - exists g, pos. split; [reflexivity|exact H].
  - change (steps (S t + d) g pos)
      with (rbind (step g) (steps (t + d)) pos) in H.
    change (steps (S t) g pos) with (rbind (step g) (steps t) pos).
    unfold rbind in *. destruct (step g pos) as [[g' p']| |]; try done.
    by apply IH.
Qed.

Lemma steps_clean k :
  forall (g : Grid) pos g' pos',
    valid_grid M N g -> count_grid isI g = 0 -> draws_nonneg ->
    steps k g pos = Ok (g', pos') -> g' = g.
Proof.
  induction k as [|k IH]; intros g pos g' pos' Hval Hclean Hdraws H.
  - simpl in H. unfold lift in H. simpl in H. by injection H as <- <-.
  - change (steps (S k) g pos) with (rbind (step g) (steps k) pos) in H.
    unfold rbind in H. destruct (step g pos) as [[g1 p1]| |] eqn:Hs; try done.
    destruct (step_clean g pos g1 p1 Hval Hclean Hdraws Hs) as [-> _].
    by apply (IH g p1 g' pos').
Qed.

Lemma steps_valid k :
  forall (g : Grid) pos g' pos',
    valid_grid M N g -> steps k g pos = Ok (g', pos') -> valid_grid M N g'.
Proof.
  induction k as [|k IH]; intros g pos g' pos' Hval H.
  - simpl in H. unfold lift in H. simpl in H. by injection H as <- <-.
  - change (steps (S k) g pos) with (rbind (step g) (steps k) pos) in H.
    unfold rbind in H. destruct (step g pos) as [[g1 p1]| |] eqn:Hs; try done.
    destruct (step_wfg g pos g1 p1 (proj1 Hval) Hs) as (Hwf1 & Htr & _).
    apply (IH g1 p1 g' pos'); [|done].
    by destruct (transition_counts g g1 Hval Hwf1 Htr).
Qed.

(** X2. Once nobody is infected the epidemic is over: on a grid of valid
    states without an infected cell, with draws that are never negative,
    [step] returns the grid it was given (for a radius up to M), after one
    draw for every susceptible cell. *)
Theorem step_disease_free (g : Grid) pos :
  valid_grid M N g -> count_grid isI g = 0 -> draws_nonneg ->
  (0 <= Params.r params <= Z.of_nat M)%Z ->
  step g pos = Ok (g, pos + count_grid isS g).
Proof.
  intros Hval Hclean Hdraws Hr.
  destruct (step_returns g pos (proj1 Hval) Hr) as (g' & pos' & Hstep).
  destruct (step_clean g pos g' pos' Hval Hclean Hdraws Hstep) as [-> ->].
  done.
Qed.

(** X13. An epidemic that has died out stays so: in a history of a headless
    run from a grid of valid states, with draws that are never negative, a
    record without infected cells is followed only by records with the same
    s, i = 0 and r. *)
Theorem runOnceNoAnimate_extinct (init : Grid) pos hist pos' t t' a b :
  valid_grid M N init -> draws_nonneg ->
  runOnceNoAnimate (Some init) pos = Ok (hist, pos') ->
  t <= t' -> hist !! t = Some a -> hist !! t' = Some b ->
  StepRecord.i a = 0 ->
  StepRecord.s b = StepRecord.s a /\ StepRecord.i b = 0 /\
  StepRecord.r b = StepRecord.r a.
Proof.
  intros Hval Hdraws Hrun Htt Ha Hb Hi.
  destruct (runOnceNoAnimate_steps init pos hist pos' (proj1 Hval) Hrun)
    as (Hlen & _ & Hrec).
  apply lookup_lt_Some in Hb as Hlt. rewrite Hlen in Hlt.
  destruct (Hrec t ltac:(lia)) as (gt & pt & Hst & Hx).
  destruct (Hrec t' ltac:(lia)) as (gt' & pt' & Hst' & Hx').
  rewrite Ha in Hx. injection Hx as ->.
  rewrite Hb in Hx'. injection Hx' as ->.
  replace t' with (t + (t' - t)) in Hst' by lia.
  apply steps_split in Hst' as (g1 & p1 & H1 & H2).
  rewrite Hst in H1. injection H1 as <- <-.
  simpl in Hi.
  apply steps_clean in H2;
    [|by apply (steps_valid t init pos gt pt)|done|done].
  subst gt'. simpl. done.
Qed.

(** X3. With a recovery rate alpha <= 0 and draws that are never negative
    nobody recovers: every infected cell stays infected across [step] and,
    on a grid of valid states, the number of recovered cells stays the
    same. *)
Theorem step_without_recovery (g : Grid) pos g' pos' :
  (Params.alpha params <= 0)%Q -> draws_nonneg ->
  wfg M N g -> step g pos = Ok (g', pos') ->
  (forall i j, i < M -> j < N -> cell g i j = Num 1 -> cell g' i j = Num 1) /\
  (Forall (Forall valid_cell) g ->
   count_grid isR g' = count_grid isR g /\
   count_grid isI g <= count_grid isI g').
Proof.
  intros Halpha Hdraws Hwf Hstep.
  destruct (step_next g pos g' pos' Hwf Hstep) as (Hwf' & Hnext & Hpos).
  assert (Hkeep : forall i j, i < M -> j < N ->
            cell g i j = Num 1 -> cell g' i j = Num 1).
  { intros i j Hi Hj H1. specialize (Hnext i j Hi Hj).
    unfold next_state in Hnext. cbv zeta in Hnext. rewrite H1 in Hnext.
    simpl in Hnext. rewrite Hnext, Qltb_ge; [done|].
    eapply Qle_trans; [exact Halpha|apply Hdraws]. }
  split; [done|]. intros Hval. split.
  - symmetry. apply (count_grid_eq isR isR M N); [done|done|].
    intros i j Hi Hj. specialize (Hnext i j Hi Hj).
    unfold next_state in Hnext. cbv zeta in Hnext.
    destruct (valid_grid_cell M N g i j (conj Hwf Hval) Hi Hj)
      as [H0|[H1|H2]].
    + rewrite H0 in Hnext |- *. simpl in Hnext.
      destruct Hnext as (inf & tot & _ & ->). by destruct (Qltb _ _).
    + by rewrite (Hkeep i j Hi Hj H1), H1.
    + rewrite H2 in Hnext |- *. simpl in Hnext. by rewrite Hnext.
  - apply (count_grid_le isI isI M N); [done|done|].
    intros i j Hi Hj HI.
    destruct (valid_grid_cell M N g i j (conj Hwf Hval) Hi Hj)
      as [H0|[H1|H2]].
    + by rewrite H0 in HI.
    + by rewrite (Hkeep i j Hi Hj H1).
    + by rewrite H2 in HI.
Qed.

(** X4. With a transmission rate beta <= 0 and draws that are never negative
    nobody is infected: every susceptible cell stays susceptible across
    [step] and, on a grid of valid states, the number of susceptible cells
    stays the same while the infected ones cannot become more. *)
Theorem step_without_infection (g : Grid) pos g' pos' :
  (Params.beta params <= 0)%Q -> draws_nonneg ->
  wfg M N g -> step g pos = Ok (g', pos') ->
  (forall i j, i < M -> j < N -> cell g i j = Num 0 -> cell g' i j = Num 0) /\
  (Forall (Forall valid_cell) g ->
   count_grid isS g' = count_grid isS g /\
   count_grid isI g' <= count_grid isI g).
Proof.
  intros Hbeta Hdraws Hwf Hstep.
  destruct (step_next g pos g' pos' Hwf Hstep) as (Hwf' & Hnext & Hpos).
  assert (Hkeep : forall i j, i < M -> j < N ->
            cell g i j = Num 0 -> cell g' i j = Num 0).
  { intros i j Hi Hj H0. specialize (Hnext i j Hi Hj).
    unfold next_state in Hnext. cbv zeta in Hnext. rewrite H0 in Hnext.
    simpl in Hnext. destruct Hnext as (inf & tot & Hnb & ->).
    rewrite Qltb_ge; [done|].
    eapply Qle_trans; [|apply Hdraws].
    unfold infectionProb. destruct (0 <? inf); [|apply Qle_refl].
    assert (0 <= inject_Z (Z.of_nat inf) / inject_Z (Z.of_nat tot))%Q as Hq.
    { destruct tot as [|tot].
      - unfold Qdiv, Qinv. simpl. rewrite Qmult_0_r. apply Qle_refl.
      - apply Qle_shift_div_l.
        + rewrite <- (Zlt_Qlt 0). lia.
        + rewrite Qmult_0_l. rewrite <- (Zle_Qle 0). lia. }
    apply Qle_trans
      with (0 * (inject_Z (Z.of_nat inf) / inject_Z (Z.of_nat tot)))%Q;
      [by apply Qmult_le_compat_r|].
    rewrite Qmult_0_l. apply Qle_refl. }
  split; [done|]. intros Hval.
  assert (HS : forall i j, i < M -> j < N ->
            isS (cell g i j) = isS (cell g' i j)).
  { intros i j Hi Hj. specialize (Hnext i j Hi Hj).
    unfold next_state in Hnext. cbv zeta in Hnext.
    destruct (valid_grid_cell M N g i j (conj Hwf Hval) Hi Hj)
      as [H0|[H1|H2]].
    - by rewrite (Hkeep i j Hi Hj H0), H0.
    - rewrite H1 in Hnext |- *. simpl in Hnext. rewrite Hnext.
      by destruct (Qltb _ _).
    - rewrite H2 in Hnext |- *. simpl in Hnext. by rewrite Hnext. }
  split.
  - symmetry. by apply (count_grid_eq isS isS M N).
  - apply (count_grid_le isI isI M N); [done|done|].
    intros i j Hi Hj HI. specialize (Hnext i j Hi Hj).
    unfold next_state in Hnext. cbv zeta in Hnext.
    destruct (valid_grid_cell M N g i j (conj Hwf Hval) Hi Hj)
      as [H0|[H1|H2]].
    + by rewrite (Hkeep i j Hi Hj H0) in HI.
    + by rewrite H1.
    + rewrite H2 in Hnext. simpl in Hnext. by rewrite Hnext in HI.
Qed.

(** X5. With a recovery rate alpha >= 1 and draws below 1 an infection
    lasts one step: every infected cell is recovered after [step], so on a
    grid of valid states the recovered cells grow by the infected ones, and
    the infected cells of the new grid are the susceptible ones that were
    lost. *)
Theorem step_sure_recovery (g : Grid) pos g' pos' :
  (1 <= Params.alpha params)%Q -> draws_below_1 ->
  wfg M N g -> step g pos = Ok (g', pos') ->
  (forall i j, i < M -> j < N -> cell g i j = Num 1 -> cell g' i j = Num 2) /\
  (Forall (Forall valid_cell) g ->
   count_grid isR g' = count_grid isR g + count_grid isI g /\
   count_grid isI g' + count_grid isS g' = count_grid isS g).
Proof.
  intros Halpha Hdraws Hwf Hstep.
  destruct (step_next g pos g' pos' Hwf Hstep) as (Hwf' & Hnext & Hpos).
  assert (Hgo : forall i j, i < M -> j < N ->
            cell g i j = Num 1 -> cell g' i j = Num 2).
  { intros i j Hi Hj H1. specialize (Hnext i j Hi Hj).
    unfold next_state in Hnext. cbv zeta in Hnext. rewrite H1 in Hnext.
    simpl in Hnext. rewrite Hnext, Qltb_lt; [done|].
    eapply Qlt_le_trans; [apply Hdraws|exact Halpha]. }
  split; [done|]. intros Hval.
  assert (HS : count_grid isS g
               = count_grid (fun c => negb (isR c)) g').
  { apply (count_grid_eq _ _ M N); [done|done|].
    intros i j Hi Hj. specialize (Hnext i j Hi Hj).
    unfold next_state in Hnext. cbv zeta in Hnext.
    destruct (valid_grid_cell M N g i j (conj Hwf Hval) Hi Hj)
      as [H0|[H1|H2]].
    - rewrite H0 in Hnext |- *. simpl in Hnext.
      destruct Hnext as (inf & tot & _ & ->). by destruct (Qltb _ _).
    - by rewrite (Hgo i j Hi Hj H1), H1.
    - rewrite H2 in Hnext |- *. simpl in Hnext. by rewrite Hnext. }
  pose proof (count_grid_total M N g Hwf) as Hsum.
  pose proof (count_grid_total M N g' Hwf') as Hsum'.
  assert (Hneg : count_grid (fun c => negb (isR c)) g'
                 = count_grid isS g' + count_grid isI g').
  { clear. induction g' as [|row g' IH]; [done|]. simpl. rewrite IH.
    assert (count_row (fun c => negb (isR c)) row
            = count_row isS row + count_row isI row) as ->; [|lia].
    clear. induction row as [|c row IH]; [done|]. simpl. rewrite IH.
    destruct c as [z|]; [|done]. unfold isR, isS, isI. simpl.
    destruct (Z.eqb_spec z 0), (Z.eqb_spec z 1); simpl; lia. }
  lia.
Qed.

(** ** The census on the wrapped grid *)

Lemma js_rem_wrap (i : Z) (m : nat) :
  1 <= m -> (0 <= i + Z.of_nat m)%Z ->
  js_rem (i + Z.of_nat m) (Z.of_nat m) = Int (i mod Z.of_nat m) /\
  (0 <= i mod Z.of_nat m < Z.of_nat m)%Z.
Proof.
  intros Hm Hi. unfold js_rem.
  destruct (Z.eqb_spec (Z.of_nat m) 0) as [H0|_]; [lia|].
  rewrite Z.rem_mod_nonneg by lia.
  rewrite <- (Z_mod_plus_full i 1 (Z.of_nat m)), Z.mul_1_l.
  split; [done|]. apply Z.mod_pos_bound. lia.
Qed.

Lemma getNeighbors_around (g : Grid) (x y radius : Z) :
  length g = M -> 1 <= M -> 1 <= N ->
  (0 <= radius <= x + Z.of_nat M)%Z -> (radius <= y + Z.of_nat N)%Z ->
  getNeighbors g x y radius
  = Ok (infected_around g x y radius,
        Z.to_nat ((2 * radius + 1) ^ 2 - 1)).
Proof.
  intros Hlen HM HN Hr Hry.
  assert (H : wp False (getNeighbors g x y radius)
                (fun c => fst c = infected_around g x y radius)).
  { unfold getNeighbors, for_Z, infected_around.
    set (R := Z.to_nat radius).
    replace (Z.to_nat (x + radius - (x - radius) + 1)) with (0 + (2 * R + 1))
      by lia.
    replace (Z.to_nat (y + radius - (y - radius) + 1)) with (0 + (2 * R + 1))
      by lia.
    replace (2 * radius + 1)%Z with (Z.of_nat (0 + (2 * R + 1))) by lia.
    set (rowsum := fun i : Z => sum_list_with (fun j => infected_at g x y i j)
                     (seqZ (y - radius) (Z.of_nat (0 + (2 * R + 1))))).
    apply (for_from_wp False (fun ki c =>
             fst c = sum_list_with rowsum (seqZ (x - radius) (Z.of_nat ki))));
      [done|].
    intros ki [inf0 tot0] Hki Hinv. cbn [fst] in Hinv.
    rewrite seqZ_S, sum_list_with_app. simpl sum_list_with at 2.
    rewrite Nat.add_0_r. unfold rowsum at 2.
    eapply wp_mono;
      [|apply (for_from_wp False (fun kj c =>
           fst c = inf0 + sum_list_with
                            (fun j => infected_at g x y
                                        (x - radius + Z.of_nat ki) j)
                            (seqZ (y - radius) (Z.of_nat kj))))].
    - intros [inf tot] Hinf. cbn [fst] in *. by rewrite Hinf, Hinv.
    - cbn [fst]. simpl. lia.
    - intros kj [inf tot] Hkj Hinf. cbn [fst] in Hinf.
      rewrite seqZ_S, sum_list_with_app. simpl sum_list_with at 2.
      rewrite Nat.add_0_r.
      set (prev := sum_list_with _ (seqZ (y - radius) (Z.of_nat kj))) in *.
      unfold census_cell, infected_at.
      destruct (negb _ || negb _); cbn [andb];
        [|cbn [wp fst]; lia].
      destruct (js_rem_wrap (x - radius + Z.of_nat ki) M HM ltac:(lia))
        as [-> Hrow].
      destruct (js_rem_wrap (y - radius + Z.of_nat kj) N HN ltac:(lia))
        as [-> Hcol].
      set (ii := (_ mod Z.of_nat M)%Z) in *.
      set (jj := (_ mod Z.of_nat N)%Z) in *.
      destruct (lookup_lt_is_Some_2 g (Z.to_nat ii) ltac:(lia)) as [row Hg].
      replace ii with (Z.of_nat (Z.to_nat ii)) at 1 by lia.
      rewrite (row_at_nat g _ row Hg). cbn [bind].
      replace jj with (Z.of_nat (Z.to_nat jj)) at 1 by lia.
      rewrite (cell_at_nat g (Z.to_nat ii) (Z.to_nat jj) row Hg).
      unfold torus_cell, isI. fold ii jj.
      destruct (strict_eq _ _); cbn [wp fst]; lia. }
  destruct (getNeighbors g x y radius) as [[inf tot]| |] eqn:Hnb; try done.
  cbn [wp fst] in H. subst inf.
  destruct (getNeighbors_partial g x y radius _ tot ltac:(lia) Hnb)
    as [_ Htot].
  do 2 f_equal. lia.
Qed.

(** X6. What the census counts: for a grid of M rows, M, N >= 1 and a radius
    with 0 <= r <= x + M and r <= y + N, [getNeighbors] returns as
    [infected] the number of places of the square of side 2r + 1 around
    (x, y), the centre left out, whose cell on the wrapped grid (row and
    column taken modulo M and N) equals 1, next to the total (2r+1)^2 - 1.
    A cell is counted once for every place of the square that wraps onto
    it. *)
Theorem getNeighbors_census (g : Grid) (x y radius : Z) :
  length g = M -> 1 <= M -> 1 <= N ->
  (0 <= radius <= x + Z.of_nat M)%Z -> (radius <= y + Z.of_nat N)%Z ->
  getNeighbors g x y radius
  = Ok (infected_around g x y radius,
        Z.to_nat ((2 * radius + 1) ^ 2 - 1)).
Proof. apply getNeighbors_around. Qed.

(** X7. Infection needs an infected neighbour: in [step] on an M x N grid
    with 0 <= r <= M and r <= N, a susceptible cell becomes infected exactly
    when its draw is below beta times the share of infected places of its
    wrapped neighbourhood; with draws that are never negative a susceptible
    cell without an infected place around it stays susceptible. *)
Theorem step_susceptible (g : Grid) pos g' pos' i j :
  wfg M N g -> (0 <= Params.r params <= Z.of_nat M)%Z ->
  (Params.r params <= Z.of_nat N)%Z ->
  step g pos = Ok (g', pos') -> i < M -> j < N ->
  cell g i j = Num 0 ->
  let around :=
    infected_around g (Z.of_nat i) (Z.of_nat j) (Params.r params) in
  let total := Z.to_nat ((2 * Params.r params + 1) ^ 2 - 1) in
  cell g' i j
  = (if Qltb (Math_random (draw_index g pos i j))
             (infectionProb around total)
     then Num 1 else Num 0) /\
  (draws_nonneg -> around = 0 -> cell g' i j = Num 0).
Proof.
  intros Hwf Hr HrN Hstep Hi Hj H0 around total.
  destruct (step_next g pos g' pos' Hwf Hstep) as (_ & Hnext & _).
  specialize (Hnext i j Hi Hj). unfold next_state in Hnext.
  cbv zeta in Hnext. rewrite H0 in Hnext. simpl in Hnext.
  destruct Hnext as (inf & tot & Hnb & Hc).
  rewrite (getNeighbors_around g (Z.of_nat i) (Z.of_nat j) (Params.r params))
    in Hnb; [|apply Hwf|lia|lia|lia|lia].
  injection Hnb as <- <-. fold around total in Hc.
  split; [done|]. intros Hdraws Hnone. rewrite Hc, Hnone.
  unfold infectionProb. simpl. by rewrite Qltb_ge by apply Hdraws.
Qed.

(** ** Which cells the seeded placement infects *)

Lemma place_cells rng :
  1 <= M -> 1 <= N -> unit_range rng ->
  forall fuel k (g : Grid) used placed g',
    placing rng k g used placed ->
    (forall i j, i < M -> j < N ->
       (Z.of_nat i, Z.of_nat j) ∈ used -> cell g i j = Num 1) ->
    (forall k', k' < k -> size (cells_drawn rng k') < I0) ->
    place fuel rng (2 * k) g used placed = Ok g' ->
    exists k', k <= k' <= k + fuel /\
      size (cells_drawn rng k') = I0 /\
      (forall k'', k'' < k' -> size (cells_drawn rng k'') < I0) /\
      forall i j, i < M -> j < N ->
        cell g' i j
        = if decide ((Z.of_nat i, Z.of_nat j) ∈ cells_drawn rng k')
          then Num 1 else Num 0.
Proof.
  intros HM HN Hrng fuel.
  assert (Hstop : forall k (g : Grid) used placed,
            placing rng k g used placed ->
            (forall i j, i < M -> j < N ->
               (Z.of_nat i, Z.of_nat j) ∈ used -> cell g i j = Num 1) ->
            I0 <= placed ->
            size (cells_drawn rng k) = I0 /\
            forall i j, i < M -> j < N ->
              cell g i j
              = if decide ((Z.of_nat i, Z.of_nat j) ∈ cells_drawn rng k)
                then Num 1 else Num 0).
  { intros k g used placed (Hwf & Hzero & Hused & Hplaced & HI & HR & Hle)
           Hone Hge.
    split; [rewrite <- Hused; lia|].
    intros i j Hi Hj. rewrite <- Hused.
    destruct (decide _); [by apply Hone|by apply Hzero]. }
  induction fuel as [|fuel IH];
    intros k g used placed g' Hpl Hone Hprev; rewrite place_unfold.
  - destruct (Nat.ltb_spec placed I0) as [Hlt|Hge]; [done|].
    intros [= <-]. destruct (Hstop k g used placed Hpl Hone Hge) as [H1 H2].
    exists k. split; [lia|done].
  - destruct (Nat.ltb_spec placed I0) as [Hlt|Hge];
      [|intros [= <-];
        destruct (Hstop k g used placed Hpl Hone Hge) as [H1 H2];
        exists k; split; [lia|done]].
    destruct Hpl as (Hwf & Hzero & Hused & Hplaced & HI & HR & Hle).
    assert (Hprev' : forall k', k' < S k -> size (cells_drawn rng k') < I0).
    { intros k' Hk'. destruct (decide (k' = k)) as [->|Hne].
      - rewrite <- Hused. lia.
      - apply Hprev. lia. }
    cbv zeta. fold (drawn_cell rng k).
    replace (S (S (2 * k))) with (2 * S k) by lia.
    destruct (decide (drawn_cell rng k ∈ used)) as [Hin|Hnotin].
    + intros Hplace.
      apply (IH (S k)) in Hplace as (k' & Hk' & Hrest); [| |done|done].
      * exists k'. split; [lia|done].
      * split; [done|]. split; [done|].
        split; [|done]. rewrite cells_drawn_S, <- Hused.
        symmetry. apply subseteq_union_1_L, singleton_subseteq_l. done.
    + destruct (floor_scaled_range (rng (2 * k)) M) as [Hx0 Hx1];
        [apply Hrng|apply Hrng|done|].
      destruct (floor_scaled_range (rng (S (2 * k))) N) as [Hy0 Hy1];
        [apply Hrng|apply Hrng|done|].
      set (i := Z.to_nat (floor_scaled (rng (2 * k)) M)).
      set (j := Z.to_nat (floor_scaled (rng (S (2 * k))) N)).
      assert (Hci : floor_scaled (rng (2 * k)) M = Z.of_nat i)
        by (unfold i; lia).
      assert (Hcj : floor_scaled (rng (S (2 * k))) N = Z.of_nat j)
        by (unfold j; lia).
      assert (Hc : drawn_cell rng k = (Z.of_nat i, Z.of_nat j)).
      { unfold drawn_cell. by rewrite Hci, Hcj. }
      destruct (set_cell_spec M N g i j (Num 1) Hwf)
        as (g1 & Hset & Hwf1 & Hcell & Hcount); [lia|lia|].
      rewrite Hc in Hnotin |- *.
      rewrite Hci, Hcj, Hset. cbn [bind].
      assert (Hij : cell g i j = Num 0) by (apply Hzero; [lia|lia|done]).
      pose proof (Hcount isI) as HcI. pose proof (Hcount isR) as HcR.
      rewrite Hij in HcI, HcR. simpl in HcI, HcR.
      intros Hplace.
      apply (IH (S k)) in Hplace as (k' & Hk' & Hrest); [| | |done].
      * exists k'. split; [lia|done].
      * split; [done|]. split; [|split; [|split; [|split]]].
        -- intros i' j' Hi' Hj' Hnot. rewrite Hcell.
           apply not_elem_of_union in Hnot as [Hn1 Hn2].
           destruct (decide _) as [[-> ->]|].
           ++ destruct Hn1. by apply elem_of_singleton.
           ++ by apply Hzero.
        -- rewrite cells_drawn_S, Hc, Hused. done.
        -- rewrite size_union by (by apply disjoint_singleton_l).
           rewrite size_singleton. lia.
        -- lia.
        -- split; lia.
      * intros i' j' Hi' Hj' Hin'. rewrite Hcell.
        destruct (decide _) as [_|Hne]; [done|].
        apply elem_of_union in Hin' as [Hin'|Hin']; [|by apply Hone].
        apply elem_of_singleton in Hin'. injection Hin' as Hi'' Hj''.
        destruct Hne. lia.
Qed.

(** X8. Which cells start infected: when the seeded generator stays in
    [0, 1) and M, N >= 1, a grid returned by [makeInitialGrid] has 1 exactly
    at the cells among the first k pairs of draws (row from the first draw
    of a pair, column from the second) and 0 elsewhere, where k is the
    first number of pairs that holds I0 different cells; a pair that falls
    on a cell drawn before is skipped. *)
Theorem makeInitialGrid_cells fuel (g : Grid) :
  1 <= M -> 1 <= N -> unit_range (seedrandom initSeed) ->
  makeInitialGrid fuel = Ok g ->
  exists k, k <= fuel /\
    size (cells_drawn (seedrandom initSeed) k) = I0 /\
    (forall k', k' < k -> size (cells_drawn (seedrandom initSeed) k') < I0) /\
    forall i j, i < M -> j < N ->
      cell g i j
      = if decide ((Z.of_nat i, Z.of_nat j)
                   ∈ cells_drawn (seedrandom initSeed) k)
        then Num 1 else Num 0.
Proof.
  intros HM HN Hrng Hmake. unfold makeInitialGrid in Hmake. cbv zeta in Hmake.
  apply (place_cells _ HM HN Hrng fuel 0) in Hmake
    as (k & Hk & Hrest).
  - exists k. split; [lia|done].
  - split; [apply wfg_zeros|].
    split; [intros i j Hi Hj _; by apply cell_zeros|].
    split; [done|]. split; [done|].
    split; [by apply count_grid_zeros|].
    split; [by apply count_grid_zeros|lia].
  - intros i j _ _ Hin. by apply elem_of_empty in Hin.
  - intros k' Hk'. lia.
Qed.

(** X9. A grid without rows cannot be seeded: for M = 0 and I0 >= 1 the
    first pass of the placement loop writes into row 0 of an empty array,
    so [makeInitialGrid] throws a TypeError, whatever N, the seed and the
    generator are. *)
Theorem makeInitialGrid_no_rows fuel :
  M = 0 -> 1 <= I0 -> 1 <= fuel -> makeInitialGrid fuel = Throw TypeError.
Proof.
  intros HM HI Hfuel. unfold makeInitialGrid. cbv zeta.
  destruct fuel as [|fuel]; [lia|]. rewrite place_unfold.
  destruct (Nat.ltb_spec 0 I0) as [_|]; [|lia]. cbv zeta.
  rewrite decide_False by apply not_elem_of_empty.
  assert (Hx : floor_scaled (seedrandom initSeed 0) M = 0%Z).
  { rewrite HM. unfold floor_scaled, Qfloor, Qmult. simpl.
    rewrite Z.mul_0_r. apply Zdiv_0_l. }
  rewrite Hx, HM. reflexivity.
Qed.

(** ** The two ways to run, compared *)

(** X10. The headless run is the step function iterated: for an M x N
    initial grid, a history returned by [runOnceNoAnimate] has T + 1
    records, the record at index t is { t, counts of the grid after t
    steps }, and the run consumed exactly the draws of those T steps, each
    step starting at the draw where the one before stopped. *)
Theorem runOnceNoAnimate_iterates (init : Grid) pos hist pos' :
  wfg M N init ->
  runOnceNoAnimate (Some init) pos = Ok (hist, pos') ->
  length hist = S T /\
  (exists gT, steps T init pos = Ok (gT, pos')) /\
  forall t, t <= T ->
    exists gt pt, steps t init pos = Ok (gt, pt) /\
                  hist !! t = Some (record_of t (counts gt)).
Proof. apply runOnceNoAnimate_steps. Qed.

(** X11. The visible run against the headless one: started from the same
    M x N grid at the same draw and left to fire at least T times, the
    visible run makes the same T steps with the same draws; its record k
    carries the counts of the headless record k + 1 under the time k, and
    the grid it shows at the end has the counts of the last headless
    record. *)
Theorem visibleRun_headless (init : Grid) firings running frames ref pos
        hist p1 app' p2 :
  wfg M N init -> T <= firings ->
  runOnceNoAnimate (Some init) pos = Ok (hist, p1) ->
  visibleRun firings (App.mk running (Some init) [] 0 frames ref) pos
  = Ok (app', p2) ->
  p2 = p1 /\ App.time app' = T /\ length (App.history app') = T /\
  (forall k, k < T ->
     exists x, hist !! S k = Some x /\
               App.history app' !! k
               = Some (StepRecord.mk k (StepRecord.s x) (StepRecord.i x)
                                     (StepRecord.r x))) /\
  exists g x, App.grid app' = Some g /\ hist !! T = Some x /\
              countStates g
              = Ok (StepRecord.s x, StepRecord.i x, StepRecord.r x).
Proof.
  intros Hwf Hfir Hrun Hvis. unfold visibleRun in Hvis.
  destruct (runOnceNoAnimate_steps init pos hist p1 Hwf Hrun)
    as (Hlen & (gT & HgT) & Hrec).
  apply (fire_steps firings _ init) in Hvis; [|done|done|done|simpl; lia].
  cbn [App.isRunning App.time App.history App.animationRef
       App.initGridRef App.grid] in Hvis. cbv zeta in Hvis.
  replace (Nat.min firings (T - 0)) with T in Hvis by lia.
  destruct Hvis as ((gn & Hgn & Hgrid) & Htime & Hlh & _ & _ & _ & _ & Hnew).
  rewrite HgT in Hgn. injection Hgn as <- <-.
  split; [done|]. split; [done|]. split; [simpl in Hlh; lia|]. split.
  - intros k Hk. destruct (Hnew k Hk) as (gm & pm & Hsm & Hh & _).
    destruct (Hrec (S k) ltac:(lia)) as (gt & pt & Hst & Hx).
    rewrite Hsm in Hst. injection Hst as <- <-.
    exists (record_of (S k) (counts gm)). split; [done|].
    simpl in Hh. rewrite Hh. done.
  - destruct (Hrec T ltac:(lia)) as (gt & pt & Hst & Hx).
    rewrite HgT in Hst. injection Hst as <- <-.
    exists gT, (record_of T (counts gT)). split; [done|]. split; [done|].
    apply countStates_counts. by apply (steps_wfg T init pos gT p1).
Qed.

(** X12. The frames kept for the GIF: a visible run from an M x N grid at
    time 0 appends one frame for every step it makes, min(firings, T) in
    all; the m-th new frame is the grid after m + 1 steps, the frames that
    were there stay, and the initial grid itself is never stored. *)
Theorem visibleRun_frames (init : Grid) firings running h frames ref pos
        app' pos' :
  wfg M N init ->
  visibleRun firings (App.mk running (Some init) h 0 frames ref) pos
  = Ok (app', pos') ->
  length (App.animationRef app') = length frames + Nat.min firings T /\
  (forall m, m < length frames -> App.animationRef app' !! m = frames !! m) /\
  (forall m, m < Nat.min firings T ->
     exists gm pm, steps (S m) init pos = Ok (gm, pm) /\
                   App.animationRef app' !! (length frames + m) = Some gm) /\
  App.initGridRef app' = ref.
Proof.
  intros Hwf Hvis. unfold visibleRun in Hvis.
  apply (fire_steps firings _ init) in Hvis; [|done|done|done|simpl; lia].
  cbn [App.isRunning App.time App.history App.animationRef
       App.initGridRef App.grid] in Hvis. cbv zeta in Hvis.
  replace (T - 0) with T in Hvis by lia.
  destruct Hvis as (_ & _ & _ & Hla & Href & _ & Hold & Hnew).
  split; [done|]. split; [done|]. split; [|done].
  intros m Hm. destruct (Hnew m Hm) as (gm & pm & Hsm & _ & Ha).
  by exists gm, pm.
Qed.

(** ** The exported payload *)

Lemma accumulate_length (hist : list StepRecord.record) accS accI accR :
  wp True (accumulate hist (accS, accI, accR)) (fun acc' =>
    length (fst (fst acc')) = length accS /\
    length (snd (fst acc')) = length accI /\
    length (snd acc') = length accR).
Proof.
  unfold accumulate.
  apply (for_from_wp True (fun _ acc' =>
    length (fst (fst acc')) = length accS /\
    length (snd (fst acc')) = length accI /\
    length (snd acc') = length accR)); [done|].
  intros t [[aS aI] aR] _ (HS & HI & HR). cbn [fst snd] in *.
  unfold record_at. destruct (hist !! t) as [x|]; [|done].
  cbn [bind wp fst snd]. unfold add_at. by rewrite !length_alter.
Qed.

Lemma exportNexpJSON_frame fuel app pos app' payload pos' :
  exportNexpJSON fuel app pos = Ok (app', payload, pos') ->
  app' = App.mk (App.isRunning app) (App.grid app) (App.history app)
                (App.time app) (App.animationRef app)
                (App.initGridRef app') /\
  Payload.meta payload
  = Meta.mk "grid" params Nexp initSeed
            "Fixed-seed initial infected; headless Nexp averaging" /\
  Mean.t (Payload.mean payload) = seq 0 (S T) /\
  length (Mean.s (Payload.mean payload)) = S T /\
  length (Mean.i (Payload.mean payload)) = S T /\
  length (Mean.r (Payload.mean payload)) = S T.
Proof.
  intros Heq.
  assert (H : rwp True (exportNexpJSON fuel app) pos (fun out _ =>
    fst out = App.mk (App.isRunning app) (App.grid app) (App.history app)
                     (App.time app) (App.animationRef app)
                     (App.initGridRef (fst out)) /\
    Payload.meta (snd out)
    = Meta.mk "grid" params Nexp initSeed
              "Fixed-seed initial infected; headless Nexp averaging" /\
    Mean.t (Payload.mean (snd out)) = seq 0 (S T) /\
    length (Mean.s (Payload.mean (snd out))) = S T /\
    length (Mean.i (Payload.mean (snd out))) = S T /\
    length (Mean.r (Payload.mean (snd out))) = S T)).
  { unfold exportNexpJSON. apply rwp_bind, rwp_lift.
    destruct (match App.initGridRef app with
              | Some g => Ok g
              | None => makeInitialGrid fuel
              end) as [init| |]; cbn [wp]; try done.
    apply rwp_bind. cbn [App.initGridRef].
    eapply rwp_mono;
      [|apply (for_rand_wp True (fun _ st _ =>
           length (fst (fst (snd st))) = S T /\
           length (snd (fst (snd st))) = S T /\
           length (snd (snd st)) = S T))].
    - intros [runs [[aS aI] aR]] p (HS & HI & HR). cbn [fst snd] in *.
      apply rwp_lift. cbn [wp fst snd Payload.meta Payload.mean Mean.t
                              Mean.s Mean.i Mean.r App.initGridRef].
      rewrite !length_map. done.
    - cbn [fst snd]. by rewrite length_replicate.
    - intros k [runs [[aS aI] aR]] p _ (HS & HI & HR). cbn [fst snd] in *.
      apply rwp_bind. unfold rwp at 1.
      destruct (runOnceNoAnimate (Some init) p) as [[hist p']| |];
        cbn [wp]; try done.
      cbn [fst snd]. apply rwp_bind, rwp_lift.
      eapply wp_mono; [|apply accumulate_length].
      intros [[aS' aI'] aR'] (HS' & HI' & HR'). cbn [fst snd] in *.
      apply rwp_lift. cbn [wp fst snd]. lia. }
  unfold rwp in H. rewrite Heq in H. exact H.
Qed.

Lemma run_of_times (init : Grid) (hist : list StepRecord.record) :
  length hist = S T -> history_ok init hist ->
  map StepRecord.t hist = seq 0 (S T).
Proof.
  intros Hlen (Hrec & _ & _). apply list_eq. intros k.
  rewrite list_lookup_fmap.
  destruct (decide (k < S T)) as [Hk|Hk].
  - destruct (lookup_lt_is_Some_2 hist k ltac:(lia)) as [x Hx].
    rewrite Hx. cbn [fmap option_fmap option_map].
    destruct (Hrec k x Hx) as [-> _].
    symmetry. by apply (lookup_seq_lt 0).
  - rewrite lookup_ge_None_2 by lia. cbn [fmap option_fmap option_map].
    symmetry. apply lookup_seq_ge. lia.
Qed.

(** X14. The shape of the export: whenever [exportNexpJSON] returns (M x N
    cached grid, if any; M, N >= 1; seeded generator in [0, 1)), the
    payload carries the meta block of the current parameters, Nexp runs
    with [run_id] 0, 1, ... in order, each with [t] = 0..T and T + 1 values
    of s, i and r, and a mean block with [t] = 0..T and T + 1 values each;
    of the component only [initGridRef] may have changed. *)
Theorem exportNexpJSON_payload fuel app pos app' payload pos' :
  (forall g : Grid, App.initGridRef app = Some g -> wfg M N g) ->
  1 <= M -> 1 <= N -> unit_range (seedrandom initSeed) ->
  exportNexpJSON fuel app pos = Ok (app', payload, pos') ->
  (App.isRunning app' = App.isRunning app /\
   App.grid app' = App.grid app /\ App.history app' = App.history app /\
   App.time app' = App.time app /\
   App.animationRef app' = App.animationRef app) /\
  Payload.meta payload
  = Meta.mk "grid" params Nexp initSeed
            "Fixed-seed initial infected; headless Nexp averaging" /\
  length (Payload.runs payload) = Nexp /\
  (forall k run, Payload.runs payload !! k = Some run ->
     RunResult.run_id run = k /\
     RunResult.t run = seq 0 (S T) /\
     length (RunResult.s run) = S T /\
     length (RunResult.i run) = S T /\
     length (RunResult.r run) = S T) /\
  Mean.t (Payload.mean payload) = seq 0 (S T) /\
  length (Mean.s (Payload.mean payload)) = S T /\
  length (Mean.i (Payload.mean payload)) = S T /\
  length (Mean.r (Payload.mean payload)) = S T.
Proof.
  intros Href HM HN Hrng Heq.
  destruct (exportNexpJSON_frame fuel app pos app' payload pos' Heq)
    as (Happ & Hmeta & Ht & HlS & HlI & HlR).
  destruct (exportNexpJSON_spec fuel app pos app' payload pos'
              Href HM HN Hrng Heq)
    as (init & _ & _ & _ & Hlen & Hruns & _).
  split; [by rewrite Happ|]. split; [done|]. split; [done|].
  split; [|done].
  intros k run Hk. destruct (Hruns k run Hk) as (hist & -> & Hlh & Hok).
  unfold run_of. cbn [RunResult.run_id RunResult.t RunResult.s RunResult.i
                      RunResult.r].
  rewrite !length_map. split; [done|].
  split; [by apply (run_of_times init)|done].
Qed.

(** X15. An export without runs: for Nexp = 0 nothing is simulated and no
    draw is made; the payload has no runs and every mean value is 0 / 0,
    that is NaN, T + 1 times. *)
Theorem exportNexpJSON_no_runs fuel app pos init :
  Nexp = 0 -> initial_grid fuel app = Ok init ->
  exportNexpJSON fuel app pos
  = Ok (App.mk (App.isRunning app) (App.grid app) (App.history app)
               (App.time app) (App.animationRef app) (Some init),
        Payload.mk
          (Meta.mk "grid" params 0 initSeed
                   "Fixed-seed initial infected; headless Nexp averaging")
          []
          (Mean.mk (seq 0 (S T)) (replicate (S T) NotANumber)
                   (replicate (S T) NotANumber) (replicate (S T) NotANumber)),
        pos).
Proof.
  intros HN Hinit. unfold exportNexpJSON, initial_grid in *.
  unfold rbind at 1. unfold lift at 1. rewrite Hinit. cbn [bind].
  rewrite HN. unfold rbind. cbn [for_rand]. unfold lift. cbn [bind].
  rewrite !fmap_replicate. reflexivity.
Qed.

(** ** The means of a batch *)

Lemma nth_run_of f (hist : list StepRecord.record) t x :
  hist !! t = Some x -> nth t (map f hist) 0 = f x.
Proof.
  intros Hx. apply (nth_lookup_Some _ _ 0).
  by rewrite list_lookup_fmap, Hx.
Qed.

Lemma sum_list_with_le {A} (f g : A -> nat) (l : list A) :
  (forall x, x ∈ l -> f x <= g x) ->
  sum_list_with f l <= sum_list_with g l.
Proof.
  induction l as [|x l IH]; intros H; simpl; [done|].
  assert (f x <= g x) by (apply H; by left).
  assert (sum_list_with f l <= sum_list_with g l)
    by (apply IH; intros y Hy; apply H; by right).
  lia.
Qed.



Lemma totals_monotone (init : Grid) runs t t' :
  runs_ok init runs -> Forall (Forall valid_cell) init ->
  t <= t' -> t' <= T ->
  total_at RunResult.r t runs <= total_at RunResult.r t' runs /\
  total_at RunResult.s t' runs <= total_at RunResult.s t runs.
Proof.
  intros Hruns Hval Htt Ht'. unfold total_at.
  split; apply sum_list_with_le; intros run Hin;
    apply list_elem_of_lookup_1 in Hin as [k Hk];
    destruct (Hruns k run Hk) as (hist & -> & Hlen & _ & _ & Hmono);
    destruct (lookup_lt_is_Some_2 hist t ltac:(lia)) as [a Ha];
    destruct (lookup_lt_is_Some_2 hist t' ltac:(lia)) as [b Hb];
    unfold run_of; cbn [RunResult.s RunResult.r];
    rewrite (nth_run_of _ hist t a Ha), (nth_run_of _ hist t' b Hb);
    by destruct (Hmono Hval t t' a b Htt Ha Hb).
Qed.

Lemma makeInitialGrid_valid fuel (g : Grid) :
  1 <= M -> 1 <= N -> unit_range (seedrandom initSeed) ->
  makeInitialGrid fuel = Ok g -> valid_grid M N g.
Proof.
  intros HM HN Hrng Hmake.
  pose proof (makeInitialGrid_spec fuel HM HN Hrng) as Hspec.
  rewrite Hmake in Hspec. destruct Hspec as [Hwf _].
  unfold makeInitialGrid in Hmake. cbv zeta in Hmake.
  apply (place_cells _ HM HN Hrng fuel 0) in Hmake
    as (k & _ & _ & _ & Hcells).
  - apply valid_grid_intro; [done|]. intros i j Hi Hj.
    rewrite (Hcells i j Hi Hj). destruct (decide _); [right; by left|by left].
  - split; [apply wfg_zeros|].
    split; [intros i j Hi Hj _; by apply cell_zeros|].
    split; [done|]. split; [done|].
    split; [by apply count_grid_zeros|].
    split; [by apply count_grid_zeros|lia].
  - intros i j _ _ Hin. by apply elem_of_empty in Hin.
  - intros k' Hk'. lia.
Qed.

Lemma js_div_Quot v n :
  1 <= n ->
  js_div v n = Quot (inject_Z (Z.of_nat v) / inject_Z (Z.of_nat n)).
Proof. intros Hn. destruct n; [lia|done]. Qed.


(** X17. The means move one way: for Nexp >= 1 and an initial grid of valid
    states (a cached one, or the seeded one), the mean number of recovered
    cells never decreases from one time to a later one, and the mean number
    of susceptible cells never increases. *)
Theorem exportNexpJSON_mean_monotone fuel app pos app' payload pos' t t' :
  1 <= Nexp ->
  (forall g : Grid, App.initGridRef app = Some g -> valid_grid M N g) ->
  1 <= M -> 1 <= N -> unit_range (seedrandom initSeed) ->
  exportNexpJSON fuel app pos = Ok (app', payload, pos') ->
  t <= t' -> t' <= T ->
  exists r1 r2 s1 s2,
    Mean.r (Payload.mean payload) !! t = Some r1 /\
    Mean.r (Payload.mean payload) !! t' = Some r2 /\
    Mean.s (Payload.mean payload) !! t = Some s1 /\
    Mean.s (Payload.mean payload) !! t' = Some s2 /\
    quot_le r1 r2 /\ quot_le s2 s1.
Proof.
  intros HNexp Href HM HN Hrng Heq Htt Ht'.
  destruct (exportNexpJSON_spec fuel app pos app' payload pos'
              (fun g Hg => proj1 (Href g Hg)) HM HN Hrng Heq)
    as (init & Hinit & _ & _ & Hlen & Hruns & _ & Hmean).
  assert (Hval : Forall (Forall valid_cell) init).
  { unfold initial_grid in Hinit.
    destruct (App.initGridRef app) as [g|] eqn:Hg.
    - injection Hinit as <-. by destruct (Href g eq_refl).
    - by destruct (makeInitialGrid_valid fuel init HM HN Hrng Hinit). }
  destruct (Hmean t ltac:(lia)) as (HS & _ & HR).
  destruct (Hmean t' Ht') as (HS' & _ & HR').
  rewrite js_div_Quot in HS, HR, HS', HR' by done.
  destruct (totals_monotone init _ t t' Hruns Hval Htt Ht') as [Hr Hs].
  eexists _, _, _, _. split; [exact HR|]. split; [exact HR'|].
  split; [exact HS|]. split; [exact HS'|].
  assert (Hinv : (0 <= / inject_Z (Z.of_nat Nexp))%Q).
  { apply Qinv_le_0_compat. change 0%Q with (inject_Z 0).
    rewrite <- Zle_Qle. lia. }
  split; simpl; unfold Qdiv; apply Qmult_le_compat_r; try done;
    rewrite <- Zle_Qle; lia.
Qed.

(** ** Resetting, and the counters next to the canvas *)

Lemma for_from_split {A} n1 :
  forall n2 start (body : nat -> A -> result A) acc,
    for_from (n1 + n2) start body acc
    = (acc' <- for_from n1 start body acc ;;
       for_from n2 (start + n1) body acc').
Proof.
  induction n1 as [|n1 IH]; intros n2 start body acc.
  - simpl. by rewrite Nat.add_0_r.
  - simpl. destruct (body start acc) as [a| |]; simpl; [|done|done].
    rewrite IH. by replace (S start + n1) with (start + S n1) by lia.
Qed.

(** X18. Changing M, N or I0 starts afresh: whatever the component held
    (a kept initial grid of another size, a history, frames), the
    re-initialisation effect shows the seeded M x N grid, keeps it as the
    initial grid of later runs, empties the history and the frames and sets
    the time to 0, so that the counters show M*N - I0, I0 and 0 (for a
    seeded generator in [0, 1) that has produced I0 different cells). *)
Theorem reinitialize_fresh fuel app :
  1 <= M -> 1 <= N -> unit_range (seedrandom initSeed) ->
  I0 <= size (cells_drawn (seedrandom initSeed) fuel) ->
  exists init,
    makeInitialGrid fuel = Ok init /\
    reinitialize fuel app
    = Ok (App.mk (App.isRunning app) (Some init) [] 0 [] (Some init)) /\
    shown_counts (App.mk (App.isRunning app) (Some init) [] 0 [] (Some init))
    = Ok (M * N - I0, I0, 0).
Proof.
  intros HM HN Hrng Hsize.
  destruct (makeInitialGrid_exact fuel HM HN Hrng Hsize)
    as (init & Hmake & Hwf & Hcount).
  exists init. split; [done|]. split; [|done].
  unfold reinitialize, initializeGrid. cbn [App.initGridRef App.isRunning].
  rewrite Hmake. cbn [bind]. by rewrite clone_id.
Qed.

(** X19. The counters agree with the chart: after a visible run from an
    M x N grid at time 0 that made at least one step, the counts shown next
    to the canvas are those of the last record of the history, and the time
    shown is one more than the time of that record. *)
Theorem visibleRun_shown (init : Grid) firings running frames ref pos
        app' pos' :
  wfg M N init -> 1 <= firings -> 1 <= T ->
  visibleRun firings (App.mk running (Some init) [] 0 frames ref) pos
  = Ok (app', pos') ->
  exists x, last (App.history app') = Some x /\
            shown_counts app'
            = Ok (StepRecord.s x, StepRecord.i x, StepRecord.r x) /\
            App.time app' = S (StepRecord.t x).
Proof.
  intros Hwf Hfir HT Hvis. unfold visibleRun in Hvis.
  apply (fire_steps firings _ init) in Hvis; [|done|done|done|simpl; lia].
  cbn [App.isRunning App.time App.history App.animationRef
       App.initGridRef App.grid] in Hvis. cbv zeta in Hvis.
  replace (T - 0) with T in Hvis by lia.
  set (n := Nat.min firings T) in *.
  destruct Hvis as ((gn & Hgn & Hgrid) & Htime & Hlh & _ & _ & _ & _ & Hnew).
  destruct (Hnew (n - 1) ltac:(lia)) as (gm & pm & Hsm & Hh & _).
  replace (S (n - 1)) with n in Hsm by lia.
  rewrite Hgn in Hsm. injection Hsm as <- <-.
  simpl in Hh, Hlh.
  exists (record_of (n - 1) (counts gn)). split; [|split].
  - rewrite last_lookup, Hlh. by replace (pred n) with (n - 1) by lia.
  - unfold shown_counts. rewrite Hgrid.
    apply countStates_counts. by apply (steps_wfg n init pos gn pos').
  - simpl. lia.
Qed.

Lemma countStates_rows_missing (g : Grid) :
  length g < M -> 1 <= N -> countStates g = Throw TypeError.
Proof.
  intros Hlen HN. unfold countStates.
  replace M with (length g + S (M - length g - 1)) by lia.
  rewrite for_from_split.
  set (body := fun (x : nat) (acc : nat * nat * nat) => for_from N 0 _ acc).
  assert (H : wp False (for_from (length g) 0 body (0, 0, 0))
                (fun _ => True)).
  { eapply wp_mono;
      [|apply (for_from_wp False (fun _ _ => True))]; [done|done|].
    intros x acc Hx _. unfold body.
    eapply wp_mono;
      [|apply (for_from_wp False (fun _ _ => True))]; [done|done|].
    intros y [[s i] r] _ _.
    destruct (lookup_lt_is_Some_2 g x ltac:(lia)) as [row Hrow].
    rewrite (row_at_nat g x row Hrow). cbn [bind].
    destruct (strict_eq _ (Num 0)); [done|].
    by destruct (strict_eq _ (Num 1)). }
  apply wp_total in H as ([[s i] r] & -> & _). cbn [bind].
  cbn [for_from]. unfold body at 1.
  destruct N as [|n] eqn:HNn; [lia|]. cbn [for_from].
  unfold row_at. rewrite index_nat, Nat.add_0_l.
  by rewrite lookup_ge_None_2 by lia.
Qed.

(** X20. What [countStates] returns: on an M x N grid it returns the number
    of cells equal to 0, the number equal to 1, and the number of all other
    cells as r, whatever those hold; on a grid with fewer than M rows (and
    N >= 1) it throws a TypeError. *)
Theorem countStates_exact (g : Grid) :
  (wfg M N g ->
   countStates g
   = Ok (count_grid isS g, count_grid isI g, count_grid isR g)) /\
  (length g < M -> 1 <= N -> countStates g = Throw TypeError).
Proof.
  split; [apply countStates_counts|apply countStates_rows_missing].
Qed.

(** ** The unseeded placement of the older component *)

Lemma App_initializeGrid_wp pos :
  1 <= M -> 1 <= N -> unit_range Math_random ->
  rwp False App_initializeGrid pos (fun g pos' =>
    pos' = pos + 2 * I0 /\ wfg M N g /\
    (forall i j, i < M -> j < N ->
       cell g i j
       = if decide ((Z.of_nat i, Z.of_nat j)
                    ∈ cells_drawn (draws_from pos) I0)
         then Num 1 else Num 0) /\
    count_grid isI g = size (cells_drawn (draws_from pos) I0) /\
    count_grid isI g <= I0 /\
    count_grid isR g = 0).
Proof.
  intros HM HN Hrng. unfold App_initializeGrid.
  eapply rwp_mono;
    [|apply (for_rand_wp False (fun k g p =>
         p = pos + 2 * k /\ wfg M N g /\
         (forall i j, i < M -> j < N ->
            cell g i j
            = if decide ((Z.of_nat i, Z.of_nat j)
                         ∈ cells_drawn (draws_from pos) k)
              then Num 1 else Num 0) /\
         count_grid isI g = size (cells_drawn (draws_from pos) k) /\
         count_grid isI g <= k /\
         count_grid isR g = 0))].
  - intros g p H. exact H.
  - split; [lia|]. split; [apply wfg_zeros|].
    split; [intros i j Hi Hj; by rewrite cell_zeros|].
    split; [by rewrite count_grid_zeros|].
    split; [by rewrite count_grid_zeros|by apply count_grid_zeros].
  - intros k g p Hk (-> & Hwf & Hcells & HI & Hle & HR).
    apply rwp_bind, rwp_random. apply rwp_bind, rwp_random.
    apply rwp_lift.
    replace (Math_random (pos + 2 * k)) with (draws_from pos (2 * k))
      by reflexivity.
    replace (Math_random (S (pos + 2 * k)))
      with (draws_from pos (S (2 * k)))
      by (unfold draws_from; f_equal; lia).
    assert (Hrng' : unit_range (draws_from pos)) by (intros n; apply Hrng).
    destruct (floor_scaled_range (draws_from pos (2 * k)) M) as [Hx0 Hx1];
      [apply Hrng'|apply Hrng'|done|].
    destruct (floor_scaled_range (draws_from pos (S (2 * k))) N)
      as [Hy0 Hy1]; [apply Hrng'|apply Hrng'|done|].
    set (i := Z.to_nat (floor_scaled (draws_from pos (2 * k)) M)).
    set (j := Z.to_nat (floor_scaled (draws_from pos (S (2 * k))) N)).
    assert (Hci : floor_scaled (draws_from pos (2 * k)) M = Z.of_nat i)
      by (unfold i; lia).
    assert (Hcj : floor_scaled (draws_from pos (S (2 * k))) N = Z.of_nat j)
      by (unfold j; lia).
    assert (Hc : drawn_cell (draws_from pos) k = (Z.of_nat i, Z.of_nat j)).
    { unfold drawn_cell. by rewrite Hci, Hcj. }
    destruct (set_cell_spec M N g i j (Num 1) Hwf)
      as (g' & Hset & Hwf' & Hcell & Hcount); [lia|lia|].
    rewrite Hci, Hcj, Hset. cbn [wp fst snd].
    pose proof (Hcount isI) as HcI. pose proof (Hcount isR) as HcR.
    rewrite (Hcells i j) in HcI, HcR by lia.
    rewrite cells_drawn_S, Hc.
    split; [lia|]. split; [done|]. split; [|split; [|split]].
    + intros i' j' Hi' Hj'. rewrite Hcell.
      destruct (decide (i' = i /\ j' = j)) as [[-> ->]|Hne].
      * rewrite decide_True; [done|].
        apply elem_of_union_l. by apply elem_of_singleton.
      * rewrite (Hcells i' j' Hi' Hj').
        destruct (decide ((Z.of_nat i', Z.of_nat j')
                          ∈ cells_drawn (draws_from pos) k)) as [Hin|Hnin].
        -- rewrite decide_True; [done|]. by apply elem_of_union_r.
        -- rewrite decide_False; [done|].
           apply not_elem_of_union. split; [|done].
           intros Heq. apply elem_of_singleton in Heq.
           injection Heq as Hi'' Hj''. destruct Hne. lia.
    + destruct (decide ((Z.of_nat i, Z.of_nat j)
                        ∈ cells_drawn (draws_from pos) k)) as [Hin|Hnin].
      * simpl in HcI.
        replace ({[(Z.of_nat i, Z.of_nat j)]} ∪ cells_drawn (draws_from pos) k)
          with (cells_drawn (draws_from pos) k); [lia|].
        symmetry. apply subseteq_union_1_L, singleton_subseteq_l. done.
      * simpl in HcI.
        rewrite size_union by (by apply disjoint_singleton_l).
        rewrite size_singleton. lia.
    + destruct (decide ((Z.of_nat i, Z.of_nat j)
                        ∈ cells_drawn (draws_from pos) k));
        simpl in HcI; lia.
    + destruct (decide ((Z.of_nat i, Z.of_nat j)
                        ∈ cells_drawn (draws_from pos) k));
        simpl in HcR; lia.
Qed.

(** X21. The placement of the older component: [initializeGrid] of
    [App.jsx] makes 2 * I0 draws and, for draws in [0, 1) and M, N >= 1,
    returns an M x N grid that holds 1 exactly at the cells drawn (row from
    the first draw of each pair, column from the second) and 0 elsewhere.
    Its number of infected cells is the number of different cells among
    the I0 drawn ones, never more than I0. *)
Theorem App_initializeGrid_cells pos :
  1 <= M -> 1 <= N -> unit_range Math_random ->
  exists g,
    App_initializeGrid pos = Ok (g, pos + 2 * I0) /\ wfg M N g /\
    (forall i j, i < M -> j < N ->
       cell g i j
       = if decide ((Z.of_nat i, Z.of_nat j)
                    ∈ cells_drawn (draws_from pos) I0)
         then Num 1 else Num 0) /\
    count_grid isI g = size (cells_drawn (draws_from pos) I0) /\
    count_grid isI g <= I0 /\
    count_grid isR g = 0.
Proof.
  intros HM HN Hrng.
  pose proof (App_initializeGrid_wp pos HM HN Hrng) as H. unfold rwp in H.
  destruct (App_initializeGrid pos) as [[g p]| |]; cbn [wp fst snd] in H;
    try done.
  destruct H as (-> & H). by exists g.
Qed.

(** ** Further consequences *)

(** X22. The counters need a grid as tall as M: when the grid held by the
    component has fewer than M rows (and N >= 1), evaluating the counters
    shown beside the canvas throws a TypeError. *)
Theorem shown_counts_stale app (g : Grid) :
  App.grid app = Some g -> length g < M -> 1 <= N ->
  shown_counts app = Throw TypeError.
Proof.
  intros Hg Hlen HN. unfold shown_counts. rewrite Hg.
  by apply countStates_rows_missing.
Qed.

(** X23. [step] keeps the states in range: whatever the cells of an M x N
    grid hold, the grid returned by [step] is an M x N grid whose cells are
    0, 1 or 2; a cell that held anything but 1 or 2 is handled as
    susceptible. *)
Theorem step_range (g : Grid) pos g' pos' :
  wfg M N g -> step g pos = Ok (g', pos') ->
  valid_grid M N g' /\
  forall i j, i < M -> j < N ->
    cell g i j <> Num 1 -> cell g i j <> Num 2 ->
    cell g' i j = Num 0 \/ cell g' i j = Num 1.
Proof.
  intros Hwf Hstep.
  destruct (step_wfg g pos g' pos' Hwf Hstep) as (Hwf' & Htr & _).
  split.
  - apply valid_grid_intro; [done|]. intros i j Hi Hj.
    by apply (transition_valid (cell g i j)), Htr.
  - intros i j Hi Hj H1 H2. specialize (Htr i j Hi Hj).
    unfold transition in Htr.
    destruct (cell g i j) as [z|]; [|exact Htr].
    unfold is2, isI in Htr. simpl in Htr.
    destruct (Z.eqb_spec z 2) as [Hz|_]; [by subst z|].
    destruct (Z.eqb_spec z 1) as [Hz|_]; [by subst z|].
    exact Htr.
Qed.

Lemma steps_draws t :
  forall (init : Grid) pos gt pt (hist : list StepRecord.record),
    valid_grid M N init ->
    (forall k, k < t -> exists gk pk,
        steps k init pos = Ok (gk, pk) /\
        hist !! k = Some (record_of k (counts gk))) ->
    steps t init pos = Ok (gt, pt) ->
    pt = pos + sum_list_with (fun x => StepRecord.s x + StepRecord.i x)
                             (take t hist).
Proof.
  induction t as [|t IH]; intros init pos gt pt hist Hval Hrec Hst.
  - simpl in Hst. unfold lift in Hst. simpl in Hst. injection Hst as <- <-.
    rewrite take_0. simpl. lia.
  - replace (S t) with (t + 1) in Hst by lia.
    apply steps_split in Hst as (g1 & p1 & H1 & H2).
    destruct (Hrec t ltac:(lia)) as (gk & pk & Hk & Hx).
    rewrite H1 in Hk. injection Hk as <- <-.
    rewrite (take_S_r hist t _ Hx), sum_list_with_app.
    pose proof (IH init pos g1 p1 hist Hval
                  ltac:(intros k Hk; apply Hrec; lia) H1) as Hp1.
    simpl in H2. unfold rbind, lift in H2.
    destruct (step g1 p1) as [[g2 p2]| |] eqn:Hs; try done.
    simpl in H2. injection H2 as <- <-.
    pose proof (steps_valid t init pos g1 p1 Hval H1) as [Hwf1 Hv1].
    destruct (step_wfg g1 p1 g2 p2 Hwf1 Hs) as (_ & _ & Hp2).
    rewrite (count_draws_valid g1 Hv1) in Hp2. simpl. lia.
Qed.

(** X24. What a run costs in draws: a headless run from a grid of valid
    states consumes, at every step, one draw per cell that is susceptible or
    infected, so the draws of the whole run are the sum of s + i over its
    first T records (the last record is followed by no step). *)
Theorem runOnceNoAnimate_draws (init : Grid) pos hist pos' :
  valid_grid M N init ->
  runOnceNoAnimate (Some init) pos = Ok (hist, pos') ->
  pos' = pos + sum_list_with (fun x => StepRecord.s x + StepRecord.i x)
                             (take T hist).
Proof.
  intros Hval Hrun.
  destruct (runOnceNoAnimate_steps init pos hist pos' (proj1 Hval) Hrun)
    as (_ & (gT & HgT) & Hrec).
  apply (steps_draws T init pos gT pos' hist Hval); [|done].
  intros k Hk. apply Hrec. lia.
Qed.

(** ** The picture on the canvas *)

Lemma count_style_app colour (l1 l2 : list call) :
  count_style colour (l1 ++ l2)
  = count_style colour l1 + count_style colour l2.
Proof.
  induction l1 as [|c l1 IH]; [done|].
  destruct c; simpl; rewrite IH; lia.
Qed.


Lemma paint_cells_wp (g : Grid) (cellSize : quotient) (ctx : list call) :
  wfg M N g ->
  wp False (paint_cells g cellSize ctx) (fun calls =>
    exists cells,
      calls = ctx ++ cells /\ length cells = 2 * (M * N) /\
      (forall i j, i < M -> j < N ->
         cells !! (2 * (i * N + j))
         = Some (fillStyle (colour_of (cell g i j))) /\
         cells !! (2 * (i * N + j) + 1)
         = Some (fillRect (js_mul j cellSize) (js_mul i cellSize)
                          cellSize cellSize)) /\
      forall colour p,
        (forall v, String.eqb (colour_of v) colour = p v) ->
        count_style colour cells = count_grid p g).
Proof.
  intros Hwf. unfold paint_cells.
  eapply wp_mono;
    [|apply (for_from_wp False (fun i calls =>
         exists cells,
           calls = ctx ++ cells /\ length cells = 2 * (i * N) /\
           (forall i' j, i' < i -> j < N ->
              cells !! (2 * (i' * N + j))
              = Some (fillStyle (colour_of (cell g i' j))) /\
              cells !! (2 * (i' * N + j) + 1)
              = Some (fillRect (js_mul j cellSize) (js_mul i' cellSize)
                               cellSize cellSize)) /\
           forall colour p,
             (forall v, String.eqb (colour_of v) colour = p v) ->
             count_style colour cells = count_grid p (take i g)))].
  - intros calls (cells & -> & Hlen & Hcells & Hcount). exists cells.
    rewrite Nat.add_0_l in *. split; [done|]. split; [done|].
    split; [done|]. intros colour p Hp.
    rewrite (Hcount colour p Hp), take_ge; [done|]. destruct Hwf. lia.
  - exists []. rewrite app_nil_r. split; [done|]. split; [done|].
    split; [intros i' j Hi'; lia|]. intros colour p _. by rewrite take_0.
  - intros i calls Hi (cells0 & -> & Hlen0 & Hcells0 & Hcount0).
    destruct (wfg_lookup M N g i Hwf) as (row & Hrow & Hlrow); [lia|].
    eapply wp_mono;
      [|apply (for_from_wp False (fun j calls =>
           exists cells,
             calls = ctx ++ cells /\ length cells = 2 * (i * N + j) /\
             (forall i' j', i' < i /\ j' < N \/ i' = i /\ j' < j ->
                cells !! (2 * (i' * N + j'))
                = Some (fillStyle (colour_of (cell g i' j'))) /\
                cells !! (2 * (i' * N + j') + 1)
                = Some (fillRect (js_mul j' cellSize) (js_mul i' cellSize)
                                 cellSize cellSize)) /\
             forall colour p,
               (forall v, String.eqb (colour_of v) colour = p v) ->
               count_style colour cells
               = count_grid p (take i g) + count_row p (take j row)))].
    + intros calls (cells & -> & Hlen & Hcells & Hcount). exists cells.
      rewrite Nat.add_0_l in *. split; [done|]. split; [lia|]. split.
      * intros i' j Hi' Hj. apply Hcells.
        destruct (decide (i' = i)) as [->|]; [right|left]; lia.
      * intros colour p Hp.
        rewrite (Hcount colour p Hp), (count_grid_take_S p g i row Hrow).
        by rewrite (take_ge row N) by lia.
    + exists cells0. split; [done|]. split; [lia|]. split.
      * intros i' j' [[Hi' Hj']|[-> Hj']]; [by apply Hcells0|lia].
      * intros colour p Hp. rewrite (Hcount0 colour p Hp), take_0. simpl. lia.
    + intros j calls Hj (cells & -> & Hlen & Hcells & Hcount).
      rewrite (row_at_nat g i row Hrow). cbn [bind wp].
      rewrite (cell_at_nat g i j row Hrow).
      eexists (cells ++ [_; _]). split; [by rewrite app_assoc|].
      split; [rewrite length_app; simpl; lia|]. split.
      * intros i' j' Hij.
        destruct (decide (i' = i /\ j' = j)) as [[-> ->]|Hne].
        -- rewrite !lookup_app_r by lia.
           replace (2 * (i * N + j) - length cells) with 0 by lia.
           replace (2 * (i * N + j) + 1 - length cells) with 1 by lia.
           done.
        -- assert (Hold : i' < i /\ j' < N \/ i' = i /\ j' < j) by lia.
           assert (i' * N + j' < i * N + j) by nia.
           rewrite !lookup_app_l by lia. by apply Hcells.
      * intros colour p Hp. rewrite count_style_app, (Hcount colour p Hp).
        destruct (lookup_lt_is_Some_2 row j ltac:(lia)) as [v Hv].
        rewrite (count_row_take_S p row j v Hv).
        assert (Hc : cell g i j = v) by (unfold cell; by rewrite Hrow, Hv).
        rewrite Hc. simpl. rewrite (Hp v). lia.
Qed.

Lemma colour_of_isS v : String.eqb (colour_of v) "#3b82f6" = isS v.
Proof.
  unfold colour_of, isS.
  destruct (strict_eq v (Num 0)); [done|].
  by destruct (strict_eq v (Num 1)).
Qed.

Lemma colour_of_isI v : String.eqb (colour_of v) "#ef4444" = isI v.
Proof.
  unfold colour_of, isI.
  destruct (strict_eq v (Num 0)) eqn:H0.
  - destruct v as [z|]; [|done]. simpl in *.
    apply Z.eqb_eq in H0. by subst z.
  - by destruct (strict_eq v (Num 1)).
Qed.

Lemma colour_of_isR v : String.eqb (colour_of v) "#10b981" = isR v.
Proof.
  unfold colour_of, isR, isS, isI.
  destruct (strict_eq v (Num 0)); [done|].
  by destruct (strict_eq v (Num 1)).
Qed.


(** X26. The picture agrees with the counters: for an M x N grid and a
    canvas, the calls of [drawGrid] set the blue, the red and the green fill
    style as often as [countStates] reports s, i and r for the same grid,
    once per cell. *)
Theorem drawGrid_counts (g : Grid) (canvas : Canvas.record) :
  wfg M N g ->
  exists calls s i r,
    drawGrid g (Some canvas) = Ok calls /\
    countStates g = Ok (s, i, r) /\
    count_style "#3b82f6" calls = s /\
    count_style "#ef4444" calls = i /\
    count_style "#10b981" calls = r.
Proof.
  intros Hwf.
  pose proof (paint_cells_wp g (cell_size canvas) (background canvas) Hwf)
    as H.
  apply wp_total in H as (calls & Hcalls & cells & -> & _ & _ & Hcount).
  exists (background canvas ++ cells), (count_grid isS g),
         (count_grid isI g), (count_grid isR g).
  split; [done|]. split; [by apply countStates_counts|].
  rewrite !count_style_app.
  rewrite (Hcount _ isS colour_of_isS), (Hcount _ isI colour_of_isI),
          (Hcount _ isR colour_of_isR).
  done.
Qed.

(** ** The frames handed to the GIF encoder *)

Lemma for_from_prefix {A} (f : A -> A) n :
  forall start (body : nat -> A -> result A) a,
    (forall k a, body k (f a) = (x <- body k a ;; Ok (f x))) ->
    for_from n start body (f a)
    = (x <- for_from n start body a ;; Ok (f x)).
Proof.
  induction n as [|n IH]; intros start body a Hbody; [done|].
  simpl. rewrite Hbody. destruct (body start a) as [x| |]; simpl; [|done|done].
  by apply IH.
Qed.

Lemma paint_cells_prefix (g : Grid) cellSize (ctx0 ctx : list call) :
  paint_cells g cellSize (ctx0 ++ ctx)
  = (calls <- paint_cells g cellSize ctx ;; Ok (ctx0 ++ calls)).
Proof.
  unfold paint_cells.
  apply (for_from_prefix (fun c => ctx0 ++ c)). intros i c.
  apply (for_from_prefix (fun c => ctx0 ++ c)). intros j c'.
  destruct (row_at g (Int (Z.of_nat i))) as [row| |]; simpl; [|done|done].
  by rewrite app_assoc.
Qed.

Lemma take_min_length {A} n (l : list A) :
  take (Nat.min n (length l)) l = take n l.
Proof.
  destruct (Nat.le_ge_cases n (length l)) as [H|H].
  - by rewrite Nat.min_l.
  - rewrite Nat.min_r by done. by rewrite !take_ge by lia.
Qed.

Lemma forEach_frames (canvas : Canvas.record) (frames : list Grid) :
  Forall (wfg M N) frames ->
  forall calls,
    exists pictures,
      Forall2 (fun frame picture =>
                 drawGrid frame (Some canvas) = Ok picture)
              frames pictures /\
      forEach frames (fun frame calls =>
          calls' <- paint_cells frame (cell_size canvas)
                      (calls ++ background canvas) ;;
          Ok (calls' ++ [addFrame 60])) calls
      = Ok (calls ++ concat (map (fun picture => picture ++ [addFrame 60])
                                 pictures)).
Proof.
  induction 1 as [|frame frames Hwf _ IH]; intros calls.
  - exists []. split; [constructor|]. simpl. by rewrite app_nil_r.
  - pose proof (paint_cells_wp frame (cell_size canvas) (background canvas)
                  Hwf) as H.
    apply wp_total in H as (picture & Hpic & _).
    destruct (IH ((calls ++ picture) ++ [addFrame 60]))
      as (pictures & Hall & Hrest).
    exists (picture :: pictures). split; [by constructor|].
    cbn [forEach]. rewrite paint_cells_prefix, Hpic. cbn [bind].
    rewrite Hrest. simpl. by rewrite <- !app_assoc.
Qed.

Lemma generateGif_pictures (animationRef : list Grid) :
  Forall (wfg M N) animationRef -> animationRef <> [] ->
  exists pictures,
    length pictures = Nat.min 150 (length animationRef) /\
    (forall k picture, pictures !! k = Some picture ->
       exists frame,
         animationRef !! k = Some frame /\
         drawGrid frame (Some (Canvas.mk 400 400)) = Ok picture) /\
    generateGif animationRef
    = Ok (rendered
            (concat (map (fun picture => picture ++ [addFrame 60]) pictures)
             ++ [render])).
Proof.
  intros Hwf Hne. unfold generateGif.
  destruct (Nat.eqb_spec (length animationRef) 0) as [H0|_];
    [by destruct animationRef|].
  cbv zeta. rewrite take_min_length.
  destruct (forEach_frames (Canvas.mk 400 400) (take 150 animationRef)
              (Forall_take _ 150 _ Hwf) [])
    as (pictures & Hall & Heach).
  exists pictures. split; [|split].
  - rewrite <- (Forall2_length _ _ _ Hall), length_take. done.
  - intros k picture Hk.
    destruct (Forall2_lookup_r _ _ _ k picture Hall Hk)
      as (frame & Hframe & Hdraw).
    exists frame. split; [|done].
    apply lookup_take_Some in Hframe. by destruct Hframe.
  - rewrite Heach. reflexivity.
Qed.

(** X27. What [generateGif] hands to the encoder: without frames it only
    raises the alert; with M x N frames it paints, on a canvas of 400 by
    400, the first min(150, number of frames) frames in order, each exactly
    as [drawGrid] paints that grid on such a canvas, calls [addFrame] with
    a delay of 60 after each of them, and ends with [render]. *)
Theorem generateGif_frames (animationRef : list Grid) :
  generateGif [] = Ok (alert "Ejecuta la simulación primero") /\
  (Forall (wfg M N) animationRef -> animationRef <> [] ->
   exists pictures,
     length pictures = Nat.min 150 (length animationRef) /\
     (forall k picture, pictures !! k = Some picture ->
        exists frame,
          animationRef !! k = Some frame /\
          drawGrid frame (Some (Canvas.mk 400 400)) = Ok picture) /\
     generateGif animationRef
     = Ok (rendered
             (concat (map (fun picture => picture ++ [addFrame 60]) pictures)
              ++ [render]))).
Proof.
  split; [reflexivity|apply generateGif_pictures].
Qed.

(** X28. From a run to its GIF: after a visible run from an M x N grid at
    time 0 with no frames stored before, that made at least one step,
    [generateGif] paints min(150, min(firings, T)) frames; frame k is the
    picture that [drawGrid] makes, on a canvas of 400 by 400, of the grid
    after k + 1 steps.  The initial grid is not among the frames, and steps
    beyond the 150th are left out. *)
Theorem visibleRun_generateGif (init : Grid) firings running h ref pos
        app' pos' :
  wfg M N init -> 1 <= firings -> 1 <= T ->
  visibleRun firings (App.mk running (Some init) h 0 [] ref) pos
  = Ok (app', pos') ->
  exists pictures,
    length pictures = Nat.min 150 (Nat.min firings T) /\
    generateGif (App.animationRef app')
    = Ok (rendered
            (concat (map (fun picture => picture ++ [addFrame 60]) pictures)
             ++ [render])) /\
    forall k picture, pictures !! k = Some picture ->
      exists gk pk,
        steps (S k) init pos = Ok (gk, pk) /\
        drawGrid gk (Some (Canvas.mk 400 400)) = Ok picture.
Proof.
  intros Hwf Hfir HT Hvis. unfold visibleRun in Hvis.
  apply (fire_steps firings _ init) in Hvis; [|done|done|done|simpl; lia].
  cbn [App.isRunning App.time App.history App.animationRef
       App.initGridRef App.grid] in Hvis. cbv zeta in Hvis.
  replace (T - 0) with T in Hvis by lia.
  set (n := Nat.min firings T) in *.
  destruct Hvis as (_ & _ & _ & Hla & _ & _ & _ & Hnew).
  simpl in Hla.
  assert (Hframes : forall m frame,
            App.animationRef app' !! m = Some frame ->
            exists pm, steps (S m) init pos = Ok (frame, pm)).
  { intros m frame Hm. apply lookup_lt_Some in Hm as Hlt.
    destruct (Hnew m ltac:(lia)) as (gm & pm & Hsm & _ & Ha).
    simpl in Ha. rewrite Hm in Ha. injection Ha as <-. eauto. }
  destruct (generateGif_pictures (App.animationRef app'))
    as (pictures & Hlen & Hpics & Hgif).
  - apply Forall_lookup. intros m frame Hm.
    destruct (Hframes m frame Hm) as [pm Hsm].
    by apply (steps_wfg (S m) init pos frame pm).
  - intros Hnil. rewrite Hnil in Hla. simpl in Hla. lia.
  - exists pictures. split; [by rewrite Hlen, Hla|]. split; [done|].
    intros k picture Hk. destruct (Hpics k picture Hk) as (frame & Hf & Hd).
    destruct (Hframes k frame Hf) as [pk Hsk]. by exists frame, pk.
Qed.

(** X29. Counting a grid that is too narrow: on a grid of M rows of n <= N
    cells each, [countStates] still returns; it counts the cells that are
    there as on a full grid and every missing cell, M * (N - n) in all, as
    recovered. *)
Theorem countStates_narrow (g : Grid) n :
  wfg M n g -> n <= N ->
  countStates g
  = Ok (count_grid isS g, count_grid isI g,
        count_grid isR g + M * (N - n)).
Proof.
  intros Hwf Hn.
  assert (H : wp False (countStates g) (fun c =>
            c = (count_grid isS g, count_grid isI g,
                 count_grid isR g + M * (N - n)))).
  { unfold countStates.
    eapply wp_mono;
      [|apply (for_from_wp False (fun x c =>
           c = (count_grid isS (take x g), count_grid isI (take x g),
                count_grid isR (take x g) + x * (N - n))))].
    - simpl. intros c ->. rewrite take_ge; [done|destruct Hwf; lia].
    - simpl. done.
    - intros x c Hx ->.
      destruct (wfg_lookup M n g x Hwf) as (row & Hrow & Hlen); [lia|].
      eapply wp_mono;
        [|apply (for_from_wp False (fun y c =>
             c = (count_grid isS (take x g) + count_row isS (take y row),
                  count_grid isI (take x g) + count_row isI (take y row),
                  count_grid isR (take x g) + x * (N - n)
                  + count_row isR (take y row) + (y - n))))].
      + intros a ->. rewrite Nat.add_0_l.
        rewrite !(count_grid_take_S _ g x row Hrow).
        rewrite (take_ge row N) by lia.
        replace (S x * (N - n)) with (x * (N - n) + (N - n)) by lia.
        f_equal. lia.
      + simpl. rewrite !Nat.add_0_r. done.
      + intros y c Hy ->.
        rewrite (row_at_nat g x row Hrow). simpl.
        rewrite (cell_at_nat g x y row Hrow). unfold cell. rewrite Hrow.
        destruct (decide (y < n)) as [Hyn|Hyn].
        * destruct (lookup_lt_is_Some_2 row y) as [v Hv]; [lia|].
          rewrite Hv, !(count_row_take_S _ row y v Hv).
          unfold isR, isS, isI.
          destruct (strict_eq v (Num 0)) eqn:H0; simpl.
          -- assert (strict_eq v (Num 1) = false) as ->.
             { destruct v as [z|]; simpl in *; [|done].
               apply Z.eqb_eq in H0. subst z. done. }
             simpl. f_equal; try f_equal; lia.
          -- destruct (strict_eq v (Num 1)); simpl; f_equal; try f_equal; lia.
        * rewrite (lookup_ge_None_2 row y) by lia. simpl.
          rewrite !(take_ge row) by lia. f_equal. lia. }
  destruct (wp_total _ _ H) as (c & Hc & ->). exact Hc.
Qed.



End Simulation.

(** * Instances *)

Lemma wfgb_spec m n (g : Grid) : wfgb m n g = true -> wfg m n g.
Proof.
  unfold wfgb, wfg. intros H. apply andb_prop in H as [Hl Hr].
  apply Nat.eqb_eq in Hl. split; [exact Hl|].
  apply Forall_forall. intros row Hin.
  rewrite forallb_forall in Hr. apply Nat.eqb_eq, Hr.
  by apply list_elem_of_In.
Qed.

Lemma valid_cellb_spec c : valid_cellb c = true -> valid_cell c.
Proof.
  unfold valid_cellb, valid_cell, isS, isI, is2.
  destruct c as [z|]; simpl; [|discriminate].
  destruct (Z.eqb_spec z 0); [subst; auto|].
  destruct (Z.eqb_spec z 1); [subst; auto|].
  destruct (Z.eqb_spec z 2); [subst; auto|discriminate].
Qed.

Lemma valid_gridb_spec m n (g : Grid) :
  valid_gridb m n g = true -> valid_grid m n g.
Proof.
  unfold valid_gridb, valid_grid. intros H. apply andb_prop in H as [Hw Hv].
  split; [by apply wfgb_spec|].
  apply Forall_forall. intros row Hrow. apply Forall_forall. intros c Hc.
  rewrite forallb_forall in Hv.
  specialize (Hv row (proj1 (list_elem_of_In _ _) Hrow)).
  rewrite forallb_forall in Hv.
  apply valid_cellb_spec, Hv. by apply list_elem_of_In.
Qed.

Lemma sample_zero_range : unit_range sample_zero.
Proof. intros k. unfold sample_zero. split; [apply Qle_refl|reflexivity]. Qed.

Lemma sample_quarters_range seed : unit_range (sample_quarters seed).
Proof.
  intros k. unfold sample_quarters.
  pose proof (Nat.mod_upper_bound k 4 ltac:(lia)) as Hk.
  split; [unfold Qle|unfold Qlt]; simpl; lia.
Qed.

(** ** Conservation *)

(** [conservation] at work: a headless run on a 2 by 2 grid. *)
Lemma conservation_witness :
  wfg 2 2 sample_grid /\
  exists hist pos',
    runOnceNoAnimate sample_zero sample_small (Some sample_grid) 0
    = Ok (hist, pos') /\
    length hist = 3 /\
    forall t x, hist !! t = Some x ->
      StepRecord.s x + StepRecord.i x + StepRecord.r x = 4.
Proof.
  assert (Hwf : wfg 2 2 sample_grid) by (apply wfgb_spec; reflexivity).
  split; [exact Hwf|].
  destruct (conservation sample_zero sample_small sample_grid 0 Hwf)
    as (_ & _ & Hrec & _ & Hret).
  destruct (Hret ltac:(simpl; lia)) as (hist & pos' & Heq).
  exists hist, pos'. split; [exact Heq|]. exact (Hrec hist pos' Heq).
Defined.

(** ** The two initializers *)

(** C2 (the initializer of [App.jsx]).  [initializeGrid] of [App.jsx] writes
    I0 drawn cells without looking whether a cell was drawn before: with the
    initial parameters (50 by 50, I0 = 5) and draws of which the first two
    pairs name the same cell, the grid has 4 infected cells, not 5. *)
Theorem App_initializeGrid_collision :
  exists g : Grid,
    App_initializeGrid sample_colliding sample_App_defaults 0 = Ok (g, 10) /\
    wfg 50 50 g /\
    countStates sample_App_defaults g = Ok (2496, 4, 0) /\
    Params.I0 sample_App_defaults = 5.
Proof.
  eexists. split; [vm_compute; reflexivity|].
  split; [apply wfgb_spec; vm_compute; reflexivity|].
  split; [vm_compute; reflexivity|reflexivity].
Qed.

(** The seeded initializer of [ModifiedApp.jsx] on a 2 by 2 grid. *)
Lemma makeInitialGrid_exact_instance :
  exists g : Grid,
    makeInitialGrid sample_quarters sample_small 2 = Ok g /\
    wfg 2 2 g /\ countStates sample_small g = Ok (2, 2, 0).
Proof.
  apply (makeInitialGrid_exact sample_quarters sample_small 2);
    [simpl; lia|simpl; lia|apply sample_quarters_range|].
  vm_compute. lia.
Qed.

(** [initializeGrid] of [App.jsx] has no seed: what it returns depends on how
    many draws [Math.random()] has made before. *)
Lemma App_initializeGrid_unseeded :
  exists g g' : Grid,
    App_initializeGrid sample_colliding sample_App_defaults 0 = Ok (g, 10) /\
    App_initializeGrid sample_colliding sample_App_defaults 4 = Ok (g', 14) /\
    g <> g'.
Proof.
  eexists. eexists. split; [vm_compute; reflexivity|].
  split; [vm_compute; reflexivity|].
  intros Heq. apply (f_equal (fun g : Grid => cell g 0 0)) in Heq.
  vm_compute in Heq. discriminate.
Qed.

(** ** Determinism *)

(** [makeInitialGrid_deterministic] at work: two calls with different fuel,
    and a batch of three runs. *)
Lemma makeInitialGrid_deterministic_witness :
  (exists g : Grid,
     makeInitialGrid sample_quarters sample_small 2 = Ok g /\
     makeInitialGrid sample_quarters sample_small 5 = Ok g) /\
  exists app' payload pos' s i r,
    exportNexpJSON sample_zero sample_quarters sample_small 3 2 sample_app 0
    = Ok (app', payload, pos') /\
    forall k run, Payload.runs payload !! k = Some run ->
      RunResult.t run !! 0 = Some 0 /\
      RunResult.s run !! 0 = Some s /\
      RunResult.i run !! 0 = Some i /\
      RunResult.r run !! 0 = Some r.
Proof.
  destruct (makeInitialGrid_deterministic sample_zero sample_quarters
              sample_small 3) as (Hfuel & _ & Hbatch).
  split.
  - destruct (makeInitialGrid sample_quarters sample_small 2) as [g| |] eqn:H2;
      [|vm_compute in H2; discriminate|vm_compute in H2; discriminate].
    destruct (makeInitialGrid sample_quarters sample_small 5) as [g'| |] eqn:H5;
      [|vm_compute in H5; discriminate|vm_compute in H5; discriminate].
    exists g. split; [reflexivity|].
    rewrite (Hfuel 2 5 g g' H2 H5). reflexivity.
  - destruct (exportNexpJSON sample_zero sample_quarters sample_small 3 2
                sample_app 0) as [[[app' payload] pos']| |] eqn:Hexp;
      [|vm_compute in Hexp; discriminate|vm_compute in Hexp; discriminate].
    destruct (Hbatch 2 sample_app 0 app' payload pos'
                ltac:(intros g Hg; discriminate Hg)
                ltac:(simpl; lia) ltac:(simpl; lia)
                (sample_quarters_range initSeed) Hexp)
      as (init & s & i & r & _ & _ & _ & Hruns).
    exists app', payload, pos', s, i, r. split; [reflexivity|exact Hruns].
Defined.

(** ** Aggregation *)

(** [exportNexpJSON_mean] at work: a batch of three runs on a 2 by 2 grid. *)
Lemma exportNexpJSON_mean_witness :
  exists app' payload pos' ss,
    exportNexpJSON sample_zero sample_quarters sample_small 3 2 sample_app 0
    = Ok (app', payload, pos') /\
    length (Payload.runs payload) = 3 /\
    sum_at RunResult.s 1 (Payload.runs payload) = Some ss /\
    Mean.s (Payload.mean payload) !! 1
    = Some (Quot (inject_Z (Z.of_nat ss) / inject_Z 3)).
Proof.
  destruct (exportNexpJSON_mean sample_zero sample_quarters sample_small 3 2
              sample_app 0
              ltac:(lia) ltac:(intros g Hg; discriminate Hg)
              ltac:(simpl; lia) ltac:(simpl; lia)
              (sample_quarters_range initSeed))
    as [Hmean Hret].
  destruct (Hret ltac:(simpl; lia)
                 ltac:(eexists; vm_compute; reflexivity))
    as ([app' payload] & pos' & Heq).
  destruct (Hmean app' payload pos' Heq) as (Hlen & _ & Hall).
  destruct (Hall 1 (Payload.runs payload) ltac:(simpl; lia)
                 (Permutation_refl _))
    as (ss & si & sr & Hss & _ & _ & HS & _ & _).
  exists app', payload, pos', ss. split; [exact Heq|].
  split; [exact Hlen|]. split; [exact Hss|exact HS].
Defined.

(** ** The two modes *)

(** [visibleRun_history] at work: a visible run of T = 2 steps, the effect
    firing five times. *)
Lemma visibleRun_history_witness :
  wfg 2 2 sample_grid /\
  exists app' pos',
    visibleRun sample_zero sample_small 5
               (App.mk false (Some sample_grid) [] 0 [] None) 0
    = Ok (app', pos') /\
    length (App.history app') = 2.
Proof.
  assert (Hwf : wfg 2 2 sample_grid) by (apply wfgb_spec; reflexivity).
  split; [exact Hwf|].
  destruct (visibleRun sample_zero sample_small 5
              (App.mk false (Some sample_grid) [] 0 [] None) 0)
    as [[app' pos']| |] eqn:Hrun;
    [|vm_compute in Hrun; discriminate|vm_compute in Hrun; discriminate].
  exists app', pos'. split; [reflexivity|].
  destruct (visibleRun_history sample_zero sample_small sample_grid 5 false
              [] None 0 app' pos' Hwf Hrun) as (Hlen & _ & _).
  exact Hlen.
Defined.

(** The two modes on the same grid with T = 2: the headless run records the
    counts (2, 1, 1) of the initial grid at t = 0 and has three records, the
    visible run has two and records the counts after the first step at
    t = 0. *)
Lemma modes_disagree :
  runOnceNoAnimate sample_zero sample_small (Some sample_grid) 0
  = Ok ([StepRecord.mk 0 2 1 1; StepRecord.mk 1 0 2 2; StepRecord.mk 2 0 0 4],
        5) /\
  App.history <$>
    (fst <$> match visibleRun sample_zero sample_small 5
                     (App.mk false (Some sample_grid) [] 0 [] None) 0 with
             | Ok out => Some out
             | _ => None
             end)
  = Some [StepRecord.mk 0 0 2 2; StepRecord.mk 1 0 0 4].
Proof. split; vm_compute; reflexivity. Qed.

(** ** Monotonicity *)

(** [step_monotone] at work: one step from a 2 by 2 grid. *)
Lemma step_monotone_witness :
  valid_grid 2 2 sample_grid /\
  exists g' pos' s i r s' i' r',
    step sample_zero sample_small sample_grid 0 = Ok (g', pos') /\
    countStates sample_small sample_grid = Ok (s, i, r) /\
    countStates sample_small g' = Ok (s', i', r') /\
    r <= r' /\ i + r <= i' + r'.
Proof.
  assert (Hval : valid_grid 2 2 sample_grid)
    by (apply valid_gridb_spec; reflexivity).
  split; [exact Hval|].
  destruct (step_monotone sample_zero sample_small sample_grid Hval)
    as (Hstep & Hret & _).
  destruct (Hret ltac:(simpl; lia) 0) as (g' & pos' & Heq).
  destruct (Hstep 0 g' pos' Heq)
    as (_ & _ & s & i & r & s' & i' & r' & H1 & H2 & H3 & H4).
  exists g', pos', s, i, r, s', i', r'.
  split; [exact Heq|]. split; [exact H1|]. split; [exact H2|].
  split; [exact H3|exact H4].
Defined.

(** ** Size of the neighbourhood *)

(** Not every radius: with two rows and a radius of three the census of the
    cell (0, 0) reads the row of index (-3 + 2) % 2 = -1, which is
    [undefined], and throws; it returns no total. *)
Lemma getNeighbors_radius_counterexample :
  wfg 2 2 (zeros 2 2) /\ (1 <= Params.r sample_wide)%Z /\
  getNeighbors sample_wide (zeros 2 2) 0 0 (Params.r sample_wide)
  = Throw TypeError /\
  ~ exists infected total,
      getNeighbors sample_wide (zeros 2 2) 0 0 (Params.r sample_wide)
      = Ok (infected, total) /\
      Z.of_nat total = ((2 * Params.r sample_wide + 1) ^ 2 - 1)%Z.
Proof.
  split; [apply wfg_zeros|]. split; [simpl; lia|].
  split; [vm_compute; reflexivity|].
  intros (infected & total & Heq & _). vm_compute in Heq. discriminate.
Qed.

(** [getNeighbors_total_count] at work: radius 2 on two rows. *)
Lemma getNeighbors_total_count_witness :
  wfg 2 2 sample_grid /\
  exists infected total,
    getNeighbors sample_small sample_grid 0 0 2 = Ok (infected, total) /\
    Z.of_nat total = 24%Z.
Proof.
  assert (Hwf : wfg 2 2 sample_grid) by (apply wfgb_spec; reflexivity).
  split; [exact Hwf|].
  exact (getNeighbors_total_count sample_small sample_grid 0 0 2 Hwf
           ltac:(simpl; lia) ltac:(simpl; lia)).
Defined.

(** ** Too many infected cells *)

(** No error: asked for two infected cells on a grid of one cell,
    the initializer raises no error; its loop is still running after any
    number of passes. *)
Lemma makeInitialGrid_overfull_counterexample :
  Params.M sample_overfull * Params.N sample_overfull
  < Params.I0 sample_overfull /\
  (forall fuel,
     makeInitialGrid sample_quarters sample_overfull fuel = OutOfFuel) /\
  ~ exists fuel e,
      makeInitialGrid sample_quarters sample_overfull fuel = Throw e.
Proof.
  assert (H : forall fuel,
             makeInitialGrid sample_quarters sample_overfull fuel = OutOfFuel).
  { apply makeInitialGrid_overfull;
      [simpl; lia|simpl; lia|apply sample_quarters_range|simpl; lia]. }
  split; [simpl; lia|]. split; [exact H|].
  intros (fuel & e & Heq). rewrite H in Heq. discriminate.
Qed.

(** [makeInitialGrid_without_validation] at work: two infected cells on a
    2 by 2 grid. *)
Lemma makeInitialGrid_without_validation_witness :
  exists g : Grid,
    makeInitialGrid sample_quarters sample_small 2 = Ok g /\
    countStates sample_small g = Ok (2, 2, 0).
Proof.
  destruct (makeInitialGrid_without_validation sample_quarters sample_small
              ltac:(simpl; lia) ltac:(simpl; lia)
              (sample_quarters_range initSeed))
    as (_ & Hok).
  destruct (Hok 2 ltac:(vm_compute; lia)) as [_ Hg].
  exact Hg.
Defined.

(** ** Draws of a step *)

(** Not one draw per cell: on a grid of one recovered cell [step] makes no draw
    at all, and on the 2 by 2 sample grid, which has one recovered cell, it
    makes three draws, not four. *)
Lemma step_draws_counterexample :
  valid_grid 1 1 [[Num 2]] /\
  step sample_zero sample_overfull [[Num 2]] 0 = Ok ([[Num 2]], 0) /\
  0 <> 0 + Params.M sample_overfull * Params.N sample_overfull /\
  valid_grid 2 2 sample_grid /\
  step sample_zero sample_small sample_grid 0
  = Ok ([[Num 2; Num 1]; [Num 1; Num 2]], 3) /\
  3 <> 0 + Params.M sample_small * Params.N sample_small.
Proof.
  split; [apply valid_gridb_spec; reflexivity|].
  split; [vm_compute; reflexivity|]. split; [simpl; lia|].
  split; [apply valid_gridb_spec; reflexivity|].
  split; [vm_compute; reflexivity|simpl; lia].
Qed.

(** [step_draw_count] at work: the draws of one step from the 2 by 2 sample
    grid. *)
Lemma step_draw_count_witness :
  valid_grid 2 2 sample_grid /\
  exists g' pos' s i r,
    step sample_zero sample_small sample_grid 0 = Ok (g', pos') /\
    countStates sample_small sample_grid = Ok (s, i, r) /\
    pos' = 0 + s + i.
Proof.
  assert (Hval : valid_grid 2 2 sample_grid)
    by (apply valid_gridb_spec; reflexivity).
  split; [exact Hval|].
  destruct (step_draw_count sample_zero sample_small sample_grid Hval)
    as (Hdraws & Hret).
  destruct (Hret ltac:(simpl; lia) 0) as (g' & pos' & Heq).
  destruct (Hdraws 0 g' pos' Heq) as (s & i & r & Hc & Hp & _).
  exists g', pos', s, i, r.
  split; [exact Heq|]. split; [exact Hc|exact Hp].
Defined.

(** ** Infection probability *)




(** ** The further properties at work *)

Lemma sample_zero_nonneg : draws_nonneg sample_zero.
Proof. intros k. apply Qle_refl. Qed.

Lemma sample_zero_below_1 : draws_below_1 sample_zero.
Proof. intros k. reflexivity. Qed.

Lemma sample_grid_wfg : wfg 2 2 sample_grid.
Proof. apply wfgb_spec. reflexivity. Qed.

(** [step_cell_by_cell] at work: the susceptible cell (0, 1) of the sample
    grid. *)
Lemma step_cell_by_cell_witness :
  exists g' pos',
    step sample_zero sample_small sample_grid 0 = Ok (g', pos') /\
    next_state sample_zero sample_small sample_grid 0 1
               (draw_index sample_grid 0 0 1) (cell g' 0 1).
Proof.
  destruct (step sample_zero sample_small sample_grid 0)
    as [[g' pos']| |] eqn:Hs;
    [|vm_compute in Hs; discriminate|vm_compute in Hs; discriminate].
  exists g', pos'. split; [reflexivity|].
  apply (step_cell_by_cell sample_zero sample_small sample_grid 0 g' pos' 0 1
           sample_grid_wfg Hs); simpl; lia.
Defined.

(** [step_disease_free] at work. *)
Lemma step_disease_free_witness :
  valid_grid 2 2 sample_clean /\
  step sample_zero sample_small sample_clean 0 = Ok (sample_clean, 2).
Proof.
  assert (Hval : valid_grid 2 2 sample_clean)
    by (apply valid_gridb_spec; reflexivity).
  split; [exact Hval|].
  exact (step_disease_free sample_zero sample_small sample_clean 0 Hval
           eq_refl sample_zero_nonneg ltac:(simpl; lia)).
Defined.

(** [step_without_recovery] at work: the infected cell (0, 0) stays. *)
Lemma step_without_recovery_witness :
  exists g' pos',
    step sample_zero sample_no_recovery sample_grid 0 = Ok (g', pos') /\
    cell g' 0 0 = Num 1.
Proof.
  destruct (step sample_zero sample_no_recovery sample_grid 0)
    as [[g' pos']| |] eqn:Hs;
    [|vm_compute in Hs; discriminate|vm_compute in Hs; discriminate].
  exists g', pos'. split; [reflexivity|].
  destruct (step_without_recovery sample_zero sample_no_recovery sample_grid
              0 g' pos' ltac:(apply Qle_refl) sample_zero_nonneg
              sample_grid_wfg Hs) as [Hkeep _].
  apply Hkeep; [simpl; lia|simpl; lia|reflexivity].
Defined.

(** [step_without_infection] at work: the susceptible cell (0, 1), next to
    an infected one, stays. *)
Lemma step_without_infection_witness :
  exists g' pos',
    step sample_zero sample_no_infection sample_grid 0 = Ok (g', pos') /\
    cell g' 0 1 = Num 0.
Proof.
  destruct (step sample_zero sample_no_infection sample_grid 0)
    as [[g' pos']| |] eqn:Hs;
    [|vm_compute in Hs; discriminate|vm_compute in Hs; discriminate].
  exists g', pos'. split; [reflexivity|].
  destruct (step_without_infection sample_zero sample_no_infection
              sample_grid 0 g' pos' ltac:(apply Qle_refl) sample_zero_nonneg
              sample_grid_wfg Hs) as [Hkeep _].
  apply Hkeep; [simpl; lia|simpl; lia|reflexivity].
Defined.

(** [step_sure_recovery] at work: the infected cell (0, 0) recovers. *)
Lemma step_sure_recovery_witness :
  exists g' pos',
    step sample_zero sample_sure_recovery sample_grid 0 = Ok (g', pos') /\
    cell g' 0 0 = Num 2.
Proof.
  destruct (step sample_zero sample_sure_recovery sample_grid 0)
    as [[g' pos']| |] eqn:Hs;
    [|vm_compute in Hs; discriminate|vm_compute in Hs; discriminate].
  exists g', pos'. split; [reflexivity|].
  destruct (step_sure_recovery sample_zero sample_sure_recovery sample_grid
              0 g' pos' ltac:(apply Qle_refl) sample_zero_below_1
              sample_grid_wfg Hs) as [Hgo _].
  apply Hgo; [simpl; lia|simpl; lia|reflexivity].
Defined.

(** [getNeighbors_census] at work: on a 2 x 2 grid the square of radius 1
    around (1, 1) wraps onto the infected cell (0, 0) four times. *)
Lemma getNeighbors_census_witness :
  getNeighbors sample_small sample_grid 1 1 1
  = Ok (infected_around sample_small sample_grid 1 1 1, 8) /\
  infected_around sample_small sample_grid 1 1 1 = 4.
Proof.
  split; [|reflexivity].
  exact (getNeighbors_census sample_small sample_grid 1 1 1 eq_refl
           ltac:(simpl; lia) ltac:(simpl; lia) ltac:(simpl; lia)
           ltac:(simpl; lia)).
Defined.

(** [step_susceptible] at work: no infected cell around (0, 0). *)
Lemma step_susceptible_witness :
  exists g' pos',
    step sample_zero sample_small sample_clean 0 = Ok (g', pos') /\
    cell g' 0 0 = Num 0.
Proof.
  destruct (step sample_zero sample_small sample_clean 0)
    as [[g' pos']| |] eqn:Hs;
    [|vm_compute in Hs; discriminate|vm_compute in Hs; discriminate].
  exists g', pos'. split; [reflexivity|].
  destruct (step_susceptible sample_zero sample_small sample_clean 0 g' pos'
              0 0 ltac:(apply wfgb_spec; reflexivity) ltac:(simpl; lia)
              ltac:(simpl; lia) Hs ltac:(simpl; lia) ltac:(simpl; lia)
              eq_refl) as [_ Hstay].
  apply Hstay; [exact sample_zero_nonneg|reflexivity].
Defined.

(** [makeInitialGrid_cells] at work. *)
Lemma makeInitialGrid_cells_witness :
  exists (g : Grid) k,
    makeInitialGrid sample_quarters sample_small 2 = Ok g /\ k <= 2 /\
    size (cells_drawn sample_small (sample_quarters initSeed) k) = 2.
Proof.
  destruct (makeInitialGrid sample_quarters sample_small 2)
    as [g| |] eqn:Hs;
    [|vm_compute in Hs; discriminate|vm_compute in Hs; discriminate].
  destruct (makeInitialGrid_cells sample_quarters sample_small 2 g
              ltac:(simpl; lia) ltac:(simpl; lia)
              (sample_quarters_range initSeed) Hs)
    as (k & Hk & Hsize & _).
  exists g, k. split; [reflexivity|]. split; [exact Hk|exact Hsize].
Defined.

(** [makeInitialGrid_no_rows] at work. *)
Lemma makeInitialGrid_no_rows_witness :
  makeInitialGrid sample_quarters sample_no_rows 1 = Throw TypeError.
Proof.
  exact (makeInitialGrid_no_rows sample_quarters sample_no_rows 1 eq_refl
           ltac:(simpl; lia) ltac:(lia)).
Defined.

(** [runOnceNoAnimate_iterates] at work. *)
Lemma runOnceNoAnimate_iterates_witness :
  exists hist pos' gT,
    runOnceNoAnimate sample_zero sample_small (Some sample_grid) 0
    = Ok (hist, pos') /\
    length hist = 3 /\
    steps sample_zero sample_small 2 sample_grid 0 = Ok (gT, pos').
Proof.
  destruct (runOnceNoAnimate sample_zero sample_small (Some sample_grid) 0)
    as [[hist pos']| |] eqn:Hs;
    [|vm_compute in Hs; discriminate|vm_compute in Hs; discriminate].
  destruct (runOnceNoAnimate_iterates sample_zero sample_small sample_grid 0
              hist pos' sample_grid_wfg Hs) as (Hlen & (gT & HgT) & _).
  exists hist, pos', gT. split; [reflexivity|]. split; [exact Hlen|exact HgT].
Defined.

(** [visibleRun_headless] at work. *)
Lemma visibleRun_headless_witness :
  exists hist p1 app' p2,
    runOnceNoAnimate sample_zero sample_small (Some sample_grid) 0
    = Ok (hist, p1) /\
    visibleRun sample_zero sample_small 5
               (App.mk false (Some sample_grid) [] 0 [] None) 0
    = Ok (app', p2) /\
    p2 = p1 /\ App.time app' = 2 /\ length (App.history app') = 2.
Proof.
  destruct (runOnceNoAnimate sample_zero sample_small (Some sample_grid) 0)
    as [[hist p1]| |] eqn:Hs;
    [|vm_compute in Hs; discriminate|vm_compute in Hs; discriminate].
  destruct (visibleRun sample_zero sample_small 5
              (App.mk false (Some sample_grid) [] 0 [] None) 0)
    as [[app' p2]| |] eqn:Hv;
    [|vm_compute in Hv; discriminate|vm_compute in Hv; discriminate].
  destruct (visibleRun_headless sample_zero sample_small sample_grid 5 false
              [] None 0 hist p1 app' p2 sample_grid_wfg
              ltac:(simpl; lia) Hs Hv) as (Hp & Ht & Hl & _).
  exists hist, p1, app', p2.
  split; [reflexivity|]. split; [reflexivity|].
  split; [exact Hp|]. split; [exact Ht|exact Hl].
Defined.

(** [visibleRun_frames] at work. *)
Lemma visibleRun_frames_witness :
  exists app' pos',
    visibleRun sample_zero sample_small 5
               (App.mk false (Some sample_grid) [] 0 [sample_clean] None) 0
    = Ok (app', pos') /\
    length (App.animationRef app') = 3 /\
    App.animationRef app' !! 0 = Some sample_clean.
Proof.
  destruct (visibleRun sample_zero sample_small 5
              (App.mk false (Some sample_grid) [] 0 [sample_clean] None) 0)
    as [[app' pos']| |] eqn:Hv;
    [|vm_compute in Hv; discriminate|vm_compute in Hv; discriminate].
  destruct (visibleRun_frames sample_zero sample_small sample_grid 5 false
              [] [sample_clean] None 0 app' pos' sample_grid_wfg Hv)
    as (Hlen & Hold & _).
  exists app', pos'. split; [reflexivity|]. split; [exact Hlen|].
  exact (Hold 0 ltac:(simpl; lia)).
Defined.

(** [runOnceNoAnimate_extinct] at work: a run from the grid without
    infected cells. *)
Lemma runOnceNoAnimate_extinct_witness :
  exists hist pos' a b,
    runOnceNoAnimate sample_zero sample_small (Some sample_clean) 0
    = Ok (hist, pos') /\
    hist !! 0 = Some a /\ hist !! 2 = Some b /\
    StepRecord.s b = StepRecord.s a /\ StepRecord.i b = 0 /\
    StepRecord.r b = StepRecord.r a.
Proof.
  assert (Hrun : exists hist pos' a b,
            runOnceNoAnimate sample_zero sample_small (Some sample_clean) 0
            = Ok (hist, pos') /\
            hist !! 0 = Some a /\ hist !! 2 = Some b /\ StepRecord.i a = 0).
  { eexists _, _, _, _. split; [vm_compute; reflexivity|].
    split; [reflexivity|]. split; reflexivity. }
  destruct Hrun as (hist & pos' & a & b & Hs & Ha & Hb & Hi).
  exists hist, pos', a, b. split; [exact Hs|]. split; [exact Ha|].
  split; [exact Hb|].
  exact (runOnceNoAnimate_extinct sample_zero sample_small sample_clean 0
           hist pos' 0 2 a b ltac:(apply valid_gridb_spec; reflexivity)
           sample_zero_nonneg Hs ltac:(lia) Ha Hb Hi).
Defined.

(** [exportNexpJSON_payload] at work: three runs of two steps. *)
Lemma exportNexpJSON_payload_witness :
  exists app' payload pos',
    exportNexpJSON sample_zero sample_quarters sample_small 3 2 sample_app 0
    = Ok (app', payload, pos') /\
    length (Payload.runs payload) = 3 /\
    Mean.t (Payload.mean payload) = [0; 1; 2] /\
    App.grid app' = None.
Proof.
  destruct (exportNexpJSON sample_zero sample_quarters sample_small 3 2
              sample_app 0)
    as [[[app' payload] pos']| |] eqn:He;
    [|vm_compute in He; discriminate|vm_compute in He; discriminate].
  destruct (exportNexpJSON_payload sample_zero sample_quarters sample_small
              3 2 sample_app 0 app' payload pos'
              ltac:(intros g Hg; discriminate Hg)
              ltac:(simpl; lia) ltac:(simpl; lia)
              (sample_quarters_range initSeed) He)
    as ((_ & Hgrid & _) & _ & Hlen & _ & Ht & _).
  exists app', payload, pos'. split; [reflexivity|].
  split; [exact Hlen|]. split; [exact Ht|exact Hgrid].
Defined.

(** [exportNexpJSON_no_runs] at work. *)
Lemma exportNexpJSON_no_runs_witness :
  exists out,
    exportNexpJSON sample_zero sample_quarters sample_small 0 2 sample_app 0
    = Ok (out, 0) /\
    Payload.runs (snd out) = [] /\
    Mean.i (Payload.mean (snd out)) = [NotANumber; NotANumber; NotANumber].
Proof.
  destruct (initial_grid sample_quarters sample_small 2 sample_app)
    as [init| |] eqn:Hi;
    [|vm_compute in Hi; discriminate|vm_compute in Hi; discriminate].
  eexists. split; [|split].
  - exact (exportNexpJSON_no_runs sample_zero sample_quarters sample_small
             0 2 sample_app 0 init eq_refl Hi).
  - reflexivity.
  - reflexivity.
Defined.


(** [exportNexpJSON_mean_monotone] at work: between the times 0 and 2. *)
Lemma exportNexpJSON_mean_monotone_witness :
  exists app' payload pos' r1 r2 s1 s2,
    exportNexpJSON sample_zero sample_quarters sample_small 3 2 sample_app 0
    = Ok (app', payload, pos') /\
    Mean.r (Payload.mean payload) !! 0 = Some r1 /\
    Mean.r (Payload.mean payload) !! 2 = Some r2 /\
    Mean.s (Payload.mean payload) !! 0 = Some s1 /\
    Mean.s (Payload.mean payload) !! 2 = Some s2 /\
    quot_le r1 r2 /\ quot_le s2 s1.
Proof.
  destruct (exportNexpJSON sample_zero sample_quarters sample_small 3 2
              sample_app 0)
    as [[[app' payload] pos']| |] eqn:He;
    [|vm_compute in He; discriminate|vm_compute in He; discriminate].
  destruct (exportNexpJSON_mean_monotone sample_zero sample_quarters
              sample_small 3 2 sample_app 0 app' payload pos' 0 2
              ltac:(lia) ltac:(intros g Hg; discriminate Hg)
              ltac:(simpl; lia) ltac:(simpl; lia)
              (sample_quarters_range initSeed) He ltac:(lia)
              ltac:(simpl; lia))
    as (r1 & r2 & s1 & s2 & H).
  exists app', payload, pos', r1, r2, s1, s2. split; [reflexivity|exact H].
Defined.

(** [reinitialize_fresh] at work: a component that held a grid of another
    size. *)
Lemma reinitialize_fresh_witness :
  exists init app',
    reinitialize sample_quarters sample_small 2
      (App.mk true (Some sample_grid3) [] 7 [sample_grid3]
              (Some sample_grid3))
    = Ok app' /\
    App.grid app' = Some init /\ App.time app' = 0 /\
    shown_counts sample_small app' = Ok (2, 2, 0).
Proof.
  destruct (reinitialize_fresh sample_quarters sample_small 2
              (App.mk true (Some sample_grid3) [] 7 [sample_grid3]
                      (Some sample_grid3))
              ltac:(simpl; lia) ltac:(simpl; lia)
              (sample_quarters_range initSeed) ltac:(vm_compute; lia))
    as (init & _ & Hre & Hshown).
  exists init, (App.mk true (Some init) [] 0 [] (Some init)).
  split; [exact Hre|]. split; [reflexivity|]. split; [reflexivity|].
  exact Hshown.
Defined.

(** [visibleRun_shown] at work. *)
Lemma visibleRun_shown_witness :
  exists app' pos' x,
    visibleRun sample_zero sample_small 5
               (App.mk false (Some sample_grid) [] 0 [] None) 0
    = Ok (app', pos') /\
    last (App.history app') = Some x /\
    shown_counts sample_small app'
    = Ok (StepRecord.s x, StepRecord.i x, StepRecord.r x) /\
    App.time app' = S (StepRecord.t x).
Proof.
  destruct (visibleRun sample_zero sample_small 5
              (App.mk false (Some sample_grid) [] 0 [] None) 0)
    as [[app' pos']| |] eqn:Hv;
    [|vm_compute in Hv; discriminate|vm_compute in Hv; discriminate].
  destruct (visibleRun_shown sample_zero sample_small sample_grid 5 false
              [] None 0 app' pos' sample_grid_wfg ltac:(lia)
              ltac:(simpl; lia) Hv) as (x & Hx).
  exists app', pos', x. split; [reflexivity|exact Hx].
Defined.

(** [countStates_exact] at work: the sample grid, and a grid that lost a
    row. *)
Lemma countStates_exact_witness :
  countStates sample_small sample_grid = Ok (2, 1, 1) /\
  countStates sample_small sample_short = Throw TypeError.
Proof.
  split.
  - exact (proj1 (countStates_exact sample_small sample_grid)
             sample_grid_wfg).
  - exact (proj2 (countStates_exact sample_small sample_short)
             ltac:(simpl; lia) ltac:(simpl; lia)).
Defined.

(** [App_initializeGrid_cells] at work: two draws of the same cell leave
    one infected cell. *)
Lemma App_initializeGrid_cells_witness :
  exists g : Grid,
    App_initializeGrid sample_zero sample_small 0 = Ok (g, 4) /\
    count_grid isI g <= 2 /\ cell g 0 0 = Num 1.
Proof.
  destruct (App_initializeGrid_cells sample_zero sample_small 0
              ltac:(simpl; lia) ltac:(simpl; lia) sample_zero_range)
    as (g & Hg & _ & Hcells & _ & Hle & _).
  exists g. split; [exact Hg|]. split; [exact Hle|].
  rewrite (Hcells 0 0 ltac:(simpl; lia) ltac:(simpl; lia)).
  reflexivity.
Defined.


(** [shown_counts_stale] at work: a grid of two rows held while M = 3. *)
Lemma shown_counts_stale_witness :
  shown_counts sample_wider (App.mk false (Some sample_grid) [] 0 [] None)
  = Throw TypeError.
Proof.
  exact (shown_counts_stale sample_wider
           (App.mk false (Some sample_grid) [] 0 [] None) sample_grid
           eq_refl ltac:(simpl; lia) ltac:(simpl; lia)).
Defined.

(** [step_range] at work: a grid that holds a 5 and a hole. *)
Lemma step_range_witness :
  exists g' pos',
    step sample_zero sample_small sample_odd 0 = Ok (g', pos') /\
    valid_grid 2 2 g'.
Proof.
  destruct (step sample_zero sample_small sample_odd 0)
    as [[g' pos']| |] eqn:Hs;
    [|vm_compute in Hs; discriminate|vm_compute in Hs; discriminate].
  exists g', pos'. split; [reflexivity|].
  exact (proj1 (step_range sample_zero sample_small sample_odd 0 g' pos'
                  ltac:(apply wfgb_spec; reflexivity) Hs)).
Defined.

(** [runOnceNoAnimate_draws] at work. *)
Lemma runOnceNoAnimate_draws_witness :
  exists hist pos',
    runOnceNoAnimate sample_zero sample_small (Some sample_grid) 0
    = Ok (hist, pos') /\
    pos' = 0 + sum_list_with (fun x => StepRecord.s x + StepRecord.i x)
                             (take 2 hist).
Proof.
  destruct (runOnceNoAnimate sample_zero sample_small (Some sample_grid) 0)
    as [[hist pos']| |] eqn:Hs;
    [|vm_compute in Hs; discriminate|vm_compute in Hs; discriminate].
  exists hist, pos'. split; [reflexivity|].
  exact (runOnceNoAnimate_draws sample_zero sample_small sample_grid 0 hist
           pos' ltac:(apply valid_gridb_spec; reflexivity) Hs).
Defined.


(** [drawGrid_counts] at work. *)
Lemma drawGrid_counts_witness :
  exists calls,
    drawGrid sample_small sample_grid (Some sample_canvas) = Ok calls /\
    countStates sample_small sample_grid = Ok (2, 1, 1) /\
    count_style "#3b82f6" calls = 2 /\
    count_style "#ef4444" calls = 1 /\
    count_style "#10b981" calls = 1.
Proof.
  destruct (drawGrid_counts sample_small sample_grid sample_canvas
              sample_grid_wfg)
    as (calls & s & i & r & Hdraw & Hcount & Hs & Hi & Hr).
  assert (Hsir : (s, i, r) = (2, 1, 1)).
  { assert (Hc : countStates sample_small sample_grid = Ok (2, 1, 1))
      by reflexivity.
    rewrite Hc in Hcount. by injection Hcount as <- <- <-. }
  injection Hsir as -> -> ->.
  exists calls. split; [exact Hdraw|]. split; [exact Hcount|].
  split; [exact Hs|]. split; [exact Hi|exact Hr].
Defined.

(** [generateGif_frames] at work: two frames. *)
Lemma generateGif_frames_witness :
  exists pictures,
    length pictures = 2 /\
    generateGif sample_small [sample_grid; sample_clean]
    = Ok (rendered
            (concat (map (fun picture => picture ++ [addFrame 60]) pictures)
             ++ [render])).
Proof.
  destruct (proj2 (generateGif_frames sample_small
                     [sample_grid; sample_clean])
              ltac:(repeat constructor; apply wfgb_spec; reflexivity)
              ltac:(discriminate))
    as (pictures & Hlen & _ & Hgif).
  exists pictures. split; [exact Hlen|exact Hgif].
Defined.


(** [visibleRun_generateGif] at work: a run of two steps gives two
    frames. *)
Lemma visibleRun_generateGif_witness :
  exists app' pos' pictures,
    visibleRun sample_zero sample_small 5
               (App.mk false (Some sample_grid) [] 0 [] None) 0
    = Ok (app', pos') /\
    length pictures = 2 /\
    generateGif sample_small (App.animationRef app')
    = Ok (rendered
            (concat (map (fun picture => picture ++ [addFrame 60]) pictures)
             ++ [render])).
Proof.
  destruct (visibleRun sample_zero sample_small 5
              (App.mk false (Some sample_grid) [] 0 [] None) 0)
    as [[app' pos']| |] eqn:Hv;
    [|vm_compute in Hv; discriminate|vm_compute in Hv; discriminate].
  destruct (visibleRun_generateGif sample_zero sample_small sample_grid 5
              false [] None 0 app' pos' sample_grid_wfg ltac:(lia)
              ltac:(simpl; lia) Hv) as (pictures & Hlen & Hgif & _).
  exists app', pos', pictures. split; [reflexivity|].
  split; [exact Hlen|exact Hgif].
Defined.

(** [countStates_narrow] at work: two rows of one cell counted with N = 2. *)
Lemma countStates_narrow_witness :
  countStates sample_small sample_narrow = Ok (1, 1, 2).
Proof.
  exact (countStates_narrow sample_small sample_narrow 1
           ltac:(apply wfgb_spec; reflexivity) ltac:(simpl; lia)).
Defined.



